(** * stackup (sup): a shallow embedding of the execution engine

    The development follows the Go sources:
    - [task.go]      (src/unnamed/part_000): [createTasks], [Task.do],
                     [Task.clientsFinish];
    - [ssh.go]       (src/unnamed/part_003, second revision): [NewSSHClient],
                     [parseHost], [SSHClient.Run], [SSHClient.Close];
    - [localhost.go] (src/localhost.go): [LocalhostClient];
    - [sup.go]       (src/sup.go, second revision): [Stackup.Run],
                     [networkHost];
    - [cmd/sup/main.go]: [parseArgs].

    Go [string]s are byte sequences and are modelled by [string]; Go [int]s
    are modelled by [Z] (every integer the engine computes is a slice length,
    a slice index or a sum of two of them, far below 2^63, so no wrap-around
    occurs); slices are lists.  Calls into the operating system and into the
    SSH library are answers read from a [Sys] record. *)

From Stdlib Require Import ZArith List String Ascii Bool Lia DecimalString.
From Equations Require Import Equations.
Import ListNotations.

Local Open Scope string_scope.
Local Open Scope Z_scope.

(* ================================================================== *)
(** * Go runtime fragments *)
(* ================================================================== *)

(** [len] of a slice, as a Go [int]. *)
Definition len {A : Type} (l : list A) : Z := Z.of_nat (List.length l).

(** [len] of a Go string: its number of bytes. *)
Definition slen (s : string) : Z := Z.of_nat (String.length s).

(** Handles handed out by the OS and by the SSH library. *)
Definition handle := nat.

(** [io.Reader] values a task can carry as its input. *)
Inductive Reader : Type :=
| OsStdin
| TarStdout (cwd path exclude : string)
| BytesBuffer (data : string).

(* ------------------------------------------------------------------ *)
(** ** Clients *)

(** [exec.Cmd]: the argument vector and the [Process] field, which is nil
    until [Start] succeeds. *)
Record Cmd : Type := mkCmd {
  Args : list string;
  Process : option handle
}.

(** [type LocalhostClient struct] (localhost.go). *)
Module Local.
Record LocalhostClient : Type := mk {
  cmd : option Cmd;
  user : string;
  stdin : option handle;
  stdout : option handle;
  stderr : option handle;
  running : bool;
  env : string
}.
End Local.

(** [type SSHClient struct] (ssh.go). *)
Module SSH.
Record SSHClient : Type := mk {
  conn : option handle;
  sess : option handle;
  user : string;
  host : string;
  remoteStdin : option handle;
  remoteStdout : option handle;
  remoteStderr : option handle;
  connOpened : bool;
  sessOpened : bool;
  running : bool;
  env : string;
  color : string;
  signer : option (option string)
}.
End SSH.

(** The [Client] interface has two implementations in the package; both
    are used through pointers ([&LocalhostClient{...}], [*SSHClient]). *)
Inductive ClientObj : Type :=
| LocalClient (c : Local.LocalhostClient)
| RemoteClient (c : SSH.SSHClient).

(** A [Client] value is a pointer: an address in the heap of clients. *)
Definition Client : Type := nat.

Definition Heap : Type := list ClientObj.

(** [&T{...}]: a fresh cell at the end of the heap. *)
Definition alloc (h : Heap) (o : ClientObj) : Heap * Client :=
  ((h ++ [o])%list, List.length h).

Definition load (h : Heap) (c : Client) : option ClientObj := nth_error h c.

Fixpoint store (h : Heap) (c : Client) (o : ClientObj) : Heap :=
  match h, c with
  | [], _ => []
  | _ :: rest, O => o :: rest
  | x :: rest, S c' => x :: store rest c' o
  end.

(* ------------------------------------------------------------------ *)
(** ** Tasks and errors *)

(** [type Task struct] (task.go). *)
Record Task : Type := mkTask {
  Run : string;
  Input : option Reader;
  Clients : list Client;
  TTY : bool
}.

(** Go [error] values: [errors.New]/[fmt.Errorf], [errors.Wrap], the
    package's [ErrConnect] and [ErrTask], [*ssh.ExitError], [*exec.ExitError]
    and [*multierror.Error]. *)
#[warnings="-register-all"]
Inductive error : Type :=
| errorString (msg : string)
| wrapped (cause : error) (msg : string)
| ErrConnect (User Host Reason : string)
| ErrTask (task : Task) (Reason : string)
| ExitError (status : Z)
| execExitError (code : Z)
| multiError (errs : list error).

(** What a Go call can do: return normally, return an error, panic, or
    end the process ([os.Exit(code)]). *)
Inductive result (A : Type) : Type :=
| Ok (a : A)
| Error (e : error)
| Panic (msg : string)
| Exit (code : Z).

Arguments Ok {A} a.
Arguments Error {A} e.
Arguments Panic {A} msg.
Arguments Exit {A} code.

Definition bind {A B : Type} (r : result A) (k : A -> result B) : result B :=
  match r with
  | Ok a => k a
  | Error e => Error e
  | Panic m => Panic m
  | Exit code => Exit code
  end.

Notation "x <- r ;; k" := (bind r (fun x => k))
  (at level 61, r at next level, right associativity).

(** [s[i:j]] on a slice: panics unless [0 <= i <= j <= cap(s)]; the model
    takes the capacity of a slice to be its length. *)
Definition slice {A : Type} (s : list A) (i j : Z) : result (list A) :=
  if (0 <=? i) && (i <=? j) && (j <=? len s)
  then Ok (firstn (Z.to_nat (j - i)) (skipn (Z.to_nat i) s))
  else Panic "slice bounds out of range".

(** [s[0]] on a slice. *)
Definition index0 {A : Type} (s : list A) : result A :=
  match s with
  | [] => Panic "index out of range [0] with length 0"
  | x :: _ => Ok x
  end.

(* ================================================================== *)
(** * The declarative input *)
(* ================================================================== *)

(** Modelled from the spec: the [Upload] and [Command] declarations
    (supfile.go) are not among the sources; the fields are the attributes
    of section 3 of the specification, under the names [createTasks]
    reads them by ([CLocal], [CRun] and [CUpload] for [cmd.Local], [cmd.Run]
    and [cmd.Upload], names taken here by the client module, the task field
    and the upload record). *)
Record Upload : Type := mkUpload {
  Src : string;
  Dst : string;
  Exc : string
}.

Record Command : Type := mkCommand {
  Name : string;
  Desc : string;
  CLocal : string;
  CRun : string;
  Script : string;
  CUpload : list Upload;
  Stdin : bool;
  Once : bool;
  Serial : Z
}.

(** Modelled from the spec: [EnvVar], [EnvList], [Network] and [Supfile]
    (supfile.go) are not among the sources.  A network is a set of hosts, an
    optional bastion, an optional inventory command and an env list
    (sections 3 and 6 of the specification); a Supfile holds the networks,
    commands and targets by name, and the global env. *)
Record EnvVar : Type := mkEnvVar {
  Key : string;
  Value : string
}.

Definition EnvList : Type := list EnvVar.

Record Network : Type := mkNetwork {
  NEnv : EnvList;
  Inventory : string;
  Hosts : list string;
  Bastion : string
}.

Record Supfile : Type := mkSupfile {
  Networks : list (string * Network);
  Commands : list (string * Command);
  Targets : list (string * list string);
  SEnv : EnvList;
  Version : string
}.

(** [*user.User], the fields the package reads. *)
Record OsUser : Type := mkOsUser {
  Username : string;
  HomeDir : string
}.

(** [sshconfig.SSHHost] (github.com/mikkeloscar/sshconfig), the fields the
    package reads. *)
Record SSHHost : Type := mkSSHHost {
  Host : list string;
  HostName : string;
  User : string;
  Port : Z;
  IdentityFile : string
}.

(** [type Stackup struct] (sup.go); [conf] is not read by the engine. *)
Record Stackup : Type := mkStackup {
  debug : bool;
  prefix : bool
}.

(* ================================================================== *)
(** * The operating system *)
(* ================================================================== *)

(** A call that leaves the process answers with a value or an error. *)
Inductive answer (A : Type) : Type :=
| Done (a : A)
| Fail (e : error).

Arguments Done {A} a.
Arguments Fail {A} e.

Definition call {A : Type} (r : answer A) : result A :=
  match r with
  | Done a => Ok a
  | Fail e => Error e
  end.

(** [os.Signal] *)
Inductive Signal : Type :=
| Interrupt
| otherSignal (name : string).

(** How an SSH connection is dialled: [ssh.Dial], or the [DialThrough]
    method of a bastion client. *)
Inductive dialer : Type :=
| sshDial
| DialThrough (bastion : SSH.SSHClient).

(** Answers of the calls that leave the process.  A handle names the
    object a call is made on. *)
Record Sys : Type := mkSys {
  (** [os.Getwd()] *)
  os_Getwd : answer string;
  (** [os.Getenv(key)] *)
  os_Getenv : string -> string;
  (** [user.Current()] *)
  user_Current : answer OsUser;
  (** [exec.Command(name, args...)] with [cmd.Dir = dir], then [Output()] *)
  exec_Output : string -> list string -> answer string;
  (** [tar] producer: [cmd.StdoutPipe()] and [cmd.Start()] *)
  tar_StdoutPipe : string -> string -> string -> answer unit;
  tar_Start : string -> string -> string -> answer unit;
  (** [os.Open(name)], [ioutil.ReadAll(f)], [ioutil.ReadFile(name)] *)
  os_Open : string -> answer handle;
  ioutil_ReadAll : handle -> answer string;
  ioutil_ReadFile : string -> answer string;
  (** [ssh.ParsePrivateKey(data)] *)
  ssh_ParsePrivateKey : string -> answer string;
  (** [dialer("tcp", addr, config)] with [config.User = user] *)
  ssh_Dial : dialer -> string -> string -> answer handle;
  (** [conn.NewSession()], [conn.Close()] *)
  conn_NewSession : handle -> answer handle;
  conn_Close : handle -> option error;
  (** methods of [*ssh.Session] *)
  sess_RequestPty : handle -> answer unit;
  sess_StdinPipe : handle -> answer handle;
  sess_StdoutPipe : handle -> answer handle;
  sess_StderrPipe : handle -> answer handle;
  sess_Start : handle -> string -> option error;
  sess_Wait : handle -> option error;
  sess_Signal : handle -> option error;
  sess_Close : handle -> option error;
  (** [io.Copy(dst, src)], [w.Write(p)] and [w.Close()] on a pipe *)
  io_Copy : handle -> Reader -> option error;
  pipe_Write : handle -> string -> option error;
  pipe_Close : handle -> option error;
  (** methods of [*exec.Cmd] on the argument vector it was built with *)
  cmd_StdoutPipe : list string -> answer handle;
  cmd_StderrPipe : list string -> answer handle;
  cmd_StdinPipe : list string -> answer handle;
  cmd_Start : list string -> answer handle;
  cmd_Wait : handle -> option error;
  (** [process.Signal(sig)] *)
  process_Signal : handle -> Signal -> option error;
  (** [err.Error()] of an error value *)
  Error_text : error -> string;
  (** [sup.NewSupfile(data)], [network.ParseInventory()],
      [vars.ResolveValues()] (supfile.go, not among the sources) *)
  NewSupfile : string -> answer Supfile;
  ParseInventory : Network -> answer (list string);
  ResolveValues : EnvList -> answer EnvList;
  (** [sshconfig.Parse(path)] *)
  sshconfig_Parse : string -> answer (list SSHHost);
  (** [regexp.CompilePOSIX(expr)] and [expr.MatchString(s)] *)
  regexp_CompilePOSIX : string -> answer handle;
  regexp_MatchString : handle -> string -> bool;
  (** [time.Now().UTC().Format(time.RFC3339)] *)
  time_Now : string;
  (** [filepath.Join(elem...)] *)
  filepath_Join : list string -> string;
  (** the [%q] verb of [fmt] *)
  fmt_q : string -> string
}.

(** [errors.Wrap(err, msg)] around a failing call. *)
Definition wrap {A : Type} (r : result A) (msg : string) : result A :=
  match r with
  | Error e => Error (wrapped e msg)
  | other => other
  end.

(* ================================================================== *)
(** * localhost.go, tar.go: helpers of the task builder *)
(* ================================================================== *)

(** [ResolveLocalPath] (localhost.go). *)
Definition ResolveLocalPath (w : Sys) (cwd path env : string) : result string :=
  wrap (call (exec_Output w cwd ["bash"; "-c"; env ++ "echo -n " ++ path]))
       "resolving path failed".

(** [RemoteTarCommand] (tar.go): [fmt.Sprintf("tar -C \"%s\" -xzf -", dir)]. *)
Definition dquote : string := String (ascii_of_nat 34) EmptyString.

Definition RemoteTarCommand (dir : string) : string :=
  "tar -C " ++ dquote ++ dir ++ dquote ++ " -xzf -".

(** [NewTarStreamReader] (tar.go). *)
Definition NewTarStreamReader (w : Sys) (cwd path exclude : string)
  : result Reader :=
  _ <- wrap (call (tar_StdoutPipe w cwd path exclude))
            "tar: stdout pipe failed" ;;
  _ <- wrap (call (tar_Start w cwd path exclude))
            "tar: starting cmd failed" ;;
  Ok (TarStdout cwd path exclude).

(** [LocalhostClient.Connect] (localhost.go). *)
Definition LocalhostClient_Connect (w : Sys) (c : Local.LocalhostClient)
  : Local.LocalhostClient * option error :=
  match user_Current w with
  | Done u =>
      (Local.mk (Local.cmd c) (Username u) (Local.stdin c) (Local.stdout c)
                (Local.stderr c) (Local.running c) (Local.env c), None)
  | Fail e => (c, Some e)
  end.

(* ================================================================== *)
(** * task.go: [createTasks] *)
(* ================================================================== *)

(** [task.Clients = cs] on a copy of [task]. *)
Definition withClients (task : Task) (cs : list Client) : Task :=
  mkTask (Run task) (Input task) cs (TTY task).

(** The loop
    [for i := 0; i < len(clients); i += cmd.Serial { ... }],
    entered only under [cmd.Serial > 0]: the step is a [positive]. *)
Equations? serialLoop (serial : positive) (clients : list Client) (task : Task)
  (i : Z) (tasks : list Task) : result (list Task)
  by wf (Z.to_nat (len clients - i)) lt :=
serialLoop serial clients task i tasks with Z_lt_dec i (len clients) := {
  | right _ => Ok tasks
  | left _ with slice clients i
                  (if i + Zpos serial >? len clients
                   then len clients else i + Zpos serial) := {
      | Ok cs => serialLoop serial clients task (i + Zpos serial)
                            (tasks ++ [withClients task cs])%list
      | Error e => Error e
      | Panic m => Panic m
      | Exit code => Exit code } }.
Proof. lia. Qed.

(** The client fan-out.  The source spells it three times, once per body
    (upload: lines 60-83, script: 111-130, remote: 172-191); the three
    copies differ only in using [continue] or [else]. *)
Definition fanOut (cmd : Command) (clients : list Client) (task : Task)
  (tasks : list Task) : result (list Task) :=
  if Once cmd then
    c <- index0 clients ;;
    Ok (tasks ++ [withClients task [c]])%list
  else
    match Serial cmd with
    | Zpos serial => serialLoop serial clients task 0 tasks
    | _ => Ok (tasks ++ [withClients task clients])%list
    end.

(** The loop over [cmd.Upload]. *)
Fixpoint uploadTasks (w : Sys) (cmd : Command) (clients : list Client)
  (env cwd : string) (uploads : list Upload) (tasks : list Task)
  : result (list Task) :=
  match uploads with
  | [] => Ok tasks
  | upload :: rest =>
      uploadFile <- wrap (ResolveLocalPath w cwd (Src upload) env)
                         ("upload: " ++ Src upload) ;;
      uploadTarReader <- wrap (NewTarStreamReader w cwd uploadFile (Exc upload))
                              ("upload: " ++ Src upload) ;;
      let task := mkTask (RemoteTarCommand (Dst upload))
                         (Some uploadTarReader) [] false in
      tasks' <- fanOut cmd clients task tasks ;;
      uploadTasks w cmd clients env cwd rest tasks'
  end.

(** [if sup.debug { task.Run = "set -x;" + task.Run }] and
    [if cmd.Stdin { task.Input = os.Stdin }]. *)
Definition debugStdin (sup : Stackup) (cmd : Command) (task : Task) : Task :=
  let task := if debug sup
              then mkTask ("set -x;" ++ Run task) (Input task)
                          (Clients task) (TTY task)
              else task in
  if Stdin cmd
  then mkTask (Run task) (Some OsStdin) (Clients task) (TTY task)
  else task.

(** The script body. *)
Definition scriptTasks (w : Sys) (sup : Stackup) (cmd : Command)
  (clients : list Client) (tasks : list Task) : result (list Task) :=
  if String.eqb (Script cmd) "" then Ok tasks
  else
    f <- wrap (call (os_Open w (Script cmd))) "can't open script" ;;
    data <- wrap (call (ioutil_ReadAll w f)) "can't read script" ;;
    let task := debugStdin sup cmd (mkTask data None [] true) in
    fanOut cmd clients task tasks.

(** The local body: a one-off localhost client, newly allocated, whose
    [Connect] error is dropped ([_ = local.Connect()]). *)
Definition localTasks (w : Sys) (sup : Stackup) (cmd : Command)
  (env : string) (tasks : list Task) (h : Heap) : Heap * list Task :=
  if String.eqb (CLocal cmd) "" then (h, tasks)
  else
    let obj := Local.mk None "" None None None false
                 (env ++ "export SUP_HOST=" ++ dquote ++ "localhost"
                      ++ dquote ++ ";") in
    let (obj, _) := LocalhostClient_Connect w obj in
    let (h, local) := alloc h (LocalClient obj) in
    let task := mkTask (CLocal cmd) None [local] true in
    (h, (tasks ++ [debugStdin sup cmd task])%list).

(** The remote body. *)
Definition runTasks (sup : Stackup) (cmd : Command) (clients : list Client)
  (tasks : list Task) : result (list Task) :=
  if String.eqb (CRun cmd) "" then Ok tasks
  else
    let task := debugStdin sup cmd (mkTask (CRun cmd) None [] true) in
    fanOut cmd clients task tasks.

(** [func (sup *Stackup) createTasks(cmd, clients, env)] (task.go).  On an
    error Go returns the tasks built so far next to it; every caller drops
    them, and so does the model. *)
Definition createTasks (w : Sys) (sup : Stackup) (cmd : Command)
  (clients : list Client) (env : string) (h : Heap)
  : Heap * result (list Task) :=
  match
    cwd <- wrap (call (os_Getwd w)) "resolving CWD failed" ;;
    tasks <- uploadTasks w cmd clients env cwd (CUpload cmd) [] ;;
    scriptTasks w sup cmd clients tasks
  with
  | Ok tasks =>
      let (h, tasks) := localTasks w sup cmd env tasks h in
      (h, runTasks sup cmd clients tasks)
  | Error e => (h, Error e)
  | Panic m => (h, Panic m)
  | Exit code => (h, Exit code)
  end.

(* ------------------------------------------------------------------ *)
(** ** Vocabulary of the task builder's properties *)

(** The [k]-th contiguous block of [n] elements of a slice. *)
Definition block {A : Type} (n : nat) (k : nat) (l : list A) : list A :=
  firstn n (skipn (k * n) l).

(** The ceiling of [a / b] on non-negative Go integers. *)
Definition ceilDiv (a b : Z) : Z := (a + b - 1) / b.

(** The contiguous blocks of [n] elements that cover a slice. *)
Definition blocks {A : Type} (n : nat) (l : list A) : list (list A) :=
  map (fun k => block n k l)
      (seq 0 (Z.to_nat (ceilDiv (len l) (Z.of_nat n)))).

(** The client groups the fan-out binds a body to. *)
Definition groups (cmd : Command) (clients : list Client)
  : list (list Client) :=
  if Once cmd then
    match clients with
    | c :: _ => [[c]]
    | [] => []
    end
  else
    match Serial cmd with
    | Zpos serial => blocks (Pos.to_nat serial) clients
    | _ => [clients]
    end.

(** A task is bound to one of the groups [gs]. *)
Definition inGroups (gs : list (list Client)) (t : Task) : Prop :=
  In (Clients t) gs.

(* ================================================================== *)
(** * Go [strings] and [fmt] fragments *)
(* ================================================================== *)

(** [strings.Index(s, substr)]: the first occurrence, or -1. *)
Fixpoint indexFrom (substr s : string) (pos : Z) : Z :=
  if String.prefix substr s then pos
  else match s with
       | EmptyString => -1
       | String _ s' => indexFrom substr s' (pos + 1)
       end.

Definition Index (s substr : string) : Z := indexFrom substr s 0.

(** [strings.LastIndex(s, substr)]: the last occurrence, or -1. *)
Fixpoint lastIndexFrom (substr s : string) (pos best : Z) : Z :=
  let best := if String.prefix substr s then pos else best in
  match s with
  | EmptyString => best
  | String _ s' => lastIndexFrom substr s' (pos + 1) best
  end.

Definition LastIndex (s substr : string) : Z := lastIndexFrom substr s 0 (-1).

(** [strings.Contains(s, substr)] *)
Definition Contains (s substr : string) : bool := 0 <=? Index s substr.

(** [strings.HasPrefix(s, prefix)] *)
Definition HasPrefix (s pre : string) : bool := String.prefix pre s.

(** [s[i:j]] on a string, used by the source only with
    [0 <= i <= j <= len(s)], where it cannot panic. *)
Definition sslice (s : string) (i j : Z) : string :=
  substring (Z.to_nat i) (Z.to_nat (j - i)) s.

(** [strings.HasSuffix(s, suffix)] *)
Definition HasSuffix (s suffix : string) : bool :=
  (slen suffix <=? slen s)
  && String.eqb (sslice s (slen s - slen suffix) (slen s)) suffix.

(** [strings.Repeat(s, count)] *)
Definition Repeat (s : string) (count : Z) : result string :=
  if count <? 0 then Panic "strings: negative Repeat count"
  else Ok (String.concat "" (List.repeat s (Z.to_nat count))).

(** [strings.Replace(s, old, new, 1)] *)
Definition Replace1 (s old new : string) : string :=
  let i := Index s old in
  if i <? 0 then s
  else sslice s 0 i ++ new ++ sslice s (i + slen old) (slen s).

(** [strconv.Itoa(n)], also the [%d] verb. *)
Definition Itoa (n : Z) : string := NilZero.string_of_int (Z.to_int n).

(** [utf8.RuneCountInString] on valid UTF-8: the bytes that are not
    continuation bytes (10xxxxxx). *)
Fixpoint runeCount (s : string) : Z :=
  match s with
  | EmptyString => 0
  | String c s' =>
      let n := Z.of_nat (nat_of_ascii c) in
      (if (128 <=? n) && (n <? 192) then 0 else 1) + runeCount s'
  end.

(** [fmt.Sprintf("%" + strconv.Itoa(width) + "s", p)] for [width >= 0]:
    [p] padded with spaces on the left to [width] runes. *)
Definition padLeft (width : Z) (p : string) : string :=
  String.concat "" (List.repeat " " (Z.to_nat (width - runeCount p))) ++ p.

(* ================================================================== *)
(** * Effects *)
(* ================================================================== *)

(** What the process does to the outside, in order. *)
Inductive event : Type :=
| EvDial (d : dialer) (addr user : string) (auth : option (option string))
| EvRequestPty (sess : handle) (term : string) (h w echo : Z)
| EvStart (sess : handle) (cmdline : string)
| EvCopy (dst : handle) (src : Reader)
| EvWrite (dst : handle) (data : string)
| EvPump (stderr : bool) (c : Client) (prefix : string)
| EvExec (argv : list string)
| EvSignal (process : handle) (sig : Signal)
| EvStderr (prefix : string) (e : error)
| EvUsage (commands : bool)
| EvPrint (text : string).

(** A method on a mutable receiver of type [St]: the state after the
    call, the events of the call, and what it returns. *)
Definition M (St A : Type) : Type := St -> St * list event * result A.

Definition ret {St A : Type} (a : A) : M St A :=
  fun s => (s, [], Ok a).

Definition bindM {St A B : Type} (m : M St A) (k : A -> M St B) : M St B :=
  fun s =>
    match m s with
    | (s', tr, Ok a) =>
        match k a s' with
        | (s'', tr', r) => (s'', (tr ++ tr')%list, r)
        end
    | (s', tr, Error e) => (s', tr, Error e)
    | (s', tr, Panic msg) => (s', tr, Panic msg)
    | (s', tr, Exit code) => (s', tr, Exit code)
    end.

Notation "x <~ m ;; k" := (bindM m (fun x => k))
  (at level 61, m at next level, right associativity).
Notation "m >> k" := (bindM m (fun _ => k))
  (at level 61, right associativity).

Definition get {St : Type} : M St St := fun s => (s, [], Ok s).

Definition modify {St : Type} (f : St -> St) : M St unit :=
  fun s => (f s, [], Ok tt).

Definition emit {St : Type} (ev : event) : M St unit :=
  fun s => (s, [ev], Ok tt).

(** [return err] with a non-nil [err]. *)
Definition throw {St A : Type} (e : error) : M St A :=
  fun s => (s, [], Error e).

Definition panic {St A : Type} (msg : string) : M St A :=
  fun s => (s, [], Panic msg).

(** Following a pointer field: nil panics. *)
Definition deref {St A : Type} (p : option A) : M St A :=
  match p with
  | Some a => ret a
  | None => panic "invalid memory address or nil pointer dereference"
  end.

(** [if err != nil { return err }] *)
Definition check {St : Type} (err : option error) : M St unit :=
  match err with
  | None => ret tt
  | Some e => throw e
  end.

(** A method of one client, run on the heap cell [c] points to. *)
Definition onClient {A : Type} (c : Client) (m : M ClientObj A) : M Heap A :=
  fun h =>
    match load h c with
    | None => (h, [], Panic "invalid memory address or nil pointer dereference")
    | Some o =>
        match m o with
        | (o', tr, r) => (store h c o', tr, r)
        end
    end.

(* ================================================================== *)
(** * ssh.go: the SSH client *)
(* ================================================================== *)

(** Modelled from the spec: the colour table [Colors] and [ResetColor]
    (colors.go, the "ANSI color table" of the specification) are not among
    the sources.  They are parameters; the table has a first entry, since
    [Colors[i%len(Colors)]] is evaluated for every SSH client. *)
Record Palette : Type := mkPalette {
  Color0 : string;
  ColorsRest : list string;
  ResetColor : string
}.

Definition Colors (pal : Palette) : list string := Color0 pal :: ColorsRest pal.

(** Field assignments [c.f = v] on [*SSHClient]. *)
Definition set_conn (v : option handle) (c : SSH.SSHClient) : SSH.SSHClient :=
  SSH.mk v (SSH.sess c) (SSH.user c) (SSH.host c) (SSH.remoteStdin c)
    (SSH.remoteStdout c) (SSH.remoteStderr c) (SSH.connOpened c)
    (SSH.sessOpened c) (SSH.running c) (SSH.env c) (SSH.color c) (SSH.signer c).

Definition set_sess (v : option handle) (c : SSH.SSHClient) : SSH.SSHClient :=
  SSH.mk (SSH.conn c) v (SSH.user c) (SSH.host c) (SSH.remoteStdin c)
    (SSH.remoteStdout c) (SSH.remoteStderr c) (SSH.connOpened c)
    (SSH.sessOpened c) (SSH.running c) (SSH.env c) (SSH.color c) (SSH.signer c).

Definition set_user (v : string) (c : SSH.SSHClient) : SSH.SSHClient :=
  SSH.mk (SSH.conn c) (SSH.sess c) v (SSH.host c) (SSH.remoteStdin c)
    (SSH.remoteStdout c) (SSH.remoteStderr c) (SSH.connOpened c)
    (SSH.sessOpened c) (SSH.running c) (SSH.env c) (SSH.color c) (SSH.signer c).

Definition set_host (v : string) (c : SSH.SSHClient) : SSH.SSHClient :=
  SSH.mk (SSH.conn c) (SSH.sess c) (SSH.user c) v (SSH.remoteStdin c)
    (SSH.remoteStdout c) (SSH.remoteStderr c) (SSH.connOpened c)
    (SSH.sessOpened c) (SSH.running c) (SSH.env c) (SSH.color c) (SSH.signer c).

Definition set_remoteStdin (v : option handle) (c : SSH.SSHClient)
  : SSH.SSHClient :=
  SSH.mk (SSH.conn c) (SSH.sess c) (SSH.user c) (SSH.host c) v
    (SSH.remoteStdout c) (SSH.remoteStderr c) (SSH.connOpened c)
    (SSH.sessOpened c) (SSH.running c) (SSH.env c) (SSH.color c) (SSH.signer c).

Definition set_remoteStdout (v : option handle) (c : SSH.SSHClient)
  : SSH.SSHClient :=
  SSH.mk (SSH.conn c) (SSH.sess c) (SSH.user c) (SSH.host c) (SSH.remoteStdin c)
    v (SSH.remoteStderr c) (SSH.connOpened c)
    (SSH.sessOpened c) (SSH.running c) (SSH.env c) (SSH.color c) (SSH.signer c).

Definition set_remoteStderr (v : option handle) (c : SSH.SSHClient)
  : SSH.SSHClient :=
  SSH.mk (SSH.conn c) (SSH.sess c) (SSH.user c) (SSH.host c) (SSH.remoteStdin c)
    (SSH.remoteStdout c) v (SSH.connOpened c)
    (SSH.sessOpened c) (SSH.running c) (SSH.env c) (SSH.color c) (SSH.signer c).

Definition set_connOpened (v : bool) (c : SSH.SSHClient) : SSH.SSHClient :=
  SSH.mk (SSH.conn c) (SSH.sess c) (SSH.user c) (SSH.host c) (SSH.remoteStdin c)
    (SSH.remoteStdout c) (SSH.remoteStderr c) v
    (SSH.sessOpened c) (SSH.running c) (SSH.env c) (SSH.color c) (SSH.signer c).

Definition set_sessOpened (v : bool) (c : SSH.SSHClient) : SSH.SSHClient :=
  SSH.mk (SSH.conn c) (SSH.sess c) (SSH.user c) (SSH.host c) (SSH.remoteStdin c)
    (SSH.remoteStdout c) (SSH.remoteStderr c) (SSH.connOpened c)
    v (SSH.running c) (SSH.env c) (SSH.color c) (SSH.signer c).

Definition set_running (v : bool) (c : SSH.SSHClient) : SSH.SSHClient :=
  SSH.mk (SSH.conn c) (SSH.sess c) (SSH.user c) (SSH.host c) (SSH.remoteStdin c)
    (SSH.remoteStdout c) (SSH.remoteStderr c) (SSH.connOpened c)
    (SSH.sessOpened c) v (SSH.env c) (SSH.color c) (SSH.signer c).

Definition set_env (v : string) (c : SSH.SSHClient) : SSH.SSHClient :=
  SSH.mk (SSH.conn c) (SSH.sess c) (SSH.user c) (SSH.host c) (SSH.remoteStdin c)
    (SSH.remoteStdout c) (SSH.remoteStderr c) (SSH.connOpened c)
    (SSH.sessOpened c) (SSH.running c) v (SSH.color c) (SSH.signer c).

Definition set_signer (v : option (option string)) (c : SSH.SSHClient)
  : SSH.SSHClient :=
  SSH.mk (SSH.conn c) (SSH.sess c) (SSH.user c) (SSH.host c) (SSH.remoteStdin c)
    (SSH.remoteStdout c) (SSH.remoteStderr c) (SSH.connOpened c)
    (SSH.sessOpened c) (SSH.running c) (SSH.env c) (SSH.color c) v.

(** [`export SUP_HOST="` + host + `";`] *)
Definition exportSupHost (host : string) : string :=
  "export SUP_HOST=" ++ dquote ++ host ++ dquote ++ ";".

(** [func (c *SSHClient) getPrivateKey(file)]: the [*ssh.Signer] and the
    error it returns.  A [.pub] file yields [nil, nil]; a key that does not
    parse yields a pointer to a nil signer next to the error. *)
Definition getPrivateKey (w : Sys) (file : string)
  : option (option string) * option error :=
  if HasSuffix file ".pub" then (None, None)
  else
    match ioutil_ReadFile w file with
    | Fail e => (None, Some e)
    | Done data =>
        match ssh_ParsePrivateKey w data with
        | Done signer => (Some (Some signer), None)
        | Fail e => (Some None, Some e)
        end
    end.

(** [func (c *SSHClient) parseHost(host)] (ssh.go, lines 682-718). *)
Definition parseHost (w : Sys) (host : string) : M SSH.SSHClient unit :=
  (* Remove extra "ssh://" schema *)
  let host := if (slen host >? 6) && String.eqb (sslice host 0 6) "ssh://"
              then sslice host 6 (slen host) else host in
  (* Split by the last "@" *)
  let at_ := LastIndex host "@" in
  (if negb (at_ =? -1) then modify (set_user (sslice host 0 at_)) else ret tt) >>
  let host := if negb (at_ =? -1)
              then sslice host (at_ + 1) (slen host) else host in
  (* Add default user, if not set *)
  c <~ get ;;
  (if String.eqb (SSH.user c) "" then
     match user_Current w with
     | Fail e => throw e
     | Done u => modify (set_user (Username u))
     end
   else ret tt) >>
  c <~ get ;;
  if Contains host "/" then
    throw (ErrConnect (SSH.user c) host "unexpected slash in the host URL")
  else
    (* Add default port, if not set *)
    let host := if negb (Contains host ":") then host ++ ":22" else host in
    modify (set_host host).

(** The inner loop of [NewSSHClient]: [for _, h := range sshHost.Host],
    looking for [host == h]. *)
Fixpoint matchesAlias (host : string) (patterns : list string) : bool :=
  match patterns with
  | [] => false
  | h :: rest => if String.eqb host h then true else matchesAlias host rest
  end.

(** The body run for the first alias that matches; it returns from
    [NewSSHClient]. *)
Definition adoptAlias (w : Sys) (env : string) (sshHost : SSHHost)
  : M SSH.SSHClient unit :=
  modify (set_host (HostName sshHost)) >>
  modify (set_user (User sshHost)) >>
  (if Port sshHost >? 0
   then modify (set_host (HostName sshHost ++ ":" ++ Itoa (Port sshHost)))
   else ret tt) >>
  (if negb (String.eqb (IdentityFile sshHost) "") then
     let file := if HasPrefix (IdentityFile sshHost) "~"
                 then Replace1 (IdentityFile sshHost) "~" (os_Getenv w "HOME")
                 else IdentityFile sshHost in
     let (signer, err) := getPrivateKey w file in
     modify (set_signer signer) >>
     match err with
     | Some e => throw (wrapped e "get private key")
     | None => ret tt
     end
   else ret tt) >>
  c <~ get ;;
  modify (set_env (env ++ exportSupHost (SSH.host c))).

(** The outer loop of [NewSSHClient]: [None] when no alias matches. *)
Fixpoint lookupAlias (host : string) (sshConfigHosts : list SSHHost)
  : option SSHHost :=
  match sshConfigHosts with
  | [] => None
  | sshHost :: rest =>
      if matchesAlias host (Host sshHost) then Some sshHost
      else lookupAlias host rest
  end.

(** [Colors[i%len(Colors)]], for the [i >= 0] of the two call sites. *)
Definition colorOf (pal : Palette) (i : Z) : string :=
  nth (Z.to_nat (Z.rem i (len (Colors pal)))) (Colors pal) (Color0 pal).

(** [func NewSSHClient(host, env, i, sshConfigHosts) (c *SSHClient, err error)]
    (ssh.go, lines 415-453): the client it builds, and [Error] when [err]
    is not nil. *)
Definition NewSSHClient (w : Sys) (pal : Palette) (host env : string) (i : Z)
  (sshConfigHosts : list SSHHost) : SSH.SSHClient * result unit :=
  let c := SSH.mk None None "" host None None None false false false ""
                  (colorOf pal i) None in
  let body :=
    match lookupAlias host sshConfigHosts with
    | Some sshHost => adoptAlias w env sshHost
    | None =>
        modify (set_env (env ++ exportSupHost host)) >>
        parseHost w host
    end in
  match body c with
  | (c', _, r) => (c', r)
  end.

(** The dialler call of [ConnectWith]; [DialThrough] goes through the
    bastion's connection. *)
Definition dial (w : Sys) (d : dialer) (addr user : string)
  (auth : option (option string)) : M SSH.SSHClient handle :=
  emit (EvDial d addr user auth) >>
  match d with
  | sshDial => ret tt
  | DialThrough bastion => _ <~ deref (SSH.conn bastion) ;; ret tt
  end >>
  match ssh_Dial w d addr user with
  | Done conn => ret conn
  | Fail e => throw e
  end.

(** [func (c *SSHClient) ConnectWith(dialer)] (ssh.go, lines 477-506).
    [auth] is the client's own signer, or [None] for the process-wide
    signers that [initAuthMethod] collects once from the SSH agent and the
    key files; what it collects is part of the dialler's answer. *)
Definition SSHClient_ConnectWith (w : Sys) (d : dialer) : M SSH.SSHClient unit :=
  c <~ get ;;
  if SSH.connOpened c then throw (errorString "Already connected")
  else
    fun c =>
      match dial w d (SSH.host c) (SSH.user c) (SSH.signer c) c with
      | (c, tr, Ok conn) =>
          (set_connOpened true (set_conn (Some conn) c), tr, Ok tt)
      | (c, tr, Error e) =>
          (set_conn None c, tr,
           Error (ErrConnect (SSH.user c) (SSH.host c) (Error_text w e)))
      | (c, tr, Panic m) => (c, tr, Panic m)
      | (c, tr, Exit code) => (c, tr, Exit code)
      end.

(** [func (c *SSHClient) Connect()] *)
Definition SSHClient_Connect (w : Sys) : M SSH.SSHClient unit :=
  SSHClient_ConnectWith w sshDial.

(** [func (c *SSHClient) openSession()] (ssh.go, lines 757-770). *)
Definition openSession (w : Sys) : M SSH.SSHClient unit :=
  c <~ get ;;
  if SSH.sessOpened c then throw (errorString "Session already connected")
  else
    conn <~ deref (SSH.conn c) ;;
    match conn_NewSession w conn with
    | Fail e => throw e
    | Done sess =>
        modify (set_sess (Some sess)) >>
        modify (set_sessOpened true)
    end.

(** [c.f, err = call(); if err != nil { return err }]: the field is
    assigned before the error is looked at. *)
Definition assignPipe (set : option handle -> SSH.SSHClient -> SSH.SSHClient)
  (r : answer handle) : M SSH.SSHClient unit :=
  match r with
  | Done p => modify (set (Some p))
  | Fail e => modify (set None) >> throw e
  end.

(** [func (c *SSHClient) Run(task *Task)] (ssh.go, lines 528-577). *)
Definition SSHClient_Run (w : Sys) (task : Task) : M SSH.SSHClient unit :=
  c <~ get ;;
  if SSH.running c then throw (errorString "Session already running")
  else
    openSession w >>
    c <~ get ;;
    sess <~ deref (SSH.sess c) ;;
    (* Handle interactive sessions *)
    (if TTY task then
       emit (EvRequestPty sess "xterm" 40 80 1) >>
       match sess_RequestPty w sess with
       | Fail e => throw (wrapped e "request for pseudo terminal failed")
       | Done _ => ret tt
       end
     else ret tt) >>
    assignPipe set_remoteStdin (sess_StdinPipe w sess) >>
    assignPipe set_remoteStdout (sess_StdoutPipe w sess) >>
    assignPipe set_remoteStderr (sess_StderrPipe w sess) >>
    c <~ get ;;
    match Input task with
    | Some input =>
        emit (EvStart sess (Run task)) >>
        match sess_Start w sess (Run task) with
        | Some e => throw (ErrTask task (Error_text w e))
        | None => ret tt
        end >>
        stdin <~ deref (SSH.remoteStdin c) ;;
        emit (EvCopy stdin input) >>
        match io_Copy w stdin input with
        | Some e => throw (wrapped e "copying input failed")
        | None => ret tt
        end >>
        match pipe_Close w stdin with
        | Some e => throw (wrapped e "closing input failed")
        | None => ret tt
        end
    | None =>
        emit (EvStart sess (SSH.env c ++ Run task)) >>
        match sess_Start w sess (SSH.env c ++ Run task) with
        | Some e => throw (ErrTask task (Error_text w e))
        | None => ret tt
        end
    end >>
    modify (set_running true).

(** [io.EOF] *)
Definition isEOF (e : error) : bool :=
  match e with
  | errorString msg => String.eqb msg "EOF"
  | _ => false
  end.

(** [multierror.Append(err, e)] *)
Definition multierror_Append (err : option error) (e : error) : error :=
  match err with
  | None => multiError [e]
  | Some (multiError errs) => multiError (errs ++ [e])
  | Some err => multiError [err; e]
  end.

(** [func (c *SSHClient) Wait()] (ssh.go, lines 581-594). *)
Definition SSHClient_Wait (w : Sys) : M SSH.SSHClient unit :=
  c <~ get ;;
  if negb (SSH.running c) then
    throw (errorString "Trying to wait on stopped session")
  else
    sess <~ deref (SSH.sess c) ;;
    let err := sess_Wait w sess in
    modify (set_running false) >>
    modify (set_sessOpened false) >>
    let err := match sess_Close w sess with
               | Some e => if negb (isEOF e)
                           then Some (multierror_Append err e) else err
               | None => err
               end in
    check err.

(** [func (c *SSHClient) Close()] (ssh.go, lines 618-635). *)
Definition SSHClient_Close (w : Sys) : M SSH.SSHClient unit :=
  c <~ get ;;
  (if SSH.sessOpened c then
     modify (set_sessOpened false) >>
     sess <~ deref (SSH.sess c) ;;
     check (sess_Close w sess)
   else ret tt) >>
  c <~ get ;;
  if negb (SSH.connOpened c) then
    throw (errorString "Trying to close the already closed connection")
  else
    conn <~ deref (SSH.conn c) ;;
    let err := conn_Close w conn in
    modify (set_connOpened false) >>
    modify (set_running false) >>
    check err.

(** [func (c *SSHClient) Prefix() (string, int)] *)
Definition SSHClient_Prefix (pal : Palette) (c : SSH.SSHClient) : string * Z :=
  let host := SSH.user c ++ "@" ++ SSH.host c ++ " | " in
  (SSH.color c ++ host ++ ResetColor pal, slen host).

(** [func (c *SSHClient) WriteClose()] *)
Definition SSHClient_WriteClose (w : Sys) : M SSH.SSHClient unit :=
  c <~ get ;;
  stdin <~ deref (SSH.remoteStdin c) ;;
  check (pipe_Close w stdin).

(** [func (c *SSHClient) Signal(sig)] *)
Definition SSHClient_Signal (w : Sys) (sig : Signal) : M SSH.SSHClient unit :=
  c <~ get ;;
  if negb (SSH.sessOpened c) then throw (errorString "session is not open")
  else
    match sig with
    | Interrupt =>
        stdin <~ deref (SSH.remoteStdin c) ;;
        emit (EvWrite stdin (String (ascii_of_nat 3) EmptyString)) >>
        let _ := pipe_Write w stdin (String (ascii_of_nat 3) EmptyString) in
        sess <~ deref (SSH.sess c) ;;
        check (sess_Signal w sess)
    | otherSignal name => throw (errorString (name ++ " not supported"))
    end.

(* ================================================================== *)
(** * localhost.go: the localhost client *)
(* ================================================================== *)

(** Field assignments [c.f = v] on [*LocalhostClient]. *)
Definition lset_cmd (v : option Cmd) (c : Local.LocalhostClient)
  : Local.LocalhostClient :=
  Local.mk v (Local.user c) (Local.stdin c) (Local.stdout c) (Local.stderr c)
    (Local.running c) (Local.env c).

Definition lset_stdin (v : option handle) (c : Local.LocalhostClient)
  : Local.LocalhostClient :=
  Local.mk (Local.cmd c) (Local.user c) v (Local.stdout c) (Local.stderr c)
    (Local.running c) (Local.env c).

Definition lset_stdout (v : option handle) (c : Local.LocalhostClient)
  : Local.LocalhostClient :=
  Local.mk (Local.cmd c) (Local.user c) (Local.stdin c) v (Local.stderr c)
    (Local.running c) (Local.env c).

Definition lset_stderr (v : option handle) (c : Local.LocalhostClient)
  : Local.LocalhostClient :=
  Local.mk (Local.cmd c) (Local.user c) (Local.stdin c) (Local.stdout c) v
    (Local.running c) (Local.env c).

Definition lset_running (v : bool) (c : Local.LocalhostClient)
  : Local.LocalhostClient :=
  Local.mk (Local.cmd c) (Local.user c) (Local.stdin c) (Local.stdout c)
    (Local.stderr c) v (Local.env c).

(** [c.f, err = cmd.Pipe(); if err != nil { return }] *)
Definition lassignPipe
  (set : option handle -> Local.LocalhostClient -> Local.LocalhostClient)
  (r : answer handle) : M Local.LocalhostClient unit :=
  match r with
  | Done p => modify (set (Some p))
  | Fail e => modify (set None) >> throw e
  end.

(** [func (c *LocalhostClient) Run(task *Task)] (localhost.go, lines 33-59).
    [c.cmd] is assigned before the pipes are made and before [Start]; its
    [Process] field is set by a [Start] that succeeds. *)
Definition LocalhostClient_Run (w : Sys) (task : Task)
  : M Local.LocalhostClient unit :=
  c <~ get ;;
  if Local.running c then throw (errorString "Command already running. ")
  else
    let argv := ["bash"; "-c"; Local.env c ++ Run task] in
    modify (lset_cmd (Some (mkCmd argv None))) >>
    lassignPipe lset_stdout (cmd_StdoutPipe w argv) >>
    lassignPipe lset_stderr (cmd_StderrPipe w argv) >>
    lassignPipe lset_stdin (cmd_StdinPipe w argv) >>
    emit (EvExec argv) >>
    match cmd_Start w argv with
    | Fail e => throw (ErrTask task (Error_text w e))
    | Done process =>
        modify (lset_cmd (Some (mkCmd argv (Some process)))) >>
        modify (lset_running true)
    end.

(** [func (c *LocalhostClient) Wait()] (localhost.go, lines 61-68). *)
Definition LocalhostClient_Wait (w : Sys) : M Local.LocalhostClient unit :=
  c <~ get ;;
  if negb (Local.running c) then
    throw (errorString "Trying to wait on stopped command. ")
  else
    cmd <~ deref (Local.cmd c) ;;
    let err := match Process cmd with
               | Some process => cmd_Wait w process
               | None => Some (errorString "exec: not started")
               end in
    modify (lset_running false) >>
    check err.

(** [func (c *LocalhostClient) Close()] *)
Definition LocalhostClient_Close : M Local.LocalhostClient unit := ret tt.

(** [func (c *LocalhostClient) Prefix() (string, int)] *)
Definition LocalhostClient_Prefix (pal : Palette) (c : Local.LocalhostClient)
  : string * Z :=
  let host := Local.user c ++ "@localhost" ++ " | " in
  (ResetColor pal ++ host, slen host).

(** [func (c *LocalhostClient) WriteClose()] *)
Definition LocalhostClient_WriteClose (w : Sys) : M Local.LocalhostClient unit :=
  c <~ get ;;
  stdin <~ deref (Local.stdin c) ;;
  check (pipe_Close w stdin).

(** [func (c *LocalhostClient) Signal(sig)] (localhost.go, lines 99-101):
    [return c.cmd.Process.Signal(sig)].  The source has no guard: a nil
    [c.cmd] panics when [.Process] is read, and a nil [Process] panics
    inside the [Signal] method of [os.Process], which reads the fields of
    its receiver. *)
Definition LocalhostClient_Signal (w : Sys) (sig : Signal)
  : M Local.LocalhostClient unit :=
  c <~ get ;;
  cmd <~ deref (Local.cmd c) ;;
  process <~ deref (Process cmd) ;;
  emit (EvSignal process sig) >>
  check (process_Signal w process sig).

(* ================================================================== *)
(** * The [Client] interface *)
(* ================================================================== *)

(** A method of [*LocalhostClient] or [*SSHClient] seen through the
    interface. *)
Definition dispatch {A : Type} (local : M Local.LocalhostClient A)
  (remote : M SSH.SSHClient A) : M ClientObj A :=
  fun o =>
    match o with
    | LocalClient c =>
        match local c with (c', tr, r) => (LocalClient c', tr, r) end
    | RemoteClient c =>
        match remote c with (c', tr, r) => (RemoteClient c', tr, r) end
    end.

Definition Client_Run (w : Sys) (task : Task) : M ClientObj unit :=
  dispatch (LocalhostClient_Run w task) (SSHClient_Run w task).

Definition Client_Wait (w : Sys) : M ClientObj unit :=
  dispatch (LocalhostClient_Wait w) (SSHClient_Wait w).

Definition Client_Close (w : Sys) : M ClientObj unit :=
  dispatch LocalhostClient_Close (SSHClient_Close w).

Definition Client_Signal (w : Sys) (sig : Signal) : M ClientObj unit :=
  dispatch (LocalhostClient_Signal w sig) (SSHClient_Signal w sig).

Definition Client_WriteClose (w : Sys) : M ClientObj unit :=
  dispatch (LocalhostClient_WriteClose w) (SSHClient_WriteClose w).

Definition Client_Prefix (pal : Palette) (o : ClientObj) : string * Z :=
  match o with
  | LocalClient c => LocalhostClient_Prefix pal c
  | RemoteClient c => SSHClient_Prefix pal c
  end.

(* ================================================================== *)
(** * task.go: running a task *)
(* ================================================================== *)

(** [func (t *Task) formatClientPrefix(c Client, len int)] *)
Definition formatClientPrefix (pal : Palette) (o : ClientObj) (len_ : Z)
  : string :=
  let (p, _) := Client_Prefix pal o in
  padLeft len_ p.

(** The prefix [Task.do] computes for one client (task.go, lines 207-214). *)
Definition doPrefix (pal : Palette) (onPrefix : bool) (maxLen : Z)
  (o : ClientObj) : result string :=
  if onPrefix then
    let (prefix, prefixLen) := Client_Prefix pal o in
    if slen prefix <? maxLen then (* Left padding. *)
      pad <- Repeat " " (maxLen - prefixLen) ;;
      Ok (pad ++ prefix)
    else Ok prefix
  else Ok "".

(** A pure computation inside a method. *)
Definition liftR {St A : Type} (r : result A) : M St A :=
  fun s => (s, [], r).

(** The launch loop of [Task.do] (task.go, lines 206-243).  The two pumps
    started for a client copy its stdout and its stderr to the controller's,
    putting [prefix] in front of every line: one [EvPump] each. *)
Fixpoint launch (w : Sys) (pal : Palette) (t : Task) (onPrefix : bool)
  (maxLen : Z) (clients : list Client) : M Heap unit :=
  match clients with
  | [] => ret tt
  | c :: rest =>
      prefix <~ onClient c (o <~ get ;; liftR (doPrefix pal onPrefix maxLen o)) ;;
      (fun h =>
         match onClient c (Client_Run w t) h with
         | (h', tr, Error err) =>
             (h', tr, Error (wrapped err (prefix ++ "task failed")))
         | other => other
         end) >>
      emit (EvPump false c prefix) >>
      emit (EvPump true c prefix) >>
      launch w pal t onPrefix maxLen rest
  end.

(** The body of the goroutine [clientsFinish] starts for one client
    (task.go, lines 321-352). *)
Definition clientFinish (w : Sys) (pal : Palette) (onPrefix : bool) (len_ : Z)
  : M ClientObj unit :=
  fun o =>
    match Client_Wait w o with
    | (o', tr, Error err) =>
        let prefix := if onPrefix then formatClientPrefix pal o' len_ else "" in
        match err with
        | ExitError status =>
            if negb (status =? 15) then
              (o', (tr ++ [EvStderr prefix err])%list, Exit status)
            else
              (o', (tr ++ [EvStderr prefix err])%list, Exit 1)
        | _ => (o', (tr ++ [EvStderr prefix err])%list, Exit 1)
        end
    | other => other
    end.

(** [func (t *Task) clientsFinish(onPrefix, len)] (task.go, lines 316-356).
    The goroutines touch one client each and the first [os.Exit] ends the
    process; the model runs them in the order of [t.Clients]. *)
Fixpoint clientsFinish (w : Sys) (pal : Palette) (onPrefix : bool) (len_ : Z)
  (clients : list Client) : M Heap unit :=
  match clients with
  | [] => ret tt
  | c :: rest =>
      onClient c (clientFinish w pal onPrefix len_) >>
      clientsFinish w pal onPrefix len_ rest
  end.

(** [func (t *Task) do(onPrefix, maxLen)] (task.go, lines 201-265).  The
    stdin fan-in and the signal forwarding run in goroutines [do] does not
    wait for; they are not part of what [do] returns. *)
Definition Task_do (w : Sys) (pal : Palette) (t : Task) (onPrefix : bool)
  (maxLen : Z) : M Heap unit :=
  launch w pal t onPrefix maxLen (Clients t) >>
  clientsFinish w pal onPrefix maxLen (Clients t).

(* ================================================================== *)
(** * sup.go: the engine *)
(* ================================================================== *)

(** Modelled from the spec: [EnvList.AsExport] (supfile.go) is not among
    the sources; section 4.G builds the env prelude "by concatenating
    [export K="V";] for every resolved env-list entry". *)
Fixpoint AsExport (e : EnvList) : string :=
  match e with
  | [] => ""
  | v :: rest =>
      "export " ++ Key v ++ "=" ++ dquote ++ Value v ++ dquote ++ ";"
      ++ AsExport rest
  end.

(** Modelled from the spec: [EnvList.Set] (supfile.go) is not among the
    sources; it overrides the value of a key already in the list (section 6:
    [-e KEY=VAL] "overrides Supfile env") and appends a new key. *)
Fixpoint EnvList_Set (e : EnvList) (key value : string) : EnvList :=
  match e with
  | [] => [mkEnvVar key value]
  | v :: rest =>
      if String.eqb (Key v) key then mkEnvVar key value :: rest
      else v :: EnvList_Set rest key value
  end.

(** [func (sup *Stackup) networkHost(...)] (sup.go, lines 345-386), the
    goroutine started for one host: [Ok] is what it sends on [clientCh],
    [Error] what it sends on [errCh]. *)
Definition networkHost (w : Sys) (pal : Palette) (bastion : option SSH.SSHClient)
  (host env : string) (i : Z) (sshConfigHosts : list SSHHost) : M Heap Client :=
  if String.eqb host "localhost" then
    (* Localhost client. *)
    let local := Local.mk None "" None None None false
                          (env ++ exportSupHost host) in
    match LocalhostClient_Connect w local with
    | (_, Some err) => throw (wrapped err "connecting to localhost failed")
    | (local, None) =>
        fun h => match alloc h (LocalClient local) with
                 | (h', c) => (h', [], Ok c)
                 end
    end
  else
    (* SSH client. *)
    match NewSSHClient w pal host env i sshConfigHosts with
    | (_, Error err) => throw (wrapped err "create new ssh client")
    | (_, Panic m) => panic m
    | (_, Exit code) => fun h => (h, [], Exit code)
    | (remote, Ok _) =>
        let '(d, msg) :=
          match bastion with
          | Some b => (DialThrough b,
                       "connecting to remote host through bastion failed")
          | None => (sshDial, "connecting to remote host failed")
          end in
        fun h =>
          match SSHClient_ConnectWith w d remote with
          | (remote, tr, Ok _) =>
              match alloc h (RemoteClient remote) with
              | (h', c) => (h', tr, Ok c)
              end
          | (_, tr, Error err) => (h, tr, Error (wrapped err msg))
          | (_, tr, Panic m) => (h, tr, Panic m)
          | (_, tr, Exit code) => (h, tr, Exit code)
          end
    end.

(** The goroutines of [Run], one per host, numbered from [i + 1]
    (sup.go, lines 276-285), and what the two channels hold after
    [wg.Wait()].  The model takes the hosts in order. *)
Fixpoint connectHosts (w : Sys) (pal : Palette) (bastion : option SSH.SSHClient)
  (env : string) (sshConfigHosts : list SSHHost) (i : Z) (hosts : list string)
  : M Heap (list Client * list error) :=
  match hosts with
  | [] => ret ([], [])
  | host :: rest =>
      fun h =>
        match networkHost w pal bastion host env (i + 1) sshConfigHosts h with
        | (h', tr, r) =>
            match r with
            | Panic m => (h', tr, Panic m)
            | Exit code => (h', tr, Exit code)
            | _ =>
                match connectHosts w pal bastion env sshConfigHosts
                                   (i + 1) rest h' with
                | (h'', tr', Ok (clients, errs)) =>
                    (h'', (tr ++ tr')%list,
                     match r with
                     | Ok c => Ok (c :: clients, errs)
                     | Error e => Ok (clients, e :: errs)
                     | _ => Ok (clients, errs)
                     end)
                | (h'', tr', Error e) => (h'', (tr ++ tr')%list, Error e)
                | (h'', tr', Panic m) => (h'', (tr ++ tr')%list, Panic m)
                | (h'', tr', Exit code) => (h'', (tr ++ tr')%list, Exit code)
                end
            end
        end
  end.

(** [maxLen] after the loop over [clientCh] (sup.go, lines 287-304). *)
Fixpoint maxPrefixLen (pal : Palette) (h : Heap) (clients : list Client)
  (maxLen : Z) : Z :=
  match clients with
  | [] => maxLen
  | client :: rest =>
      let prefixLen := match load h client with
                       | Some o => snd (Client_Prefix pal o)
                       | None => 0
                       end in
      maxPrefixLen pal h rest (if prefixLen >? maxLen then prefixLen else maxLen)
  end.

(** [deferRemoteClose]: the clients that are [*SSHClient]. *)
Definition isRemote (h : Heap) (c : Client) : bool :=
  match load h c with
  | Some (RemoteClient _) => true
  | _ => false
  end.

(** The deferred function of [Run] (sup.go, lines 306-312). *)
Fixpoint closeAll (w : Sys) (deferRemoteClose : list Client) (err : option error)
  : M Heap (option error) :=
  match deferRemoteClose with
  | [] => ret err
  | r :: rest =>
      fun h =>
        match onClient r (Client_Close w) h with
        | (h', tr, Ok _) =>
            match closeAll w rest err h' with
            | (h'', tr', res) => (h'', (tr ++ tr')%list, res)
            end
        | (h', tr, Error derr) =>
            match closeAll w rest (Some (multierror_Append err derr)) h' with
            | (h'', tr', res) => (h'', (tr ++ tr')%list, res)
            end
        | (h', tr, Panic m) => (h', tr, Panic m)
        | (h', tr, Exit code) => (h', tr, Exit code)
        end
  end.

(** [for _, task := range tasks { if err = task.do(...); err != nil { return } }] *)
Fixpoint doTasks (w : Sys) (pal : Palette) (onPrefix : bool) (maxLen : Z)
  (tasks : list Task) : M Heap unit :=
  match tasks with
  | [] => ret tt
  | task :: rest =>
      Task_do w pal task onPrefix maxLen >>
      doTasks w pal onPrefix maxLen rest
  end.

(** One call of [createTasks] made by [Run]: a record kept beside the
    events, for stating what the engine hands to the task builder. *)
Record CreateCall : Type := mkCreateCall {
  call_cmd : Command;
  call_clients : list Client;
  call_result : result (list Task)
}.

(** The loop over [commands] (sup.go, lines 318-332). *)
Fixpoint runCommands (w : Sys) (pal : Palette) (sup : Stackup)
  (clients : list Client) (env : string) (maxLen : Z)
  (commands : list Command) (h : Heap)
  : Heap * list event * list CreateCall * result unit :=
  match commands with
  | [] => (h, [], [], Ok tt)
  | cmd :: rest =>
      match createTasks w sup cmd clients env h with
      | (h1, r) =>
          let this := mkCreateCall cmd clients r in
          match r with
          | Ok tasks =>
              match doTasks w pal (prefix sup) maxLen tasks h1 with
              | (h2, tr, Ok _) =>
                  match runCommands w pal sup clients env maxLen rest h2 with
                  | (h3, tr', calls, r') =>
                      (h3, (tr ++ tr')%list, this :: calls, r')
                  end
              | (h2, tr, Error e) => (h2, tr, [this], Error e)
              | (h2, tr, Panic m) => (h2, tr, [this], Panic m)
              | (h2, tr, Exit code) => (h2, tr, [this], Exit code)
              end
          | Error e => (h1, [], [this], Error (wrapped e "creating task failed"))
          | Panic m => (h1, [], [this], Panic m)
          | Exit code => (h1, [], [this], Exit code)
          end
      end
  end.

(** The bastion of [Run] (sup.go, lines 261-270). *)
Definition connectBastion (w : Sys) (pal : Palette) (network : Network)
  (sshConfigHosts : list SSHHost) : list event * result (option SSH.SSHClient) :=
  if negb (String.eqb (Bastion network) "") then
    match NewSSHClient w pal (Bastion network) "bastion" 0 sshConfigHosts with
    | (_, Error err) => ([], Error (wrapped err "create bastion"))
    | (_, Panic m) => ([], Panic m)
    | (_, Exit code) => ([], Exit code)
    | (bastion, Ok _) =>
        match SSHClient_Connect w bastion with
        | (bastion, tr, Ok _) => (tr, Ok (Some bastion))
        | (_, tr, Error err) =>
            (tr, Error (wrapped err "connecting to bastion failed"))
        | (_, tr, Panic m) => (tr, Panic m)
        | (_, tr, Exit code) => (tr, Exit code)
        end
    end
  else ([], Ok None).

(** [func (sup *Stackup) Run(sshConfigHosts, network, envVars, commands...)]
    (sup.go, lines 253-335).  The deferred closing of the SSH clients runs
    when the body returns or panics, not when the process exits. *)
Definition Stackup_Run (w : Sys) (pal : Palette) (sup : Stackup)
  (sshConfigHosts : list SSHHost) (network : Network) (envVars : EnvList)
  (commands : list Command) (h : Heap)
  : Heap * list event * list CreateCall * result unit :=
  if len commands =? 0 then
    (h, [], [], Error (errorString "no commands to be run"))
  else
    let env := AsExport envVars in
    match connectBastion w pal network sshConfigHosts with
    | (tr0, Error e) => (h, tr0, [], Error e)
    | (tr0, Panic m) => (h, tr0, [], Panic m)
    | (tr0, Exit code) => (h, tr0, [], Exit code)
    | (tr0, Ok bastion) =>
        match connectHosts w pal bastion env sshConfigHosts 0
                           (Hosts network) h with
        | (h1, tr1, Error e) => (h1, (tr0 ++ tr1)%list, [], Error e)
        | (h1, tr1, Panic m) => (h1, (tr0 ++ tr1)%list, [], Panic m)
        | (h1, tr1, Exit code) => (h1, (tr0 ++ tr1)%list, [], Exit code)
        | (h1, tr1, Ok (clients, errs)) =>
            let maxLen := maxPrefixLen pal h1 clients 0 in
            let deferRemoteClose := filter (isRemote h1) clients in
            let '(h2, tr2, calls, r) :=
              match errs with
              | err :: _ =>
                  (h1, [], [], Error (wrapped err "connecting to clients failed"))
              | [] => runCommands w pal sup clients env maxLen commands h1
              end in
            match r with
            | Exit code => (h2, (tr0 ++ tr1 ++ tr2)%list, calls, Exit code)
            | _ =>
                let err := match r with Error e => Some e | _ => None end in
                match closeAll w deferRemoteClose err h2 with
                | (h3, tr3, res) =>
                    (h3, (tr0 ++ tr1 ++ tr2 ++ tr3)%list, calls,
                     match r, res with
                     | Panic m, _ => Panic m
                     | _, Ok None => Ok tt
                     | _, Ok (Some e) => Error e
                     | _, Error e => Error e
                     | _, Panic m => Panic m
                     | _, Exit code => Exit code
                     end)
                end
            end
        end
    end.

(* ================================================================== *)
(** * cmd/sup/main.go: the command line *)
(* ================================================================== *)

(** The package variables [flag.Parse()] fills, and [flag.Args()]. *)
Record Flags : Type := mkFlags {
  supfile : string;
  envVars : list string;
  sshConfig : string;
  onlyHosts : string;
  exceptHosts : string;
  fdebug : bool;
  disablePrefix : bool;
  showVersion : bool;
  showHelp : bool;
  Args_ : list string
}.

Definition ErrUsage : error :=
  errorString "Usage: sup [OPTIONS] NETWORK COMMAND [...]
       sup [ --help | -v | --version ]".
Definition ErrUnknownNetwork : error := errorString "Unknown network".
Definition ErrNetworkNoHosts : error :=
  errorString "No hosts defined for a given network".
Definition ErrCmd : error := errorString "Unknown command/target".

(** Modelled from the spec: the [Get] methods of [Networks], [Commands]
    and [Targets] (supfile.go) are not among the sources; they look a name
    up. *)
Fixpoint Get {A : Type} (m : list (string * A)) (name : string) : option A :=
  match m with
  | [] => None
  | (k, v) :: rest => if String.eqb k name then Some v else Get rest name
  end.

Definition withEnv (network : Network) (e : EnvList) : Network :=
  mkNetwork e (Inventory network) (Hosts network) (Bastion network).

Definition withHosts (network : Network) (hosts : list string) : Network :=
  mkNetwork (NEnv network) (Inventory network) hosts (Bastion network).

Definition withName (command : Command) (name : string) : Command :=
  mkCommand name (Desc command) (CLocal command) (CRun command)
            (Script command) (CUpload command) (Stdin command) (Once command)
            (Serial command).

(** The loop of [parseArgs] and of [main] over the [-e] flags: [set] is
    called with the key and the value of each of them. *)
Fixpoint cliEnv (envs : list string) (e : EnvList) : EnvList :=
  match envs with
  | [] => e
  | env :: rest =>
      if slen env =? 0 then cliEnv rest e
      else
        let i := Index env "=" in
        if i <? 0 then cliEnv rest (EnvList_Set e env "")
        else cliEnv rest (EnvList_Set e (sslice env 0 i)
                                      (sslice env (i + 1) (slen env)))
  end.

(** The table [networkUsage] prints on stderr, or the table of
    [cmdUsage]. *)
Definition usage (commands : bool) : event := EvUsage commands.

(** [fmt.Errorf("%v: %v", ErrCmd, name)] *)
Definition errCmd (name : string) : error :=
  errorString ("Unknown command/target" ++ ": " ++ name).

(** The commands of one target (main.go, lines 195-204). *)
Fixpoint targetCommands (conf : Supfile) (target : list string)
  (commands : list Command) : list event * result (list Command) :=
  match target with
  | [] => ([], Ok commands)
  | cmdTarget :: rest =>
      match Get (Commands conf) cmdTarget with
      | None => ([usage true], Error (errCmd cmdTarget))
      | Some command =>
          targetCommands conf rest
            (commands ++ [withName command cmdTarget])%list
      end
  end.

(** The loop over [args[1:]] (main.go, lines 190-218). *)
Fixpoint argCommands (conf : Supfile) (args : list string)
  (commands : list Command) : list event * result (list Command) :=
  match args with
  | [] => ([], Ok commands)
  | cmd :: rest =>
      let target := Get (Targets conf) cmd in
      (* Target? *)
      match
        match target with
        | Some target => targetCommands conf target commands
        | None => ([], Ok commands)
        end
      with
      | (tr, Ok commands) =>
          (* Command? *)
          let command := Get (Commands conf) cmd in
          let commands := match command with
                          | Some command =>
                              (commands ++ [withName command cmd])%list
                          | None => commands
                          end in
          match target, command with
          | None, None => ((tr ++ [usage true])%list, Error (errCmd cmd))
          | _, _ =>
              match argCommands conf rest commands with
              | (tr', r) => ((tr ++ tr')%list, r)
              end
          end
      | other => other
      end
  end.

(** [func parseArgs(conf) (network, commands, err)] (main.go, lines 111-221).
    The second component is [Error err] when [err] is not nil. *)
Definition parseArgs (w : Sys) (fl : Flags) (conf : Supfile)
  : list event * result (Network * list Command) :=
  match Args_ fl with
  | [] => ([usage false], Error ErrUsage)
  | arg0 :: args1 =>
      (* Does the <network> exist? *)
      match Get (Networks conf) arg0 with
      | None => ([usage false], Error ErrUnknownNetwork)
      | Some network =>
          (* Parse CLI --env flag env vars *)
          let network := withEnv network (cliEnv (envVars fl) (NEnv network)) in
          (* Inventory *)
          match ParseInventory w network with
          | Fail err => ([], Error err)
          | Done hosts =>
              let network := withHosts network (Hosts network ++ hosts)%list in
              (* Does the <network> have at least one host? *)
              if len (Hosts network) =? 0 then
                ([usage false], Error ErrNetworkNoHosts)
              else
                (* Check for the second argument *)
                if len (Args_ fl) <? 2 then ([usage true], Error ErrUsage)
                else
                  let e := EnvList_Set (NEnv network) "SUP_NETWORK" arg0 in
                  let e := EnvList_Set e "SUP_TIME" (time_Now w) in
                  let e := if negb (String.eqb (os_Getenv w "SUP_TIME") "")
                           then EnvList_Set e "SUP_TIME" (os_Getenv w "SUP_TIME")
                           else e in
                  let e := if negb (String.eqb (os_Getenv w "SUP_USER") "")
                           then EnvList_Set e "SUP_USER" (os_Getenv w "SUP_USER")
                           else EnvList_Set e "SUP_USER" (os_Getenv w "USER") in
                  let network := withEnv network e in
                  match argCommands conf args1 [] with
                  | (tr, Ok commands) => (tr, Ok (network, commands))
                  | (tr, Error err) => (tr, Error err)
                  | (tr, Panic m) => (tr, Panic m)
                  | (tr, Exit code) => (tr, Exit code)
                  end
          end
      end
  end.

(** [func resolvePath(path)] (main.go, lines 223-234); [path[:2]] panics on
    a path of one byte. *)
Definition resolvePath (w : Sys) (path : string) : result string :=
  if String.eqb path "" then Ok ""
  else if slen path <? 2 then Panic "slice bounds out of range"
  else if String.eqb (sslice path 0 2) "~/" then
    match user_Current w with
    | Done usr => Ok (filepath_Join w [HomeDir usr; sslice path 2 (slen path)])
    | Fail _ => Ok path
    end
  else Ok path.

(** The [--only] and [--except] filters of [main] (main.go, lines 286-325):
    the hosts kept, or the error printed before [os.Exit(1)]. *)
Definition filterHosts (w : Sys) (expr : string) (keep : bool) (msg : string)
  (hosts : list string) : result (list string) :=
  if negb (String.eqb expr "") then
    match regexp_CompilePOSIX w expr with
    | Fail err => Error err
    | Done re =>
        let hosts' := filter (fun host =>
                                Bool.eqb (regexp_MatchString w re host) keep)
                             hosts in
        if len hosts' =? 0 then Error (errorString msg) else Ok hosts'
    end
  else Ok hosts.

(** [vars.Set(val.Key, val.Value)] for every entry of a list. *)
Fixpoint setAll (vars : EnvList) (vals : EnvList) : EnvList :=
  match vals with
  | [] => vars
  | val :: rest => setAll (EnvList_Set vars (Key val) (Value val)) rest
  end.

(** [cliVars] (main.go, lines 348-362): the [-e] flags of the form
    [KEY=VAL]. *)
Fixpoint cliVarsOf (envs : list string) (cliVars : EnvList) : EnvList :=
  match envs with
  | [] => cliVars
  | env :: rest =>
      if slen env =? 0 then cliVarsOf rest cliVars
      else
        let i := Index env "=" in
        if i <? 0 then cliVarsOf rest cliVars
        else cliVarsOf rest (EnvList_Set cliVars (sslice env 0 i)
                                         (sslice env (i + 1) (slen env)))
  end.

(** [supEnv] (main.go, lines 366-369). *)
Fixpoint supEnvOf (w : Sys) (cliVars : EnvList) : string :=
  match cliVars with
  | [] => ""
  | v :: rest => " -e " ++ Key v ++ "=" ++ fmt_q w (Value v) ++ supEnvOf w rest
  end.

(** [strings.TrimSpace(supEnv)]: [supEnv] is empty or starts with the one
    space of its first fragment, and ends with the quote of [%q]. *)
Definition trimSupEnv (s : string) : string :=
  match s with
  | String " "%char rest => rest
  | _ => s
  end.

(** [fmt.Fprintln(os.Stderr, err); os.Exit(1)] *)
Definition die {A : Type} (tr : list event) (err : error)
  : list event * list CreateCall * result A :=
  ((tr ++ [EvStderr "" err])%list, [], Exit 1).

(** [main] from the [--sshconfig] flag on (main.go, lines 327-386). *)
Definition mainRun (w : Sys) (pal : Palette) (fl : Flags) (conf : Supfile)
  (network : Network) (commands : list Command) (tr : list event)
  : list event * list CreateCall * result unit :=
  let sshConfig := if String.eqb (sshConfig fl) ""
                   then filepath_Join w [os_Getenv w "HOME"; ".ssh"; "config"]
                   else sshConfig fl in
  match resolvePath w sshConfig with
  | Panic m => (tr, [], Panic m)
  | Error err => die tr err
  | Exit code => (tr, [], Exit code)
  | Ok path =>
      match sshconfig_Parse w path with
      | Fail err => die tr err
      | Done sshConfigHosts =>
          let vars := setAll [] (SEnv conf ++ NEnv network)%list in
          match ResolveValues w vars with
          | Fail err => die tr err
          | Done vars =>
              (* Parse CLI --env flag env vars, define $SUP_ENV *)
              let vars := cliEnv (envVars fl) vars in
              let cliVars := cliVarsOf (envVars fl) [] in
              let vars := EnvList_Set vars "SUP_ENV"
                                      (trimSupEnv (supEnvOf w cliVars)) in
              (* Create new Stackup app. *)
              let app := mkStackup (fdebug fl) (negb (disablePrefix fl)) in
              (* Run all the commands in the given network. *)
              match Stackup_Run w pal app sshConfigHosts network vars
                                commands [] with
              | (_, tr', calls, Error err) =>
                  ((tr ++ tr' ++ [EvStderr "" err])%list, calls, Exit 1)
              | (_, tr', calls, r) => ((tr ++ tr')%list, calls, r)
              end
          end
      end
  end.

(** The two attempts of [main] at reading the Supfile (main.go, lines
    257-269): the data, or the errors printed before [os.Exit(1)]. *)
Definition readSupfile (w : Sys) (path : string) : string + list error :=
  match ioutil_ReadFile w path with
  | Done data => inl data
  | Fail firstErr =>
      match ioutil_ReadFile w "./Supfile.yml" with
      | Done data => inl data
      | Fail err => inr [firstErr; err]
      end
  end.

(** [main] once the Supfile is read (main.go, lines 276-386). *)
Definition mainConf (w : Sys) (pal : Palette) (fl : Flags) (conf : Supfile)
  : list event * list CreateCall * result unit :=
  (* Parse network and commands to be run from args. *)
  match parseArgs w fl conf with
  | (tr, Error err) => die tr err
  | (tr, Panic m) => (tr, [], Panic m)
  | (tr, Exit code) => (tr, [], Exit code)
  | (tr, Ok (network, commands)) =>
      (* --only flag filters hosts *)
      match filterHosts w (onlyHosts fl) true
              ("no hosts match --only '" ++ onlyHosts fl ++ "' regexp")
              (Hosts network) with
      | Error err => die tr err
      | Panic m => (tr, [], Panic m)
      | Exit code => (tr, [], Exit code)
      | Ok hosts =>
          (* --except flag filters out hosts *)
          match filterHosts w (exceptHosts fl) false
                  ("no hosts left after --except '" ++ onlyHosts fl
                   ++ "' regexp") hosts with
          | Error err => die tr err
          | Panic m => (tr, [], Panic m)
          | Exit code => (tr, [], Exit code)
          | Ok hosts =>
              mainRun w pal fl conf (withHosts network hosts) commands tr
          end
      end
  end.

(** [const VERSION] (sup.go). *)
Definition VERSION : string := "0.5".

(** [func main()] (main.go, lines 236-387), after [flag.Parse()]: the
    events of the process, the calls of [createTasks] it makes, and how it
    ends ([Ok tt]: [main] returns, exit status 0). *)
Definition main (w : Sys) (pal : Palette) (fl : Flags)
  : list event * list CreateCall * result unit :=
  if showHelp fl then ([EvStderr "" ErrUsage; EvPrint "Options:"], [], Ok tt)
  else if showVersion fl then ([EvPrint VERSION], [], Ok tt)
  else
    let supfile := if String.eqb (supfile fl) "" then "./Supfile"
                   else supfile fl in
    match resolvePath w supfile with
    | Panic m => ([], [], Panic m)
    | Error err => die [] err
    | Exit code => ([], [], Exit code)
    | Ok path =>
        match readSupfile w path with
        | inr errs => (map (EvStderr "") errs, [], Exit 1)
        | inl data =>
            match NewSupfile w data with
            | Fail err => die [] err
            | Done conf => mainConf w pal fl conf
            end
        end
    end.

(* ================================================================== *)
(** * Concrete instances *)
(* ================================================================== *)

(** The escape byte of the ANSI colour sequences. *)
Definition esc : string := String (ascii_of_nat 27) EmptyString.

(** A colour table of ANSI sequences: green, yellow, cyan; reset. *)
Definition ansi : Palette :=
  mkPalette (esc ++ "[32m") [esc ++ "[33m"; esc ++ "[36m"] (esc ++ "[0m").

(** An operating system where every call succeeds, but for the answers
    given: of [user.Current()], of [sess.Wait()], of [sess.Close()] and of
    [cmd.Start()]; the Supfile read is [conf]. *)
Definition world (current : answer OsUser) (waited closed : option error)
  (started : answer handle) (conf : Supfile) : Sys := {|
  os_Getwd := Done "/work";
  os_Getenv := fun _ => "";
  user_Current := current;
  exec_Output := fun _ _ => Done "./dist";
  tar_StdoutPipe := fun _ _ _ => Done tt;
  tar_Start := fun _ _ _ => Done tt;
  os_Open := fun _ => Done 3%nat;
  ioutil_ReadAll := fun _ => Done "uptime";
  ioutil_ReadFile := fun _ => Done "";
  ssh_ParsePrivateKey := fun _ => Done "key";
  ssh_Dial := fun _ _ _ => Done 1%nat;
  conn_NewSession := fun _ => Done 2%nat;
  conn_Close := fun _ => None;
  sess_RequestPty := fun _ => Done tt;
  sess_StdinPipe := fun _ => Done 10%nat;
  sess_StdoutPipe := fun _ => Done 11%nat;
  sess_StderrPipe := fun _ => Done 12%nat;
  sess_Start := fun _ _ => None;
  sess_Wait := fun _ => waited;
  sess_Signal := fun _ => None;
  sess_Close := fun _ => closed;
  io_Copy := fun _ _ => None;
  pipe_Write := fun _ _ => None;
  pipe_Close := fun _ => None;
  cmd_StdoutPipe := fun _ => Done 21%nat;
  cmd_StderrPipe := fun _ => Done 22%nat;
  cmd_StdinPipe := fun _ => Done 20%nat;
  cmd_Start := fun _ => started;
  cmd_Wait := fun _ => None;
  process_Signal := fun _ _ => None;
  Error_text := fun _ => "error";
  NewSupfile := fun _ => Done conf;
  ParseInventory := fun _ => Done [];
  ResolveValues := fun e => Done e;
  sshconfig_Parse := fun _ => Done [];
  regexp_CompilePOSIX := fun _ => Done 0%nat;
  regexp_MatchString := fun _ _ => true;
  time_Now := "2020-01-01T00:00:00Z";
  filepath_Join := String.concat "/";
  fmt_q := fun s => dquote ++ s ++ dquote
|}.

Definition deploy : OsUser := mkOsUser "deploy" "/home/deploy".

(** A remote command run two hosts at a time, and the same run once. *)
Definition restart : Command :=
  mkCommand "restart" "" "" "sudo docker restart example" "" [] false false 2.

Definition build : Command :=
  mkCommand "build" "" "" "sudo docker build ." "" [] false true 2.

(** A Supfile with the network [prod] of three hosts and the two
    commands; the same with a network [prod] of no host. *)
Definition prod : Supfile :=
  mkSupfile [("prod", mkNetwork [] "" ["h1"; "h2"; "h3"] "")]
            [("restart", restart); ("build", build)] [] [] "0.5".

Definition emptyProd : Supfile :=
  mkSupfile [("prod", mkNetwork [] "" [] "")] [("build", build)] [] [] "0.5".

Definition calm : Sys := world (Done deploy) None None (Done 7%nat) prod.

(** Three clients, by their addresses in the heap. *)
Definition three : list Client := [0%nat; 1%nat; 2%nat].

(** A remote body, not bound to clients yet. *)
Definition body : Task := mkTask "sudo docker restart example" None [] true.

(** A connected SSH client, idle; and the same in the middle of a task. *)
Definition idle (user host env color : string) : SSH.SSHClient :=
  SSH.mk (Some 1%nat) None user host None None None true false false env
         color None.

Definition busy (user host env color : string) : SSH.SSHClient :=
  SSH.mk (Some 1%nat) (Some 2%nat) user host (Some 10%nat) (Some 11%nat)
         (Some 12%nat) true true true env color None.

(** A remote command killed by a signal: [sess.Wait()] answers with exit
    status 15. *)
Definition killed : Sys :=
  world (Done deploy) (Some (ExitError 15)) None (Done 7%nat) prod.

(** A remote command that fails with exit status 7. *)
Definition failed7 : Sys :=
  world (Done deploy) (Some (ExitError 7)) None (Done 7%nat) prod.

(** A session that cannot be closed any more. *)
Definition stale : Sys :=
  world (Done deploy) None (Some (errorString "EOF")) (Done 7%nat) prod.

(** A machine without [bash]. *)
Definition noBash : Sys :=
  world (Done deploy) None None (Fail (errorString "exec: not found")) prod.

(** A process whose user cannot be looked up. *)
Definition noUser : Sys :=
  world (Fail (errorString "user: Current requires cgo or $USER"))
        None None (Done 7%nat) prod.

(** The client of host h1, in the middle of a task. *)
Definition h1busy : ClientObj :=
  RemoteClient (busy "u" "h1:22" "" (esc ++ "[32m")).

(** Two connected hosts whose names differ in length by one byte. *)
Definition h1 : SSH.SSHClient := idle "u" "h1:22" "" (esc ++ "[32m").
Definition h22 : SSH.SSHClient := idle "u" "h22:22" "" (esc ++ "[33m").
Definition twoHosts : Heap := [RemoteClient h1; RemoteClient h22].

(** An upload whose destination is named by a variable of the env
    prelude. *)
Definition envDeploy : string :=
  "export DEPLOY=" ++ dquote ++ "/srv/app" ++ dquote ++ ";".

Definition uploadTask : Task :=
  mkTask (RemoteTarCommand "$DEPLOY")
         (Some (TarStdout "/work" "./dist" "")) [] false.

Definition target : SSH.SSHClient :=
  idle "deploy" "h1:22" envDeploy (esc ++ "[32m").

(** The number of bytes of a prefix that take a column on a terminal: those
    outside the ANSI sequences, which run from the escape byte to the next
    [m]. *)
Fixpoint displayWidthFrom (inSequence : bool) (s : string) : Z :=
  match s with
  | EmptyString => 0
  | String c s' =>
      if inSequence then displayWidthFrom (negb (Ascii.eqb c "m")) s'
      else if Ascii.eqb c (ascii_of_nat 27) then displayWidthFrom true s'
      else 1 + displayWidthFrom false s'
  end.

Definition displayWidth (s : string) : Z := displayWidthFrom false s.

(** The states of a localhost client before any [Run] has succeeded: the
    struct literals of the source, and what [Connect], a [Run] that fails,
    [Wait], [Close] and [WriteClose] make of such a state. *)
Inductive preRun : Local.LocalhostClient -> Prop :=
| preRun_new (env : string) :
    preRun (Local.mk None "" None None None false env)
| preRun_Connect (w : Sys) (c : Local.LocalhostClient) :
    preRun c -> preRun (fst (LocalhostClient_Connect w c))
| preRun_Run (w : Sys) (task : Task) (c c' : Local.LocalhostClient)
    (tr : list event) (r : result unit) :
    preRun c -> LocalhostClient_Run w task c = (c', tr, r) -> r <> Ok tt ->
    preRun c'
| preRun_Wait (w : Sys) (c : Local.LocalhostClient) :
    preRun c -> preRun (fst (fst (LocalhostClient_Wait w c)))
| preRun_Close (c : Local.LocalhostClient) :
    preRun c -> preRun (fst (fst (LocalhostClient_Close c)))
| preRun_WriteClose (w : Sys) (c : Local.LocalhostClient) :
    preRun c -> preRun (fst (fst (LocalhostClient_WriteClose w c))).

(** The panic of a nil pointer dereference. *)
Definition nilDereference : string :=
  "invalid memory address or nil pointer dereference".

(** The exit code the reap phase gives an error of [Wait]. *)
Definition reapCode (err : error) : Z :=
  match err with
  | ExitError status => if status =? 15 then 1 else status
  | _ => 1
  end.


(** A method that never ends the process by itself. *)
Definition noExit {St A : Type} (m : M St A) : Prop :=
  forall s code, snd (m s) <> Exit code.

(** [n] spaces. *)
Definition spaces (n : Z) : string :=
  String.concat "" (List.repeat " " (Z.to_nat n)).

(* ------------------------------------------------------------------ *)
(** ** Vocabulary of the host strings *)

(** What [parseHost] has of a host string once the [ssh://] schema is
    removed. *)
Definition stripSchema (host : string) : string :=
  if (slen host >? 6) && String.eqb (sslice host 0 6) "ssh://"
  then sslice host 6 (slen host) else host.

(** The portion up to the last [@], when there is one. *)
Definition userPart (host : string) : option string :=
  let host := stripSchema host in
  let at_ := LastIndex host "@" in
  if negb (at_ =? -1) then Some (sslice host 0 at_) else None.

(** What is left of a host string after the schema and the portion up to
    the last [@] are stripped. *)
Definition hostPart (host : string) : string :=
  let host := stripSchema host in
  let at_ := LastIndex host "@" in
  if negb (at_ =? -1) then sslice host (at_ + 1) (slen host) else host.

(** The user a host string names, defaulting to the current one. *)
Definition userOr (current : string) (user : option string) : string :=
  match user with
  | Some u => if String.eqb u "" then current else u
  | None => current
  end.

(** The address a host part stands for: port 22 unless it names one. *)
Definition withPort (host : string) : string :=
  if negb (Contains host ":") then host ++ ":22" else host.

(** A host string written as [[ssh://][user@]host[:port]]. *)
Definition hostString (schema : bool) (user : option string) (hp : string)
  : string :=
  (if schema then "ssh://" else "")
  ++ match user with Some u => u ++ "@" | None => "" end
  ++ hp.

(** The client [NewSSHClient] starts from, parsed. *)
Definition parsedClient (pal : Palette) (i : Z) (user host env : string)
  : SSH.SSHClient :=
  SSH.mk None None user host None None None false false false env
         (colorOf pal i) None.

(* ------------------------------------------------------------------ *)
(** ** Vocabulary of the engine's properties *)

(** A call of [createTasks] that is given at least one client, does not
    panic, and returns tasks bound to at least one client each. *)
Definition soundCall (call : CreateCall) : Prop :=
  call_clients call <> [] /\
  (forall m, call_result call <> Panic m) /\
  (forall ts, call_result call = Ok ts ->
     Forall (fun t => 1 <= len (Clients t)) ts).

(** The command line [sup prod build]. *)
Definition supProdBuild : Flags :=
  mkFlags "" [] "" "" "" false false false false ["prod"; "build"].

(** An ssh-config alias [web] for admin at 10.0.0.5, port 2222. *)
Definition webAlias : SSHHost :=
  mkSSHHost ["web"; "www"] "10.0.0.5" "admin" 2222 "".

(* ================================================================== *)
(** * tar.go: the arguments of the local [tar] *)
(* ================================================================== *)

(** [strings.Split(s, sep)] for a separator [sep] of one byte, the only
    kind the package passes: the pieces of [s] between the occurrences of
    [sep]; a string without [sep], the empty one too, is its own single
    piece. *)
Fixpoint Split (s : string) (sep : ascii) : list string :=
  match s with
  | EmptyString => [""]
  | String c s' =>
      if Ascii.eqb c sep then "" :: Split s' sep
      else match Split s' sep with
           | piece :: rest => String c piece :: rest
           | [] => [String c ""]
           end
  end.

(** [strings.Count(s, sep)] for a separator of one byte. *)
Fixpoint Count (s : string) (sep : ascii) : Z :=
  match s with
  | EmptyString => 0
  | String c s' => (if Ascii.eqb c sep then 1 else 0) + Count s' sep
  end.

Section Tar.

(** [strings.TrimSpace], a function of the Go library. *)
Variable TrimSpace : string -> string.

(** The loop of [LocalTarCmdArgs] over the pieces of [exclude]
    (tar.go, lines 26-32). *)
Fixpoint excludeArgs (excludes : list string) (args : list string)
  : list string :=
  match excludes with
  | [] => args
  | exc :: rest =>
      let trimmed := TrimSpace exc in
      if negb (String.eqb trimmed "")
      then excludeArgs rest (args ++ [("--exclude=" ++ trimmed)%string])%list
      else excludeArgs rest args
  end.

(** [func LocalTarCmdArgs(path, exclude string) []string]
    (tar.go, lines 22-37). *)
Definition LocalTarCmdArgs (path exclude : string) : list string :=
  let args := excludeArgs (Split exclude ",") [] in
  (args ++ ["-C"; "."; "-czf"; "-"; path])%list.

End Tar.

(* ================================================================== *)
(** * Vocabulary of the clients' life cycles *)
(* ================================================================== *)

(** The states an SSH client can be in: what [NewSSHClient] returns, and
    what the methods of the client make of such a state, whatever the
    network answers at each call. *)
Inductive sshReach : SSH.SSHClient -> Prop :=
| sshReach_New (w : Sys) (pal : Palette) (host env : string) (i : Z)
    (cfg : list SSHHost) :
    sshReach (fst (NewSSHClient w pal host env i cfg))
| sshReach_ConnectWith (w : Sys) (d : dialer) (c : SSH.SSHClient) :
    sshReach c -> sshReach (fst (fst (SSHClient_ConnectWith w d c)))
| sshReach_Run (w : Sys) (task : Task) (c : SSH.SSHClient) :
    sshReach c -> sshReach (fst (fst (SSHClient_Run w task c)))
| sshReach_Wait (w : Sys) (c : SSH.SSHClient) :
    sshReach c -> sshReach (fst (fst (SSHClient_Wait w c)))
| sshReach_Close (w : Sys) (c : SSH.SSHClient) :
    sshReach c -> sshReach (fst (fst (SSHClient_Close w c)))
| sshReach_WriteClose (w : Sys) (c : SSH.SSHClient) :
    sshReach c -> sshReach (fst (fst (SSHClient_WriteClose w c)))
| sshReach_Signal (w : Sys) (sig : Signal) (c : SSH.SSHClient) :
    sshReach c -> sshReach (fst (fst (SSHClient_Signal w sig c))).

(** The flags of an SSH client never run ahead of its pointers: an open
    connection has a [conn], an open or running session has a [sess]. *)
Definition sshInv (c : SSH.SSHClient) : Prop :=
  (SSH.connOpened c = true -> SSH.conn c <> None) /\
  (SSH.sessOpened c = true -> SSH.sess c <> None) /\
  (SSH.running c = true -> SSH.sess c <> None).

(** The states a localhost client can be in: the struct literals of the
    source, and what the methods make of such a state. *)
Inductive localReach : Local.LocalhostClient -> Prop :=
| localReach_new (env : string) :
    localReach (Local.mk None "" None None None false env)
| localReach_Connect (w : Sys) (c : Local.LocalhostClient) :
    localReach c -> localReach (fst (LocalhostClient_Connect w c))
| localReach_Run (w : Sys) (task : Task) (c : Local.LocalhostClient) :
    localReach c -> localReach (fst (fst (LocalhostClient_Run w task c)))
| localReach_Wait (w : Sys) (c : Local.LocalhostClient) :
    localReach c -> localReach (fst (fst (LocalhostClient_Wait w c)))
| localReach_Close (c : Local.LocalhostClient) :
    localReach c -> localReach (fst (fst (LocalhostClient_Close c)))
| localReach_WriteClose (w : Sys) (c : Local.LocalhostClient) :
    localReach c -> localReach (fst (fst (LocalhostClient_WriteClose w c)))
| localReach_Signal (w : Sys) (sig : Signal) (c : Local.LocalhostClient) :
    localReach c -> localReach (fst (fst (LocalhostClient_Signal w sig c))).

(** A running localhost client holds its command, the process [Start]
    made and the three pipes. *)
Definition localInv (c : Local.LocalhostClient) : Prop :=
  Local.running c = true ->
  (exists argv process, Local.cmd c = Some (mkCmd argv (Some process))) /\
  Local.stdin c <> None.

(** A host that refuses the pseudo terminal; every other call answers as
    in [calm]. *)
Definition noPty : Sys :=
  mkSys (os_Getwd calm) (os_Getenv calm) (user_Current calm)
    (exec_Output calm) (tar_StdoutPipe calm) (tar_Start calm)
    (os_Open calm) (ioutil_ReadAll calm) (ioutil_ReadFile calm)
    (ssh_ParsePrivateKey calm) (ssh_Dial calm) (conn_NewSession calm)
    (conn_Close calm) (fun _ => Fail (errorString "pty refused"))
    (sess_StdinPipe calm) (sess_StdoutPipe calm)
    (sess_StderrPipe calm) (sess_Start calm) (sess_Wait calm)
    (sess_Signal calm) (sess_Close calm) (io_Copy calm)
    (pipe_Write calm) (pipe_Close calm) (cmd_StdoutPipe calm)
    (cmd_StderrPipe calm) (cmd_StdinPipe calm) (cmd_Start calm)
    (cmd_Wait calm) (process_Signal calm) (Error_text calm)
    (NewSupfile calm) (ParseInventory calm) (ResolveValues calm)
    (sshconfig_Parse calm) (regexp_CompilePOSIX calm)
    (regexp_MatchString calm) (time_Now calm) (filepath_Join calm)
    (fmt_q calm).

(** A command that succeeds on a session whose closing fails with an
    error that is not [io.EOF]. *)
Definition brokenClose : Sys :=
  world (Done deploy) None
        (Some (errorString "use of closed network connection"))
        (Done 7%nat) prod.

(* ================================================================== *)
(** * Vocabulary of the traces *)
(* ================================================================== *)

(** Every event of a method satisfies [P], whatever the state it is
    called on. *)
Definition emits {St A : Type} (P : event -> Prop) (m : M St A) : Prop :=
  forall s, Forall P (snd (fst (m s))).

(** The dialler [networkHost] gives [ConnectWith]: the [DialThrough] of
    the bastion when there is one, [ssh.Dial] otherwise. *)
Definition dialerOf (bastion : option SSH.SSHClient) : dialer :=
  match bastion with
  | Some b => DialThrough b
  | None => sshDial
  end.

(** The event is a call of the dialler [d]. *)
Definition dialsWith (d : dialer) (ev : event) : Prop :=
  exists addr user auth, ev = EvDial d addr user auth.

(** The event is something a method of a client does on its session or
    its process. *)
Definition methodEvent (ev : event) : Prop :=
  match ev with
  | EvRequestPty _ _ _ _ _ | EvStart _ _ | EvCopy _ _ | EvWrite _ _
  | EvExec _ | EvSignal _ _ => True
  | _ => False
  end.

(** The event is a line written without a host prefix, or no line. *)
Definition unprefixed (ev : event) : Prop :=
  match ev with
  | EvPump _ _ prefix => prefix = ""
  | EvStderr prefix _ => prefix = ""
  | _ => True
  end.

(** The event is not the dialling of a connection. *)
Definition notDial (ev : event) : Prop :=
  match ev with
  | EvDial _ _ _ _ => False
  | _ => True
  end.

(* ================================================================== *)
(** * Vocabulary of the command line *)
(* ================================================================== *)

(** The command is one of the Supfile, under the name it carries. *)
Definition fromSupfile (conf : Supfile) (c : Command) : Prop :=
  exists c0,
    Get (Commands conf) (Name c) = Some c0 /\ c = withName c0 (Name c).

(** The command names an argument stands for: those of the target of
    that name, then the command of that name. *)
Definition expand (conf : Supfile) (name : string) : list string :=
  (match Get (Targets conf) name with
   | Some target => target
   | None => []
   end
   ++ match Get (Commands conf) name with
      | Some _ => [name]
      | None => []
      end)%list.

(* ================================================================== *)
(** * Vocabulary of the task bodies *)
(* ================================================================== *)

(** The task [createTasks] makes of an upload whose source resolved to
    [file], before it is bound to clients. *)
Definition uploadBody (cwd : string) (u : Upload) (file : string) : Task :=
  mkTask (RemoteTarCommand (Dst u)) (Some (TarStdout cwd file (Exc u)))
         [] false.

(** The localhost client [createTasks] allocates for a local command. *)
Definition localClient (w : Sys) (env : string) : ClientObj :=
  LocalClient
    (fst (LocalhostClient_Connect w
            (Local.mk None "" None None None false
               (env ++ exportSupHost "localhost")))).

(** A command with every kind of body: an upload, a script, a local and a
    remote command, fed from the controller's stdin. *)
Definition release : Command :=
  mkCommand "release" "" "make dist" "./restart.sh" "./migrate.sh"
            [mkUpload "./dist" "/srv/app" ".git"] true false 0.

(* ================================================================== *)
(** * Vocabulary of the heap of clients *)
(* ================================================================== *)

(** The [running] flag of a client. *)
Definition isRunning (o : ClientObj) : bool :=
  match o with
  | LocalClient c => Local.running c
  | RemoteClient c => SSH.running c
  end.

(** The client at address [c] is there and is, or is not, running. *)
Definition runningIs (b : bool) (h : Heap) (c : Client) : Prop :=
  exists o, load h c = Some o /\ isRunning o = b.

(** The call of [createTasks] returned tasks. *)
Definition builtTasks (call : CreateCall) : Prop :=
  exists ts, call_result call = Ok ts.

(* ================================================================== *)
(** * task.go: forwarding signals *)
(* ================================================================== *)

(** The body of [catchSignals] for one signal received on [trap]
    (task.go, lines 276-283): the signal is sent to every client of the
    task; an error is written on stderr, wrapped as "sending signal
    failed", and the loop goes on. *)
Fixpoint signalClients (w : Sys) (sig : Signal) (clients : list Client)
  : M Heap unit :=
  match clients with
  | [] => ret tt
  | c :: rest =>
      (fun h =>
         match onClient c (Client_Signal w sig) h with
         | (h', tr, Error err) =>
             (h', (tr ++ [EvStderr "" (wrapped err "sending signal failed")])
                  %list, Ok tt)
         | other => other
         end) >>
      signalClients w sig rest
  end.

(** [func (t *Task) catchSignals(trap)] (task.go, lines 267-287), on the
    signals [trap] delivers before it is closed. *)
Fixpoint catchSignals (w : Sys) (trap : list Signal) (clients : list Client)
  : M Heap unit :=
  match trap with
  | [] => ret tt
  | sig :: rest =>
      signalClients w sig clients >> catchSignals w rest clients
  end.

(** A client [Signal] can be called on without following a nil pointer:
    a localhost client whose command has a process, an SSH client whose
    session, if marked open, has its stdin pipe and its session. *)
Definition signalable (o : ClientObj) : Prop :=
  match o with
  | LocalClient c =>
      exists argv process, Local.cmd c = Some (mkCmd argv (Some process))
  | RemoteClient c =>
      SSH.sessOpened c = true ->
      SSH.remoteStdin c <> None /\ SSH.sess c <> None
  end.

(* ================================================================== *)
(** * Vocabulary of the host filters *)
(* ================================================================== *)

(** A host passes the [--only] filter, the [--except] filter: an empty
    expression lets every host pass. *)
Definition passesOnly (w : Sys) (fl : Flags) (host : string) : bool :=
  if String.eqb (onlyHosts fl) "" then true
  else match regexp_CompilePOSIX w (onlyHosts fl) with
       | Done re => regexp_MatchString w re host
       | Fail _ => false
       end.

Definition passesExcept (w : Sys) (fl : Flags) (host : string) : bool :=
  if String.eqb (exceptHosts fl) "" then true
  else match regexp_CompilePOSIX w (exceptHosts fl) with
       | Done re => negb (regexp_MatchString w re host)
       | Fail _ => false
       end.

(** An SSH client with nothing open; a localhost client has nothing to
    close. *)
Definition closedObj (o : ClientObj) : Prop :=
  match o with
  | LocalClient _ => True
  | RemoteClient c =>
      SSH.connOpened c = false /\ SSH.sessOpened c = false /\
      SSH.running c = false
  end.

(** The client at address [c] is there, with nothing open. *)
Definition closedAt (h : Heap) (c : Client) : Prop :=
  exists o, load h c = Some o /\ closedObj o.
(* ================================================================== *)
(** * Properties of the task builder *)
(* ================================================================== *)

Lemma len_app {A : Type} (l1 l2 : list A) : len (l1 ++ l2) = len l1 + len l2.
Proof. unfold len. rewrite length_app. lia. Qed.

Lemma len_nonneg {A : Type} (l : list A) : 0 <= len l.
Proof. unfold len. lia. Qed.

(** One turn of the loop, as the source reads. *)
Lemma serialLoop_turn serial clients task i tasks :
  serialLoop serial clients task i tasks =
  if i <? len clients then
    cs <- slice clients i (if i + Zpos serial >? len clients
                           then len clients else i + Zpos serial) ;;
    serialLoop serial clients task (i + Zpos serial)
               (tasks ++ [withClients task cs])%list
  else Ok tasks.
Proof.
  rewrite serialLoop_equation_1.
  destruct (Z_lt_dec i (len clients)) as [Hlt | Hge]; simpl.
  - rewrite (proj2 (Z.ltb_lt _ _) Hlt).
    destruct (slice clients i _); reflexivity.
  - rewrite (proj2 (Z.ltb_nlt _ _) Hge). reflexivity.
Qed.

(** Inside the loop the slice expression is in range, and it is the next
    [serial] clients (fewer at the end of the list). *)
Lemma slice_in_loop (clients : list Client) (a : nat) (serial : positive) :
  (a < List.length clients)%nat ->
  slice clients (Z.of_nat a)
        (if Z.of_nat a + Zpos serial >? len clients
         then len clients else Z.of_nat a + Zpos serial)
  = Ok (firstn (Pos.to_nat serial) (skipn a clients)).
Proof.
  intros Ha. unfold slice, len.
  destruct (Z.gtb_spec (Z.of_nat a + Zpos serial)
                       (Z.of_nat (List.length clients))) as [Hgt | Hle].
  - replace ((0 <=? Z.of_nat a) && (Z.of_nat a <=? Z.of_nat (List.length clients))
             && (Z.of_nat (List.length clients) <=? Z.of_nat (List.length clients)))
      with true
      by (symmetry; rewrite !andb_true_iff, !Z.leb_le; lia).
    rewrite Nat2Z.id. f_equal.
    rewrite !firstn_all2; [reflexivity | rewrite length_skipn; lia
                          | rewrite length_skipn; lia].
  - replace ((0 <=? Z.of_nat a) && (Z.of_nat a <=? Z.of_nat a + Zpos serial)
             && (Z.of_nat a + Zpos serial <=? Z.of_nat (List.length clients)))
      with true
      by (symmetry; rewrite !andb_true_iff, !Z.leb_le; lia).
    rewrite Nat2Z.id. do 2 f_equal. lia.
Qed.

Lemma skipn_add {A : Type} (a b : nat) (l : list A) :
  skipn (a + b) l = skipn b (skipn a l).
Proof.
  revert l. induction a as [| a IH]; intros l; simpl; [reflexivity |].
  destruct l as [| x l]; [now rewrite skipn_nil | apply IH].
Qed.

Lemma ceilDiv_done (N : Z) : 0 < N -> ceilDiv 0 N = 0.
Proof. intros HN. unfold ceilDiv. apply Z.div_small. lia. Qed.

Lemma ceilDiv_step (r N : Z) :
  0 < N -> 0 < r -> ceilDiv r N = 1 + ceilDiv (Z.max 0 (r - N)) N.
Proof.
  intros HN Hr. unfold ceilDiv.
  destruct (Z.max_spec 0 (r - N)) as [[Hlt ->] | [Hge ->]].
  - replace (r + N - 1) with ((r - N + N - 1) + 1 * N) by lia.
    rewrite Z.div_add by lia. lia.
  - rewrite (Z.div_small (0 + N - 1)) by lia.
    replace (r + N - 1) with ((r - 1) + 1 * N) by lia.
    rewrite Z.div_add by lia. rewrite Z.div_small; lia.
Qed.

(** What the loop appends when it is resumed at index [a]. *)
Lemma serialLoop_from (serial : positive) (clients : list Client) (task : Task) :
  forall (m a : nat) (tasks : list Task),
    (List.length clients - a <= m)%nat ->
    exists ts,
      serialLoop serial clients task (Z.of_nat a) tasks = Ok (tasks ++ ts)%list /\
      len ts = ceilDiv (Z.max 0 (len clients - Z.of_nat a)) (Zpos serial) /\
      List.concat (map Clients ts) = skipn a clients /\
      (forall k t, nth_error ts k = Some t ->
         t = withClients task
               (firstn (Pos.to_nat serial)
                       (skipn (a + k * Pos.to_nat serial) clients)) /\
         (a + k * Pos.to_nat serial < List.length clients)%nat).
Proof.
  induction m as [| m IH]; intros a tasks Hm.
  - exists []. rewrite serialLoop_turn.
    replace (Z.of_nat a <? len clients) with false
      by (symmetry; apply Z.ltb_ge; unfold len; lia).
    rewrite app_nil_r. repeat split.
    + unfold len at 2. rewrite Z.max_l by lia. now rewrite ceilDiv_done.
    + simpl. symmetry. apply skipn_all2. lia.
    + destruct k; discriminate.
    + destruct k; discriminate.
  - destruct (Nat.lt_ge_cases a (List.length clients)) as [Hlt | Hge].
    + rewrite serialLoop_turn.
      replace (Z.of_nat a <? len clients) with true
        by (symmetry; apply Z.ltb_lt; unfold len; lia).
      rewrite slice_in_loop by assumption. simpl.
      set (cs := firstn (Pos.to_nat serial) (skipn a clients)).
      replace (Z.of_nat a + Zpos serial)
        with (Z.of_nat (a + Pos.to_nat serial)) by lia.
      destruct (IH (a + Pos.to_nat serial)%nat
                   (tasks ++ [withClients task cs])%list)
        as (ts & Hrun & Hlen & Hcat & Hnth); [lia |].
      exists (withClients task cs :: ts). repeat split.
      * rewrite Hrun, <- app_assoc. reflexivity.
      * unfold len in *. simpl List.length. rewrite Nat2Z.inj_succ, Hlen.
        rewrite (ceilDiv_step (Z.max 0 (Z.of_nat (List.length clients) - Z.of_nat a)))
          by lia.
        rewrite <- Z.add_1_l. do 3 f_equal. lia.
      * simpl. rewrite Hcat, skipn_add. apply firstn_skipn.
      * destruct k as [| k]; simpl in H.
        -- injection H as <-. simpl. now rewrite Nat.add_0_r.
        -- apply Hnth in H. destruct H as [-> _]. do 3 f_equal. simpl. lia.
      * destruct k as [| k]; simpl in H.
        -- lia.
        -- apply Hnth in H. simpl. lia.
    + exists []. rewrite serialLoop_turn.
      replace (Z.of_nat a <? len clients) with false
        by (symmetry; apply Z.ltb_ge; unfold len; lia).
      rewrite app_nil_r. repeat split.
      * unfold len at 2. rewrite Z.max_l by lia. now rewrite ceilDiv_done.
      * simpl. symmetry. apply skipn_all2. lia.
      * destruct k; discriminate.
      * destruct k; discriminate.
Qed.

(** The whole loop: one task per block, in order. *)
Lemma serialLoop_blocks (serial : positive) (clients : list Client)
  (task : Task) (tasks : list Task) :
  serialLoop serial clients task 0 tasks
  = Ok (tasks ++ map (withClients task)
                     (blocks (Pos.to_nat serial) clients))%list.
Proof.
  destruct (serialLoop_from serial clients task (List.length clients) 0 tasks)
    as (ts & Hrun & Hlen & _ & Hnth); [lia |].
  simpl Z.of_nat in Hrun. rewrite Hrun. do 2 f_equal.
  rewrite Z.sub_0_r, Z.max_r in Hlen by apply len_nonneg.
  unfold blocks. rewrite positive_nat_Z, <- Hlen.
  unfold len. rewrite Nat2Z.id.
  apply nth_error_ext. intros k.
  rewrite map_map.
  destruct (nth_error ts k) as [t |] eqn:Hk.
  - assert (Hlt : (k < List.length ts)%nat)
      by (apply nth_error_Some; congruence).
    rewrite nth_error_map, nth_error_seq.
    apply Nat.ltb_lt in Hlt as ->. simpl.
    apply Hnth in Hk as [-> _]. reflexivity.
  - apply nth_error_None in Hk.
    symmetry. apply nth_error_None.
    rewrite length_map, length_seq. exact Hk.
Qed.

Lemma fanOut_groups (cmd : Command) (clients : list Client) (task : Task)
  (tasks : list Task) :
  clients <> [] ->
  fanOut cmd clients task tasks
  = Ok (tasks ++ map (withClients task) (groups cmd clients))%list.
Proof.
  intros Hne. unfold fanOut, groups.
  destruct (Once cmd).
  - destruct clients as [| c rest]; [congruence | reflexivity].
  - destruct (Serial cmd) as [| serial | neg]; try reflexivity.
    apply serialLoop_blocks.
Qed.

(** With no client at all, a [once] command indexes an empty slice. *)
Lemma fanOut_once_empty (cmd : Command) (task : Task) (tasks : list Task) :
  Once cmd = true ->
  fanOut cmd [] task tasks = Panic "index out of range [0] with length 0".
Proof. intros H. unfold fanOut. rewrite H. reflexivity. Qed.

Lemma blocks_spec (serial : positive) (clients : list Client) :
  len (blocks (Pos.to_nat serial) clients)
    = ceilDiv (len clients) (Zpos serial) /\
  List.concat (blocks (Pos.to_nat serial) clients) = clients /\
  (forall k cs, nth_error (blocks (Pos.to_nat serial) clients) k = Some cs ->
     cs = block (Pos.to_nat serial) k clients /\
     1 <= len cs <= Zpos serial).
Proof.
  pose (task := mkTask "" None [] false).
  destruct (serialLoop_from serial clients task (List.length clients) 0 [])
    as (ts & Hrun & Hlen & Hcat & Hnth); [lia |].
  simpl Z.of_nat in Hrun.
  rewrite serialLoop_blocks in Hrun. simpl in Hrun.
  injection Hrun as Hts.
  assert (Hcl : map Clients ts = blocks (Pos.to_nat serial) clients).
  { rewrite <- Hts, map_map. simpl. apply map_id. }
  rewrite <- Hcl. repeat split.
  - unfold len in *. rewrite length_map, Hlen. f_equal. lia.
  - exact Hcat.
  - rewrite nth_error_map in H.
    destruct (nth_error ts k) as [t |] eqn:Hk; [| discriminate].
    injection H as <-. apply Hnth in Hk as [-> _]. reflexivity.
  - rewrite nth_error_map in H.
    destruct (nth_error ts k) as [t |] eqn:Hk; [| discriminate].
    injection H as <-. apply Hnth in Hk as [-> Hin]. simpl. unfold len.
    rewrite length_firstn, length_skipn. lia.
  - rewrite nth_error_map in H.
    destruct (nth_error ts k) as [t |] eqn:Hk; [| discriminate].
    injection H as <-. apply Hnth in Hk as [-> Hin]. simpl. unfold len.
    rewrite length_firstn. lia.
Qed.

Lemma blocks_single (serial : positive) (clients : list Client) :
  1 <= len clients <= Zpos serial ->
  blocks (Pos.to_nat serial) clients = [clients].
Proof.
  intros [Hlo Hhi]. unfold blocks.
  rewrite positive_nat_Z.
  replace (ceilDiv (len clients) (Zpos serial)) with 1.
  - simpl. unfold block. simpl. f_equal. apply firstn_all2.
    unfold len in Hhi. lia.
  - unfold ceilDiv.
    replace (len clients + Zpos serial - 1)
      with ((len clients - 1) + 1 * Zpos serial) by lia.
    rewrite Z.div_add by lia. rewrite Z.div_small; lia.
Qed.

(* ------------------------------------------------------------------ *)
(** ** The shape of [createTasks]'s result *)

Lemma bind_Ok {A B : Type} (r : result A) (k : A -> result B) (b : B) :
  bind r k = Ok b -> exists a, r = Ok a /\ k a = Ok b.
Proof. destruct r; simpl; intros H; try discriminate. eauto. Qed.

Lemma bind_Panic {A B : Type} (r : result A) (k : A -> result B) (m : string) :
  bind r k = Panic m ->
  r = Panic m \/ exists a, r = Ok a /\ k a = Panic m.
Proof.
  destruct r; simpl; intros H; try discriminate; eauto. left. congruence.
Qed.

Lemma wrap_call_no_panic {A : Type} (r : answer A) (msg m : string) :
  wrap (call r) msg <> Panic m.
Proof. destruct r; discriminate. Qed.

Lemma map_withClients_inGroups (task : Task) (gs : list (list Client)) :
  Forall (inGroups gs) (map (withClients task) gs).
Proof.
  apply Forall_forall. intros t Ht.
  apply in_map_iff in Ht as (cs & <- & Hin). exact Hin.
Qed.

Lemma uploadTasks_shape (w : Sys) (cmd : Command) (clients : list Client)
  (env cwd : string) :
  clients <> [] ->
  forall (uploads : list Upload) (tasks ts : list Task),
    uploadTasks w cmd clients env cwd uploads tasks = Ok ts ->
    exists ups,
      ts = (tasks ++ ups)%list /\
      Forall (inGroups (groups cmd clients)) ups /\
      len ups = len uploads * len (groups cmd clients).
Proof.
  intros Hne. induction uploads as [| u rest IH]; intros tasks ts H; simpl in H.
  - injection H as <-. exists []. rewrite app_nil_r. repeat split.
    constructor.
  - apply bind_Ok in H as (uploadFile & _ & H).
    apply bind_Ok in H as (reader & _ & H).
    rewrite fanOut_groups in H by assumption. simpl in H.
    apply IH in H as (ups & -> & Hall & Hlen).
    eexists. rewrite <- app_assoc. split; [reflexivity |]. split.
    + apply Forall_app. split; [apply map_withClients_inGroups | exact Hall].
    + rewrite len_app, Hlen. unfold len. rewrite length_map. simpl List.length.
      lia.
Qed.

Lemma uploadTasks_no_panic (w : Sys) (cmd : Command) (clients : list Client)
  (env cwd : string) :
  clients <> [] ->
  forall (uploads : list Upload) (tasks : list Task) (m : string),
    uploadTasks w cmd clients env cwd uploads tasks <> Panic m.
Proof.
  intros Hne. induction uploads as [| u rest IH]; intros tasks m H; simpl in H.
  - discriminate.
  - apply bind_Panic in H as [H | (uploadFile & _ & H)].
    { unfold ResolveLocalPath in H.
      destruct (exec_Output w cwd _); discriminate. }
    apply bind_Panic in H as [H | (reader & _ & H)].
    { unfold NewTarStreamReader in H.
      destruct (tar_StdoutPipe w cwd uploadFile (Exc u)); simpl in H;
        [| discriminate].
      destruct (tar_Start w cwd uploadFile (Exc u)); discriminate. }
    rewrite fanOut_groups in H by assumption. simpl in H.
    exact (IH _ _ H).
Qed.

Lemma localTasks_shape (w : Sys) (sup : Stackup) (cmd : Command)
  (env : string) (tasks : list Task) (h : Heap) :
  exists loc,
    snd (localTasks w sup cmd env tasks h) = (tasks ++ loc)%list /\
    Forall (fun t => exists c, Clients t = [c]) loc /\
    len loc = (if String.eqb (CLocal cmd) "" then 0 else 1).
Proof.
  unfold localTasks. destruct (String.eqb (CLocal cmd) "").
  - exists []. simpl. rewrite app_nil_r. repeat split. constructor.
  - destruct (LocalhostClient_Connect w _) as [obj e]. simpl.
    eexists. split; [reflexivity |]. split; [| reflexivity].
    constructor; [| constructor]. exists (List.length h).
    unfold debugStdin. destruct (debug sup), (Stdin cmd); reflexivity.
Qed.

(** The four stages of [createTasks], in the order of the source. *)
Lemma createTasks_shape (w : Sys) (sup : Stackup) (cmd : Command)
  (clients : list Client) (env : string) (h : Heap) (ts : list Task) :
  clients <> [] ->
  snd (createTasks w sup cmd clients env h) = Ok ts ->
  exists ups scr loc run,
    ts = (ups ++ scr ++ loc ++ run)%list /\
    Forall (inGroups (groups cmd clients)) ups /\
    len ups = len (CUpload cmd) * len (groups cmd clients) /\
    Forall (inGroups (groups cmd clients)) scr /\
    len scr = (if String.eqb (Script cmd) "" then 0
               else len (groups cmd clients)) /\
    Forall (fun t => exists c, Clients t = [c]) loc /\
    len loc = (if String.eqb (CLocal cmd) "" then 0 else 1) /\
    Forall (inGroups (groups cmd clients)) run /\
    len run = (if String.eqb (CRun cmd) "" then 0
               else len (groups cmd clients)).
Proof.
  intros Hne H. unfold createTasks in H.
  destruct (bind _ _) as [t2 | e | m | code] eqn:Hpre; try discriminate.
  apply bind_Ok in Hpre as (cwd & _ & Hpre).
  apply bind_Ok in Hpre as (t1 & H1 & H2).
  apply uploadTasks_shape in H1 as (ups & -> & Hups & Hlups); [| assumption].
  simpl in *.
  assert (exists scr, t2 = (ups ++ scr)%list /\
            Forall (inGroups (groups cmd clients)) scr /\
            len scr = (if String.eqb (Script cmd) "" then 0
                       else len (groups cmd clients)))
    as (scr & -> & Hscr & Hlscr).
  { unfold scriptTasks in H2. destruct (String.eqb (Script cmd) "").
    - injection H2 as <-. exists []. rewrite app_nil_r. repeat split.
      constructor.
    - apply bind_Ok in H2 as (f & _ & H2).
      apply bind_Ok in H2 as (data & _ & H2).
      rewrite fanOut_groups in H2 by assumption. injection H2 as <-.
      eexists. split; [reflexivity |].
      split; [apply map_withClients_inGroups |].
      unfold len. now rewrite length_map. }
  destruct (localTasks_shape w sup cmd env (ups ++ scr)%list h)
    as (loc & Hl & Hloc & Hlloc).
  destruct (localTasks w sup cmd env (ups ++ scr)%list h) as [h' t3].
  simpl in Hl, H. subst t3.
  assert (exists run, ts = (((ups ++ scr) ++ loc) ++ run)%list /\
            Forall (inGroups (groups cmd clients)) run /\
            len run = (if String.eqb (CRun cmd) "" then 0
                       else len (groups cmd clients)))
    as (run & -> & Hrun & Hlrun).
  { unfold runTasks in H. destruct (String.eqb (CRun cmd) "").
    - injection H as <-. exists []. rewrite app_nil_r. repeat split.
      constructor.
    - rewrite fanOut_groups in H by assumption. injection H as <-.
      eexists. split; [reflexivity |].
      split; [apply map_withClients_inGroups |].
      unfold len. now rewrite length_map. }
  exists ups, scr, loc, run. rewrite <- !app_assoc.
  repeat split; assumption.
Qed.

(** With at least one client, [createTasks] indexes and slices in range. *)
Lemma createTasks_no_panic (w : Sys) (sup : Stackup) (cmd : Command)
  (clients : list Client) (env : string) (h : Heap) (m : string) :
  clients <> [] ->
  snd (createTasks w sup cmd clients env h) <> Panic m.
Proof.
  intros Hne H. unfold createTasks in H.
  destruct (bind _ _) as [t2 | e | m' | code] eqn:Hpre; try discriminate.
  - destruct (localTasks w sup cmd env t2 h) as [h' t3]. simpl in H.
    unfold runTasks in H. destruct (String.eqb (CRun cmd) "");
      [discriminate |].
    rewrite fanOut_groups in H by assumption. discriminate.
  - simpl in H. injection H as ->.
    apply bind_Panic in Hpre as [H | (cwd & _ & H)].
    { exact (wrap_call_no_panic _ _ _ H). }
    apply bind_Panic in H as [H | (t1 & _ & H)].
    { exact (uploadTasks_no_panic w cmd clients env cwd Hne _ _ m H). }
    unfold scriptTasks in H. destruct (String.eqb (Script cmd) "");
      [discriminate |].
    apply bind_Panic in H as [H | (f & _ & H)].
    { exact (wrap_call_no_panic _ _ _ H). }
    apply bind_Panic in H as [H | (data & _ & H)].
    { exact (wrap_call_no_panic _ _ _ H). }
    rewrite fanOut_groups in H by assumption. discriminate.
Qed.

(** Every group of the fan-out holds a client. *)
Lemma groups_nonempty (cmd : Command) (clients : list Client) :
  clients <> [] ->
  Forall (fun cs => 1 <= len cs) (groups cmd clients).
Proof.
  intros Hne. unfold groups. destruct (Once cmd).
  - destruct clients as [| c rest]; [congruence |].
    constructor; [unfold len; simpl; lia | constructor].
  - assert (Hall : 1 <= len clients).
    { destruct clients; [congruence | unfold len; simpl; lia]. }
    destruct (Serial cmd) as [| serial | neg];
      try (constructor; [exact Hall | constructor]).
    apply Forall_forall. intros cs Hin.
    apply In_nth_error in Hin as (k & Hk).
    apply (blocks_spec serial clients) in Hk. lia.
Qed.

(* ------------------------------------------------------------------ *)
(** ** Fan-out in waves of [serial] clients *)

Lemma len_groups_serial (cmd : Command) (clients : list Client) :
  Once cmd = false -> 0 < Serial cmd ->
  len (groups cmd clients) = ceilDiv (len clients) (Serial cmd).
Proof.
  intros Honce Hs. unfold groups. rewrite Honce.
  destruct (Serial cmd) as [| serial | neg]; try lia.
  apply blocks_spec.
Qed.

(** C2.  For a command with [once] false and [serial] N > 0 and a list of
    n >= 1 clients, each body is fanned out into exactly ceil(n/N) tasks;
    the k-th task is bound to the k-th contiguous block of N clients (the
    last block may be shorter), every task has between 1 and N clients, and
    the blocks concatenated in order give back the client list.  With
    [serial] = 0, or N >= n, a body yields the single task bound to all n
    clients.  Whenever [createTasks] returns, its tasks number ceil(n/N) for
    each upload, for the script and for the remote body, plus the local
    task. *)
Theorem serial_fan_out (cmd : Command) (clients : list Client) :
  Once cmd = false -> 1 <= len clients ->
  (0 < Serial cmd ->
     (forall (task : Task) (tasks : list Task),
        exists ts,
          fanOut cmd clients task tasks = Ok (tasks ++ ts)%list /\
          len ts = ceilDiv (len clients) (Serial cmd) /\
          List.concat (map Clients ts) = clients /\
          (forall k t, nth_error ts k = Some t ->
             t = withClients task (block (Z.to_nat (Serial cmd)) k clients) /\
             1 <= len (Clients t) <= Serial cmd)) /\
     (forall w sup env h ts,
        snd (createTasks w sup cmd clients env h) = Ok ts ->
        len ts =
          (len (CUpload cmd)
           + (if String.eqb (Script cmd) "" then 0 else 1)
           + (if String.eqb (CRun cmd) "" then 0 else 1))
          * ceilDiv (len clients) (Serial cmd)
          + (if String.eqb (CLocal cmd) "" then 0 else 1))) /\
  (Serial cmd = 0 \/ len clients <= Serial cmd ->
     forall (task : Task) (tasks : list Task),
       fanOut cmd clients task tasks
       = Ok (tasks ++ [withClients task clients])%list).
Proof.
  intros Honce Hn.
  assert (Hne : clients <> []).
  { destruct clients; [unfold len in Hn; simpl in Hn; lia | discriminate]. }
  split.
  - intros Hs. split.
    + intros task tasks. rewrite fanOut_groups by assumption.
      unfold groups. rewrite Honce.
      destruct (Serial cmd) as [| serial | neg] eqn:Hserial; try lia.
      destruct (blocks_spec serial clients) as (Hlen & Hcat & Hnth).
      exists (map (withClients task) (blocks (Pos.to_nat serial) clients)).
      split; [reflexivity |]. split; [| split].
      * unfold len in *. now rewrite length_map.
      * rewrite map_map. simpl. now rewrite map_id.
      * intros k t Hk. rewrite nth_error_map in Hk.
        destruct (nth_error (blocks (Pos.to_nat serial) clients) k)
          as [cs |] eqn:Hcs; [| discriminate].
        injection Hk as <-. apply Hnth in Hcs as [-> Hbounds].
        simpl. split; [reflexivity | exact Hbounds].
    + intros w sup env h ts Hts.
      apply createTasks_shape in Hts
        as (ups & scr & loc & run & -> & _ & Hu & _ & Hs' & _ & Hl & _ & Hr);
        [| assumption].
      rewrite !len_app, Hu, Hs', Hl, Hr.
      rewrite (len_groups_serial cmd clients Honce Hs).
      destruct (String.eqb (Script cmd) ""), (String.eqb (CRun cmd) ""); lia.
  - intros Hb task tasks. rewrite fanOut_groups by assumption.
    unfold groups. rewrite Honce.
    destruct (Serial cmd) as [| serial | neg] eqn:Hserial; try reflexivity.
    rewrite blocks_single; [reflexivity |].
    destruct Hb as [Hb | Hb]; [discriminate | lia].
Qed.

(** [serial_fan_out] on three clients taken two at a time: two tasks. *)
Lemma serial_fan_out_witness :
  exists ts,
    fanOut restart three body [] = Ok ([] ++ ts)%list /\
    len ts = ceilDiv (len three) (Serial restart) /\
    List.concat (map Clients ts) = three /\
    (forall k t, nth_error ts k = Some t ->
       t = withClients body (block (Z.to_nat (Serial restart)) k three) /\
       1 <= len (Clients t) <= Serial restart).
Proof.
  apply (serial_fan_out restart three);
    [reflexivity | unfold len; simpl; lia | simpl; lia].
Defined.

(** Scenario 2 of the specification: hosts h1, h2, h3 with [serial: 2]. *)
Example fan_out_three_by_two :
  fanOut restart three body []
  = Ok [withClients body [0%nat; 1%nat]; withClients body [2%nat]].
Proof. reflexivity. Qed.

(* ------------------------------------------------------------------ *)
(** ** [once] *)

Lemma Forall_inGroups_single (c : Client) (ts : list Task) :
  Forall (inGroups [[c]]) ts -> Forall (fun t => Clients t = [c]) ts.
Proof.
  apply Forall_impl. intros t [H | []]. now symmetry.
Qed.

(** C5.  For a command with [once] true, whatever its [serial], and a
    client list whose first client is [c]: the fan-out of a body yields
    exactly one task, bound to [c] alone; and whenever [createTasks]
    returns, it has built one task per upload, one for the script and one
    for the remote body, each bound to [c] alone (and the local task, on
    its own localhost client). *)
Theorem once_overrides_serial (cmd : Command) (c : Client)
  (rest : list Client) :
  Once cmd = true ->
  (forall (task : Task) (tasks : list Task),
     fanOut cmd (c :: rest) task tasks
     = Ok (tasks ++ [withClients task [c]])%list) /\
  (forall w sup env h ts,
     snd (createTasks w sup cmd (c :: rest) env h) = Ok ts ->
     exists ups scr loc run,
       ts = (ups ++ scr ++ loc ++ run)%list /\
       len ups = len (CUpload cmd) /\
       Forall (fun t => Clients t = [c]) ups /\
       len scr = (if String.eqb (Script cmd) "" then 0 else 1) /\
       Forall (fun t => Clients t = [c]) scr /\
       len loc = (if String.eqb (CLocal cmd) "" then 0 else 1) /\
       len run = (if String.eqb (CRun cmd) "" then 0 else 1) /\
       Forall (fun t => Clients t = [c]) run).
Proof.
  intros Honce. split.
  - intros task tasks. unfold fanOut. rewrite Honce. reflexivity.
  - intros w sup env h ts Hts.
    apply createTasks_shape in Hts
      as (ups & scr & loc & run & -> & Hu & Hlu & Hs & Hls & _ & Hl & Hr & Hlr);
      [| discriminate].
    unfold groups in *. rewrite Honce in *.
    change (len [[c]]) with 1 in *.
    exists ups, scr, loc, run.
    repeat split; auto using Forall_inGroups_single; lia.
Qed.

(** [once_overrides_serial] on three clients, with [serial: 2] set too. *)
Lemma once_overrides_serial_witness :
  fanOut build three body [] = Ok ([] ++ [withClients body [0%nat]])%list.
Proof.
  apply (once_overrides_serial build 0%nat [1%nat; 2%nat]). reflexivity.
Defined.

(* ================================================================== *)
(** * The reap phase *)
(* ================================================================== *)

(** A method that never ends the process. *)
Lemma bindM_noExit {St A B : Type} (m : M St A) (k : A -> M St B) :
  noExit m -> (forall a, noExit (k a)) -> noExit (bindM m k).
Proof.
  intros Hm Hk s code. unfold bindM. specialize (Hm s).
  destruct (m s) as [[s' tr] r]. destruct r as [a | e | msg | c]; simpl in *.
  - specialize (Hk a s' code). destruct (k a s') as [[s'' tr'] r']. exact Hk.
  - discriminate.
  - discriminate.
  - now contradiction (Hm c).
Qed.

Lemma ret_noExit {St A : Type} (a : A) : noExit (@ret St A a).
Proof. intros s code. discriminate. Qed.

Lemma get_noExit {St : Type} : noExit (@get St).
Proof. intros s code. discriminate. Qed.

Lemma modify_noExit {St : Type} (f : St -> St) : noExit (modify f).
Proof. intros s code. discriminate. Qed.

Lemma emit_noExit {St : Type} (ev : event) : noExit (@emit St ev).
Proof. intros s code. discriminate. Qed.

Lemma throw_noExit {St A : Type} (e : error) : noExit (@throw St A e).
Proof. intros s code. discriminate. Qed.

Lemma panic_noExit {St A : Type} (msg : string) : noExit (@panic St A msg).
Proof. intros s code. discriminate. Qed.

Lemma deref_noExit {St A : Type} (p : option A) : noExit (@deref St A p).
Proof. destruct p; [apply ret_noExit | apply panic_noExit]. Qed.

Lemma check_noExit {St : Type} (err : option error) : noExit (@check St err).
Proof. destruct err; [apply throw_noExit | apply ret_noExit]. Qed.

Create HintDb noexit.
#[local] Hint Resolve ret_noExit get_noExit modify_noExit emit_noExit
  throw_noExit panic_noExit deref_noExit check_noExit : noexit.

(** Walks through a method built from the combinators of [M]. *)
Ltac no_exit :=
  repeat first
    [ apply bindM_noExit; [| intros ?]
    | solve [auto with noexit]
    | match goal with
      | |- noExit (if ?b then _ else _) => destruct b
      | |- noExit (match ?x with _ => _ end) => destruct x
      end ].

Lemma SSHClient_Wait_noExit (w : Sys) : noExit (SSHClient_Wait w).
Proof. unfold SSHClient_Wait. no_exit. Qed.

Lemma LocalhostClient_Wait_noExit (w : Sys) : noExit (LocalhostClient_Wait w).
Proof. unfold LocalhostClient_Wait. no_exit. Qed.

Lemma Client_Wait_no_exit (w : Sys) (o : ClientObj) (code : Z) :
  snd (Client_Wait w o) <> Exit code.
Proof.
  destruct o as [c | c]; unfold Client_Wait, dispatch.
  - pose proof (LocalhostClient_Wait_noExit w c code) as H.
    destruct (LocalhostClient_Wait w c) as [[c' tr] r]. exact H.
  - pose proof (SSHClient_Wait_noExit w c code) as H.
    destruct (SSHClient_Wait w c) as [[c' tr] r]. exact H.
Qed.

Section Reap.

Variable w : Sys.
Variable pal : Palette.
Variable onPrefix : bool.
Variable len_ : Z.

(** What the goroutine prints for a client whose [Wait] returned [err]. *)
Let logged (o' : ClientObj) (tr : list event) (err : error) : list event :=
  (tr ++ [EvStderr (if onPrefix then formatClientPrefix pal o' len_ else "")
                   err])%list.

Lemma clientFinish_error (o o' : ClientObj) (tr : list event) (err : error) :
  Client_Wait w o = (o', tr, Error err) ->
  clientFinish w pal onPrefix len_ o
  = (o', logged o' tr err, Exit (reapCode err)).
Proof.
  intros H. unfold clientFinish, logged. rewrite H.
  destruct err; try reflexivity.
  simpl. destruct (status =? 15); reflexivity.
Qed.

Lemma reapCode_not_15 (err : error) : reapCode err <> 15.
Proof.
  destruct err; simpl; try lia.
  destruct (Z.eqb_spec status 15); lia.
Qed.

Lemma clientFinish_not_15 (o : ClientObj) :
  snd (clientFinish w pal onPrefix len_ o) <> Exit 15.
Proof.
  destruct (Client_Wait w o) as [[o' tr] r] eqn:Hw.
  destruct r as [[] | err | m | code].
  - unfold clientFinish. rewrite Hw. discriminate.
  - rewrite (clientFinish_error _ _ _ _ Hw). cbn [snd].
    intros [= H]. exact (reapCode_not_15 err H).
  - unfold clientFinish. rewrite Hw. discriminate.
  - pose proof (Client_Wait_no_exit w o code) as H. rewrite Hw in H.
    now contradiction H.
Qed.

Lemma clientsFinish_not_15 (clients : list Client) :
  forall h, snd (clientsFinish w pal onPrefix len_ clients h) <> Exit 15.
Proof.
  induction clients as [| c rest IH]; intros h; simpl.
  - discriminate.
  - unfold bindM, onClient. destruct (load h c) as [o |]; [| discriminate].
    pose proof (clientFinish_not_15 o) as Hc.
    destruct (clientFinish w pal onPrefix len_ o) as [[o' tr] r].
    destruct r as [[] | err | m | code]; try discriminate.
    + specialize (IH (store h c o')).
      destruct (clientsFinish w pal onPrefix len_ rest (store h c o'))
        as [[h' tr'] r']. exact IH.
    + exact Hc.
Qed.

(** C1, as the code has it.  In the reap phase, when a client's [Wait]
    returns an error, the goroutine prints the prefixed error on stderr and
    ends the process: with the exit status of the SSH exit error when that
    status is not 15, and with exit code 1 for an SSH exit error of status
    15 and for any other error.  A [Wait] that returns no error lets the
    task go on.  Whatever the clients answer, the reap phase never ends the
    process with exit status 15. *)
Theorem reap_exit_codes (o o' : ClientObj) (tr : list event)
  (r : result unit) :
  Client_Wait w o = (o', tr, r) ->
  (r = Ok tt -> clientFinish w pal onPrefix len_ o = (o', tr, Ok tt)) /\
  (r = Error (ExitError 15) ->
     clientFinish w pal onPrefix len_ o
     = (o', (tr ++ [EvStderr (if onPrefix
                              then formatClientPrefix pal o' len_ else "")
                             (ExitError 15)])%list, Exit 1)) /\
  (forall status, status <> 15 -> r = Error (ExitError status) ->
     clientFinish w pal onPrefix len_ o
     = (o', (tr ++ [EvStderr (if onPrefix
                              then formatClientPrefix pal o' len_ else "")
                             (ExitError status)])%list, Exit status)) /\
  (forall err, (forall status, err <> ExitError status) -> r = Error err ->
     clientFinish w pal onPrefix len_ o
     = (o', (tr ++ [EvStderr (if onPrefix
                              then formatClientPrefix pal o' len_ else "")
                             err])%list, Exit 1)) /\
  (forall clients h,
     snd (clientsFinish w pal onPrefix len_ clients h) <> Exit 15).
Proof.
  intros Hw. repeat split.
  - intros ->. unfold clientFinish. rewrite Hw. reflexivity.
  - intros ->. now rewrite (clientFinish_error _ _ _ _ Hw).
  - intros status Hs ->. rewrite (clientFinish_error _ _ _ _ Hw).
    unfold logged. simpl.
    destruct (Z.eqb_spec status 15); [contradiction | reflexivity].
  - intros err Hother ->. rewrite (clientFinish_error _ _ _ _ Hw).
    destruct err; try reflexivity. now contradiction (Hother status).
  - intros clients h. apply clientsFinish_not_15.
Qed.

End Reap.

(** The theorem above on a remote command that exits with status 15: the
    error is printed behind the prefix of the host and the process ends
    with exit code 1. *)
Lemma reap_exit_codes_witness :
  clientFinish killed ansi true 11 h1busy
  = (fst (fst (Client_Wait killed h1busy)),
     [EvStderr (esc ++ "[32mu@h1:22 | " ++ esc ++ "[0m") (ExitError 15)],
     Exit 1).
Proof.
  refine (proj1 (proj2
    (reap_exit_codes killed ansi true 11 h1busy
       (fst (fst (Client_Wait killed h1busy)))
       [] (Error (ExitError 15)) _)) _);
    reflexivity.
Defined.

(** C1, as the claim has it, fails: a remote command that exits with status
    15 does not let the task go on; the process ends with exit code 1. *)
Lemma status_15_ends_the_process :
  snd (Client_Wait killed h1busy) = Error (ExitError 15) /\
  snd (clientFinish killed ansi true 11 h1busy) = Exit 1 /\
  snd (clientFinish killed ansi true 11 h1busy) <> Ok tt.
Proof. repeat split. discriminate. Qed.

(* ================================================================== *)
(** * The SSH client *)
(* ================================================================== *)

(** Closes a branch of a method that has returned: every event of its
    trace is looked at. *)
Ltac returned :=
  intros [= <- <- <-]; intros sess' cmdline' Hin; simpl in Hin;
  repeat (destruct Hin as [Hin | Hin]);
  try discriminate; try contradiction;
  try (injection Hin as <- <-; reflexivity).

(** The string [Run] starts on the session: the env prelude is put in
    front of the body only for a task without input. *)
Lemma SSHClient_Run_started (w : Sys) (task : Task) (c c' : SSH.SSHClient)
  (tr : list event) (r : result unit) :
  SSHClient_Run w task c = (c', tr, r) ->
  forall sess cmdline, In (EvStart sess cmdline) tr ->
    cmdline = match Input task with
              | Some _ => Run task
              | None => SSH.env c ++ Run task
              end.
Proof.
  destruct c as [conn sess0 user host i o e co so ru env color signer].
  destruct task as [run input clients tty].
  unfold SSHClient_Run, openSession, assignPipe.
  unfold bindM, get, modify, emit, throw, panic, deref, check, ret. simpl.
  destruct ru; simpl; [returned |].
  destruct so; simpl; [returned |].
  destruct conn as [conn |]; simpl; [| returned].
  destruct (conn_NewSession w conn) as [sess | err]; simpl; [| returned].
  destruct tty; simpl;
    [destruct (sess_RequestPty w sess); simpl; [| returned] |];
    (destruct (sess_StdinPipe w sess) as [pin | ?]; simpl; [| returned]);
    (destruct (sess_StdoutPipe w sess); simpl; [| returned]);
    (destruct (sess_StderrPipe w sess); simpl; [| returned]);
    (destruct input as [input |]; simpl;
     [ destruct (sess_Start w sess run); simpl; [returned |];
       destruct (io_Copy w pin input); simpl; [returned |];
       destruct (pipe_Close w pin); simpl; returned
     | destruct (sess_Start w sess (env ++ run)); simpl; returned ]).
Qed.

(** C3, at the failing input.  An upload task (its input is the archive)
    run on a connected SSH client whose env prelude defines DEPLOY: the
    string started on the session is the bare body [tar -C "$DEPLOY" -xzf -],
    not the env prelude followed by the body. *)
Theorem upload_started_without_env :
  snd (fst (SSHClient_Run calm uploadTask target))
  = [EvStart 2%nat (Run uploadTask);
     EvCopy 10%nat (TarStdout "/work" "./dist" "")] /\
  snd (SSHClient_Run calm uploadTask target) = Ok tt /\
  Run uploadTask <> SSH.env target ++ Run uploadTask.
Proof. repeat split. discriminate. Qed.

(** The same client started on a task without input does get the env
    prelude. *)
Example run_started_with_env :
  snd (fst (SSHClient_Run calm body target))
  = [EvRequestPty 2%nat "xterm" 40 80 1;
     EvStart 2%nat (SSH.env target ++ Run body)].
Proof. reflexivity. Qed.

(* ------------------------------------------------------------------ *)
(** ** [Close] *)

(** [Close] on a client with nothing open. *)
Lemma Close_not_open (w : Sys) (c : SSH.SSHClient) :
  SSH.connOpened c = false -> SSH.sessOpened c = false ->
  SSHClient_Close w c
  = (c, [], Error (errorString
                     "Trying to close the already closed connection")).
Proof.
  destruct c as [conn0 sess0 user host i o e0 co so ru env color signer].
  simpl. intros -> ->. reflexivity.
Qed.

(** C8, as the code has it.  [Close] is not idempotent.  On a client with
    neither connection nor session open (never connected, or already
    closed) it returns the error "Trying to close the already closed
    connection" and leaves the client as it is.  On a client with an open
    connection, and either no open session or a session that closes without
    error, it clears [connOpened], [sessOpened] and [running], keeps the
    other fields, and returns what closing the connection returns.  When
    closing the open session fails, [Close] returns that error at once: only
    [sessOpened] is cleared, the connection stays open. *)
Theorem Close_states (w : Sys) (c : SSH.SSHClient) :
  (SSH.connOpened c = false -> SSH.sessOpened c = false ->
     SSHClient_Close w c
     = (c, [], Error (errorString
                        "Trying to close the already closed connection"))) /\
  (forall conn,
     SSH.connOpened c = true -> SSH.conn c = Some conn ->
     (SSH.sessOpened c = false \/
      exists sess, SSH.sess c = Some sess /\ sess_Close w sess = None) ->
     SSHClient_Close w c
     = (set_running false (set_connOpened false (set_sessOpened false c)),
        [],
        match conn_Close w conn with Some e => Error e | None => Ok tt end)) /\
  (forall sess e,
     SSH.sessOpened c = true -> SSH.sess c = Some sess ->
     sess_Close w sess = Some e ->
     SSHClient_Close w c = (set_sessOpened false c, [], Error e)).
Proof.
  destruct c as [conn0 sess0 user host i o e0 co so ru env color signer].
  unfold SSHClient_Close.
  unfold bindM, get, modify, emit, throw, panic, deref, check, ret.
  simpl. repeat split.
  - intros Hconn Hsess.
    exact (Close_not_open w
             (SSH.mk conn0 sess0 user host i o e0 co so ru env color signer)
             Hconn Hsess).
  - intros conn -> -> [-> | (sess & -> & Hclose)]; simpl.
    + destruct (conn_Close w conn); reflexivity.
    + destruct so; simpl.
      * rewrite Hclose. simpl. destruct (conn_Close w conn); reflexivity.
      * destruct (conn_Close w conn); reflexivity.
  - intros sess e -> -> Hclose. simpl. rewrite Hclose. reflexivity.
Qed.

(** [Close_states] on an idle connected client: the first [Close] closes
    the connection. *)
Lemma Close_states_witness :
  SSHClient_Close calm h1
  = (set_running false (set_connOpened false (set_sessOpened false h1)),
     [], Ok tt).
Proof.
  refine (proj1 (proj2 (Close_states calm h1)) 1%nat _ _ _);
    [reflexivity | reflexivity | left; reflexivity].
Defined.

(** A second [Close] returns the error and changes nothing. *)
Example Close_twice :
  let closed := fst (fst (SSHClient_Close calm h1)) in
  SSHClient_Close calm closed
  = (closed, [],
     Error (errorString "Trying to close the already closed connection")).
Proof. reflexivity. Qed.

(** C8, as the claim has it, fails: on a client with an open connection
    and an open session that cannot be closed, [Close] leaves [connOpened]
    and [running] set. *)
Lemma Close_keeps_connection_open :
  let c := busy "u" "h1:22" "" "" in
  let c' := fst (fst (SSHClient_Close stale c)) in
  SSH.connOpened c = true /\
  SSH.connOpened c' = true /\ SSH.running c' = true /\
  SSH.sessOpened c' = false /\
  snd (SSHClient_Close stale c) = Error (errorString "EOF").
Proof. repeat split. Qed.

(* ================================================================== *)
(** * The localhost client *)
(* ================================================================== *)

(** Before a [Run] has succeeded the command handle is nil, or it is the
    command of a [Run] that failed, whose process was never started. *)
Definition notStarted (c : Local.LocalhostClient) : Prop :=
  Local.running c = false /\
  (Local.cmd c = None \/ exists argv, Local.cmd c = Some (mkCmd argv None)).

Lemma LocalhostClient_Run_fails (w : Sys) (task : Task)
  (c c' : Local.LocalhostClient) (tr : list event) (r : result unit) :
  notStarted c ->
  LocalhostClient_Run w task c = (c', tr, r) -> r <> Ok tt ->
  notStarted c'.
Proof.
  destruct c as [cmd user i o e ru env]. intros [Hru Hcmd]. simpl in Hru.
  subst ru.
  unfold LocalhostClient_Run, lassignPipe.
  unfold bindM, get, modify, emit, throw, panic, deref, check, ret. simpl.
  destruct (cmd_StdoutPipe w _); simpl;
    [| intros [= <- <- <-] _; split; simpl; eauto].
  destruct (cmd_StderrPipe w _); simpl;
    [| intros [= <- <- <-] _; split; simpl; eauto].
  destruct (cmd_StdinPipe w _); simpl;
    [| intros [= <- <- <-] _; split; simpl; eauto].
  destruct (cmd_Start w _); simpl.
  - intros [= <- <- <-] Hr. now contradiction Hr.
  - intros [= <- <- <-] _. split; simpl; eauto.
Qed.

Lemma preRun_notStarted (c : Local.LocalhostClient) :
  preRun c -> notStarted c.
Proof.
  induction 1 as [env | w c _ IH | w task c c' tr r _ IH Hrun Hr
                  | w c _ IH | c _ IH | w c _ IH].
  - split; simpl; auto.
  - unfold LocalhostClient_Connect. destruct (user_Current w); exact IH.
  - eapply LocalhostClient_Run_fails; eassumption.
  - destruct IH as [Hru Hcmd]. unfold LocalhostClient_Wait.
    unfold bindM, get, throw. rewrite Hru. simpl. split; assumption.
  - exact IH.
  - unfold LocalhostClient_WriteClose.
    unfold bindM, get, deref, check, ret, panic, throw.
    destruct (Local.stdin c); simpl; [| exact IH].
    destruct (pipe_Close w h); exact IH.
Qed.

(** C10.  [Signal] has no nil guard: on every state a localhost client
    can be in before a [Run] has succeeded (newly built, connected, after
    any number of failed [Run]s), [Signal] panics on the nil pointer it
    follows, it does not return (neither an error nor nil), it leaves the
    client as it is and no signal is sent. *)
Theorem Signal_before_Run_panics (w : Sys) (sig : Signal)
  (c : Local.LocalhostClient) :
  preRun c ->
  LocalhostClient_Signal w sig c = (c, [], Panic nilDereference) /\
  (forall e, snd (LocalhostClient_Signal w sig c) <> Error e) /\
  snd (LocalhostClient_Signal w sig c) <> Ok tt.
Proof.
  intros Hpre. apply preRun_notStarted in Hpre as [_ Hcmd].
  assert (H : LocalhostClient_Signal w sig c = (c, [], Panic nilDereference)).
  { unfold LocalhostClient_Signal.
    unfold bindM, get, deref, panic, ret. simpl.
    destruct Hcmd as [-> | (argv & ->)]; reflexivity. }
  rewrite H. repeat split; discriminate.
Qed.

(** [Signal_before_Run_panics] on the client [createTasks] builds for a
    local command, connected. *)
Lemma Signal_before_Run_panics_witness :
  let c := fst (LocalhostClient_Connect calm
                  (Local.mk None "" None None None false "")) in
  LocalhostClient_Signal calm Interrupt c = (c, [], Panic nilDereference).
Proof.
  apply (Signal_before_Run_panics calm Interrupt).
  apply preRun_Connect. apply preRun_new.
Defined.

(** After a [Run] whose [Start] failed the handle is no longer nil, and
    [Signal] still panics: the process is. *)
Example Signal_after_failed_Run :
  let c := fst (fst (LocalhostClient_Run noBash body
                       (Local.mk None "deploy" None None None false ""))) in
  Local.cmd c = Some (mkCmd ["bash"; "-c"; "sudo docker restart example"] None)
  /\ snd (LocalhostClient_Signal noBash Interrupt c) = Panic nilDereference.
Proof. split; reflexivity. Qed.

(* ================================================================== *)
(** * The prefix of the output lines *)
(* ================================================================== *)

Lemma slen_app (a b : string) : slen (a ++ b) = slen a + slen b.
Proof.
  unfold slen. rewrite <- Nat2Z.inj_add. f_equal.
  induction a as [| x a IH]; simpl; [reflexivity | now rewrite IH].
Qed.

Lemma slen_nonneg (a : string) : 0 <= slen a.
Proof. unfold slen. lia. Qed.

(** The width [Prefix] returns counts bytes of the prefix it returns. *)
Lemma Client_Prefix_width (pal : Palette) (o : ClientObj) :
  0 <= snd (Client_Prefix pal o) <= slen (fst (Client_Prefix pal o)).
Proof.
  destruct o as [c | c];
    unfold Client_Prefix, LocalhostClient_Prefix, SSHClient_Prefix;
    cbn [fst snd].
  - set (host := Local.user c ++ "@localhost" ++ " | ").
    rewrite slen_app. pose proof (slen_nonneg (ResetColor pal)).
    pose proof (slen_nonneg host). lia.
  - set (host := SSH.user c ++ "@" ++ SSH.host c ++ " | ").
    rewrite !slen_app.
    pose proof (slen_nonneg (ResetColor pal)).
    pose proof (slen_nonneg (SSH.color c)).
    pose proof (slen_nonneg host). lia.
Qed.

(** What [Task.do] does to a prefix: the guard of the padding compares
    [maxLen] with the byte length of the prefix, colour sequences
    included, while the padding is computed from the width. *)
Lemma doPrefix_cases (pal : Palette) (maxLen : Z) (o : ClientObj) :
  doPrefix pal true maxLen o
  = Ok (if slen (fst (Client_Prefix pal o)) <? maxLen
        then spaces (maxLen - snd (Client_Prefix pal o))
             ++ fst (Client_Prefix pal o)
        else fst (Client_Prefix pal o)).
Proof.
  unfold doPrefix. pose proof (Client_Prefix_width pal o) as Hw.
  destruct (Client_Prefix pal o) as [p n]. simpl in *.
  destruct (Z.ltb_spec (slen p) maxLen) as [Hlt | Hge]; [| reflexivity].
  unfold Repeat.
  destruct (Z.ltb_spec (maxLen - n) 0) as [Hneg | Hpos]; [lia | reflexivity].
Qed.

(** C6, at the failing input.  Two connected SSH clients, u@h1:22 and
    u@h22:22: the prefix widths are 10 and 11, so [maxLen] is 11; the
    prefix [Task.do] computes for the first client is its coloured prefix
    with no padding, of display width 10, and it is the prefix given to the
    pumps of its stdout and stderr. *)
Theorem prefix_left_unpadded :
  let p := esc ++ "[32m" ++ "u@h1:22 | " ++ esc ++ "[0m" in
  let t := withClients body [0%nat; 1%nat] in
  maxPrefixLen ansi twoHosts [0%nat; 1%nat] 0 = 11 /\
  doPrefix ansi true 11 (RemoteClient h1) = Ok p /\
  displayWidth p = 10 /\
  In (EvPump false 0%nat p)
     (snd (fst (Task_do calm ansi t true 11 twoHosts))).
Proof.
  repeat split. vm_compute. right. right. left. reflexivity.
Qed.

(** Where the guard lets the padding happen, the width is [maxLen]. *)
Example prefix_padded_when_far_apart :
  doPrefix ansi true 30 (RemoteClient h1)
  = Ok (spaces 20 ++ esc ++ "[32m" ++ "u@h1:22 | " ++ esc ++ "[0m")
  /\ displayWidth (spaces 20 ++ esc ++ "[32m" ++ "u@h1:22 | " ++ esc ++ "[0m")
     = 30.
Proof. split; reflexivity. Qed.

(* ================================================================== *)
(** * Host strings *)
(* ================================================================== *)

Lemma substring_0_0 (s : string) : substring 0 0 s = "".
Proof. destruct s; reflexivity. Qed.

Lemma substring_app_l (u v : string) :
  substring 0 (String.length u) (u ++ v) = u.
Proof.
  induction u as [| c u IH]; simpl.
  - apply substring_0_0.
  - now rewrite IH.
Qed.

Lemma substring_all (v : string) : substring 0 (String.length v) v = v.
Proof. induction v as [| c v IH]; simpl; [reflexivity | now rewrite IH]. Qed.

Lemma substring_app_r (u v : string) :
  substring (String.length u) (String.length v) (u ++ v) = v.
Proof.
  induction u as [| c u IH]; simpl.
  - apply substring_all.
  - exact IH.
Qed.

Lemma length_append (u v : string) :
  String.length (u ++ v) = (String.length u + String.length v)%nat.
Proof. induction u as [| c u IH]; simpl; [reflexivity | now rewrite IH]. Qed.

Lemma append_assoc (u v t : string) : (u ++ v) ++ t = u ++ v ++ t.
Proof. induction u as [| c u IH]; simpl; [reflexivity | now rewrite IH]. Qed.

Lemma sslice_app_l (u v : string) : sslice (u ++ v) 0 (slen u) = u.
Proof.
  unfold sslice, slen. rewrite Z.sub_0_r, Nat2Z.id. apply substring_app_l.
Qed.

Lemma sslice_app_r (u v : string) :
  sslice (u ++ v) (slen u) (slen (u ++ v)) = v.
Proof.
  unfold sslice, slen. rewrite length_append, Nat2Z.id.
  replace (Z.to_nat (Z.of_nat (String.length u + String.length v)
                     - Z.of_nat (String.length u)))
    with (String.length v) by lia.
  apply substring_app_r.
Qed.

Lemma prefix_empty (s : string) : String.prefix "" s = true.
Proof. destruct s; reflexivity. Qed.

(** [indexFrom] counts from [pos]. *)
Lemma indexFrom_shift (substr s : string) :
  forall pos, 0 <= pos ->
    (indexFrom substr s 0 = -1 /\ indexFrom substr s pos = -1) \/
    (0 <= indexFrom substr s 0 /\
     indexFrom substr s pos = pos + indexFrom substr s 0).
Proof.
  induction s as [| c s IH]; intros pos Hpos; cbn [indexFrom].
  - destruct (String.prefix substr ""); [right; lia | left; auto].
  - destruct (String.prefix substr (String c s)); [right; lia |].
    change (0 + 1) with 1.
    destruct (IH 1 ltac:(lia)) as [[H0 H1] | [H0 H1]];
      destruct (IH (pos + 1) ltac:(lia)) as [[H2 H3] | [H2 H3]];
      rewrite H1, H3; lia.
Qed.

(** A string without [substr] has it neither at the front nor further. *)
Lemma Contains_false_cons (substr : string) (c : ascii) (s : string) :
  Contains (String c s) substr = false ->
  String.prefix substr (String c s) = false /\ Contains s substr = false.
Proof.
  unfold Contains, Index. intros H. apply Z.leb_gt in H.
  cbn [indexFrom] in H. change (0 + 1) with 1 in H.
  destruct (String.prefix substr (String c s)); [lia |].
  split; [reflexivity |]. apply Z.leb_gt.
  destruct (indexFrom_shift substr s 1 ltac:(lia)) as [[H0 H1] | [H0 H1]];
    lia.
Qed.

Lemma Contains_false_empty (substr : string) :
  Contains "" substr = false -> String.prefix substr "" = false.
Proof.
  unfold Contains, Index. cbn [indexFrom]. intros H.
  destruct (String.prefix substr ""); [discriminate | reflexivity].
Qed.

(** Without an occurrence, [LastIndex] keeps what it had. *)
Lemma lastIndexFrom_absent (substr s : string) :
  Contains s substr = false ->
  forall pos best, lastIndexFrom substr s pos best = best.
Proof.
  induction s as [| c s IH]; intros H pos best; cbn [lastIndexFrom].
  - now rewrite (Contains_false_empty substr H).
  - apply Contains_false_cons in H as [Hp Hs]. rewrite Hp. now apply IH.
Qed.

Lemma LastIndex_absent (s : string) :
  Contains s "@" = false -> LastIndex s "@" = -1.
Proof. intros H. unfold LastIndex. now apply lastIndexFrom_absent. Qed.

(** The last [@] of [u@hp] is the one written, when [hp] has none. *)
Lemma lastIndexFrom_at (u hp : string) :
  Contains hp "@" = false ->
  forall pos best,
    lastIndexFrom "@" (u ++ "@" ++ hp) pos best = pos + slen u.
Proof.
  intros H. induction u as [| c u IH]; intros pos best.
  - change ("" ++ "@" ++ hp) with (String "@" hp).
    cbn [lastIndexFrom].
    replace (String.prefix "@" (String "@" hp)) with true
      by (simpl; now rewrite prefix_empty).
    rewrite (lastIndexFrom_absent "@" hp H). unfold slen. simpl. lia.
  - change (String c u ++ "@" ++ hp) with (String c (u ++ "@" ++ hp)).
    cbn [lastIndexFrom]. rewrite IH. unfold slen. simpl String.length. lia.
Qed.

Lemma LastIndex_at (u hp : string) :
  Contains hp "@" = false -> LastIndex (u ++ "@" ++ hp) "@" = slen u.
Proof. intros H. unfold LastIndex. now rewrite lastIndexFrom_at. Qed.

(** [parseHost], read through the parts of the host string. *)
Lemma parseHost_parts (w : Sys) (raw : string) (c : SSH.SSHClient) :
  parseHost w raw c =
  let c1 := match userPart raw with Some u => set_user u c | None => c end in
  let finish c2 :=
    if Contains (hostPart raw) "/" then
      (c2, [], Error (ErrConnect (SSH.user c2) (hostPart raw)
                                 "unexpected slash in the host URL"))
    else (set_host (withPort (hostPart raw)) c2, [], Ok tt) in
  if String.eqb (SSH.user c1) "" then
    match user_Current w with
    | Fail e => (c1, [], Error e)
    | Done u => finish (set_user (Username u) c1)
    end
  else finish c1.
Proof.
  unfold parseHost, userPart, hostPart, withPort. cbv zeta.
  fold (stripSchema raw).
  set (host := stripSchema raw).
  unfold bindM, get, modify, throw, ret.
  destruct (negb (LastIndex host "@" =? -1)); cbn [fst snd].
  - destruct (String.eqb (SSH.user (set_user _ c)) ""); cbn.
    + destruct (user_Current w); cbn; [| reflexivity].
      destruct (Contains _ "/"); cbn; [reflexivity |].
      destruct (negb (Contains _ ":")); reflexivity.
    + destruct (Contains _ "/"); cbn; [reflexivity |].
      destruct (negb (Contains _ ":")); reflexivity.
  - destruct (String.eqb (SSH.user c) ""); cbn.
    + destruct (user_Current w); cbn; [| reflexivity].
      destruct (Contains _ "/"); cbn; [reflexivity |].
      destruct (negb (Contains _ ":")); reflexivity.
    + destruct (Contains _ "/"); cbn; [reflexivity |].
      destruct (negb (Contains _ ":")); reflexivity.
Qed.

Lemma stripSchema_schema (rest : string) :
  rest <> "" -> stripSchema ("ssh://" ++ rest) = rest.
Proof.
  intros Hne. unfold stripSchema.
  assert (Hlen : (slen ("ssh://" ++ rest) >? 6) = true).
  { rewrite slen_app. change (slen "ssh://") with 6.
    destruct rest as [| c rest]; [congruence |].
    unfold slen. simpl String.length. apply Z.gtb_lt. lia. }
  rewrite Hlen. change 6 with (slen "ssh://") at 1.
  rewrite sslice_app_l. simpl andb. cbv iota.
  change 6 with (slen "ssh://"). apply sslice_app_r.
Qed.

Lemma stripSchema_plain (s : string) :
  HasPrefix s "ssh://" = false -> stripSchema s = s.
Proof.
  intros H. unfold stripSchema.
  destruct (String.eqb_spec (sslice s 0 6) "ssh://") as [Heq | Hneq].
  - unfold sslice in Heq. simpl in Heq.
    apply (proj2 (prefix_correct "ssh://" s)) in Heq.
    unfold HasPrefix in H. congruence.
  - now rewrite andb_false_r.
Qed.

(** A host string written as [[ssh://][user@]host[:port]] is taken apart
    into the user and the host it was written from. *)
Lemma hostString_parts (schema : bool) (user : option string) (hp : string) :
  Contains hp "@" = false ->
  (if schema then hostString false user hp <> ""
   else HasPrefix (hostString false user hp) "ssh://" = false) ->
  userPart (hostString schema user hp) = user /\
  hostPart (hostString schema user hp) = hp.
Proof.
  intros Hat Hschema.
  assert (Hstrip : stripSchema (hostString schema user hp)
                   = hostString false user hp).
  { destruct schema.
    - apply (stripSchema_schema (hostString false user hp) Hschema).
    - apply (stripSchema_plain (hostString false user hp) Hschema). }
  unfold userPart, hostPart. cbv zeta. rewrite Hstrip.
  unfold hostString. change ("" ++ ?x) with x.
  destruct user as [u |].
  - rewrite append_assoc, (LastIndex_at u hp Hat).
    replace (negb (slen u =? -1)) with true
      by (symmetry; apply negb_true_iff, Z.eqb_neq;
          pose proof (slen_nonneg u); lia).
    split.
    + now rewrite sslice_app_l.
    + rewrite <- append_assoc.
      replace (slen u + 1) with (slen (u ++ "@"))
        by (rewrite slen_app; reflexivity).
      apply sslice_app_r.
  - change ("" ++ hp) with hp. rewrite (LastIndex_absent hp Hat).
    split; reflexivity.
Qed.

(** [NewSSHClient] on a host string that is no alias. *)
Lemma NewSSHClient_no_alias (w : Sys) (pal : Palette) (raw env : string)
  (i : Z) (cfg : list SSHHost) :
  lookupAlias raw cfg = None ->
  NewSSHClient w pal raw env i cfg =
  match parseHost w raw (parsedClient pal i "" raw (env ++ exportSupHost raw))
  with
  | (c, _, r) => (c, r)
  end.
Proof.
  intros Hno. unfold NewSSHClient. rewrite Hno.
  unfold bindM, modify. cbn [fst snd].
  change (set_env (env ++ exportSupHost raw)
            (SSH.mk None None "" raw None None None false false false ""
                    (colorOf pal i) None))
    with (parsedClient pal i "" raw (env ++ exportSupHost raw)).
  destruct (parseHost w raw _) as [[c tr] r]. destruct r; reflexivity.
Qed.

(** C4, as the code has it.  A host string written as
    [[ssh://][user@]host[:port]] that matches no ssh-config alias yields the
    client whose user is the one written (the current OS user when none is
    written), whose address is the host with its port (port 22 when none is
    written), and whose env prelude is the one given followed by
    [export SUP_HOST="..."] holding the host string as it was given, schema
    and user included.  The host strings ssh://user@h:22 and user@h yield
    the same user and the same address, and env preludes that differ in the
    value of SUP_HOST. *)
Theorem NewSSHClient_parses (w : Sys) (pal : Palette) (env : string) (i : Z)
  (cfg : list SSHHost) (schema : bool) (user : option string) (hp : string)
  (current : OsUser) :
  lookupAlias (hostString schema user hp) cfg = None ->
  Contains hp "@" = false ->
  Contains hp "/" = false ->
  (if schema then hostString false user hp <> ""
   else HasPrefix (hostString false user hp) "ssh://" = false) ->
  (userOr "" user = "" -> user_Current w = Done current) ->
  NewSSHClient w pal (hostString schema user hp) env i cfg
  = (parsedClient pal i (userOr (Username current) user) (withPort hp)
       (env ++ exportSupHost (hostString schema user hp)),
     Ok tt) /\
  NewSSHClient w pal "ssh://user@h:22" env i []
  = (parsedClient pal i "user" "h:22"
       (env ++ exportSupHost "ssh://user@h:22"), Ok tt) /\
  NewSSHClient w pal "user@h" env i []
  = (parsedClient pal i "user" "h:22" (env ++ exportSupHost "user@h"), Ok tt).
Proof.
  intros Hno Hat Hslash Hschema Hcurrent. split; [| split; reflexivity].
  rewrite (NewSSHClient_no_alias w pal _ env i cfg Hno).
  rewrite parseHost_parts.
  destruct (hostString_parts schema user hp Hat Hschema) as [-> ->].
  cbv zeta. rewrite Hslash.
  destruct user as [u |]; simpl.
  - destruct (String.eqb_spec u "") as [-> | Hu].
    + rewrite (Hcurrent eq_refl). reflexivity.
    + reflexivity.
  - rewrite (Hcurrent eq_refl). reflexivity.
Qed.

(** [NewSSHClient_parses] on the host string example.com:2222, for the
    user deploy of the process. *)
Lemma NewSSHClient_parses_witness :
  NewSSHClient calm ansi "example.com:2222" "" 1 []
  = (parsedClient ansi 1 "deploy" "example.com:2222"
       (exportSupHost "example.com:2222"), Ok tt).
Proof.
  refine (proj1 (NewSSHClient_parses calm ansi "" 1 [] false None
                   "example.com:2222" deploy _ _ _ _ _));
    reflexivity.
Defined.

(** C4, as the claim has it, fails: the two host strings do not yield the
    same client, and the env prelude does not hold the resolved host. *)
Lemma same_host_different_prelude :
  let a := fst (NewSSHClient calm ansi "ssh://user@h:22" "" 1 []) in
  let b := fst (NewSSHClient calm ansi "user@h" "" 1 []) in
  a <> b /\
  SSH.host a = "h:22" /\ SSH.host b = "h:22" /\
  SSH.env a = exportSupHost "ssh://user@h:22" /\
  SSH.env b = exportSupHost "user@h" /\
  SSH.env b <> exportSupHost (SSH.host b).
Proof. repeat split; discriminate. Qed.

(* ------------------------------------------------------------------ *)
(** ** A slash in the host *)

Lemma localhost_has_no_slash (raw : string) :
  Contains (hostPart raw) "/" = true -> String.eqb raw "localhost" = false.
Proof.
  intros H. destruct (String.eqb_spec raw "localhost") as [-> | Hne];
    [discriminate | reflexivity].
Qed.

(** The error [NewSSHClient] returns does not depend on the env prelude
    nor on the colour of the client. *)
Lemma NewSSHClient_slash (w : Sys) (pal : Palette) (raw : string)
  (cfg : list SSHHost) :
  lookupAlias raw cfg = None ->
  Contains (hostPart raw) "/" = true ->
  forall env i,
    snd (NewSSHClient w pal raw env i cfg) =
    match userOr "" (userPart raw), user_Current w with
    | EmptyString, Fail e => Error e
    | EmptyString, Done current =>
        Error (ErrConnect (Username current) (hostPart raw)
                          "unexpected slash in the host URL")
    | user, _ =>
        Error (ErrConnect user (hostPart raw)
                          "unexpected slash in the host URL")
    end.
Proof.
  intros Hno Hslash env i.
  rewrite (NewSSHClient_no_alias w pal raw env i cfg Hno).
  rewrite parseHost_parts. cbv zeta. rewrite Hslash. unfold userOr.
  destruct (userPart raw) as [u |]; simpl.
  - destruct (String.eqb_spec u "") as [-> | Hu]; simpl.
    + destruct (user_Current w); reflexivity.
    + destruct u; [congruence | reflexivity].
  - destruct (user_Current w); reflexivity.
Qed.

(** C9, as the code has it.  For a host string that matches no ssh-config
    alias and still holds a slash once the schema and the portion up to the
    last [@] are stripped: when the host string names a user, or the current
    OS user can be looked up, [NewSSHClient] fails with the [ErrConnect] of
    that user and of the stripped host whose reason is "unexpected slash in
    the host URL"; when it names no user and the lookup fails, [NewSSHClient]
    fails with the error of the lookup.  Either way no connection is
    attempted: the goroutine of the host reports the error wrapped in
    "create new ssh client", dials nothing and registers no client, and for
    a bastion [Run] returns the error wrapped in "create bastion" before any
    dial. *)
Theorem slash_in_host_refused (w : Sys) (pal : Palette)
  (bastion : option SSH.SSHClient) (raw env : string) (i : Z)
  (cfg : list SSHHost) (h : Heap) :
  lookupAlias raw cfg = None ->
  Contains (hostPart raw) "/" = true ->
  (forall current,
     (userOr "" (userPart raw) = "" -> user_Current w = Done current) ->
     let err := ErrConnect (userOr (Username current) (userPart raw))
                           (hostPart raw)
                           "unexpected slash in the host URL" in
     snd (NewSSHClient w pal raw env i cfg) = Error err /\
     networkHost w pal bastion raw env i cfg h
     = (h, [], Error (wrapped err "create new ssh client")) /\
     (forall network, Bastion network = raw ->
        connectBastion w pal network cfg
        = ([], Error (wrapped err "create bastion")))) /\
  (forall e,
     userOr "" (userPart raw) = "" -> user_Current w = Fail e ->
     snd (NewSSHClient w pal raw env i cfg) = Error e /\
     networkHost w pal bastion raw env i cfg h
     = (h, [], Error (wrapped e "create new ssh client")) /\
     (forall network, Bastion network = raw ->
        connectBastion w pal network cfg
        = ([], Error (wrapped e "create bastion")))).
Proof.
  intros Hno Hslash.
  pose proof (NewSSHClient_slash w pal raw cfg Hno Hslash) as Hnew.
  assert (Hhost : forall err,
            (forall env i, snd (NewSSHClient w pal raw env i cfg) = Error err) ->
            snd (NewSSHClient w pal raw env i cfg) = Error err /\
            networkHost w pal bastion raw env i cfg h
            = (h, [], Error (wrapped err "create new ssh client")) /\
            (forall network, Bastion network = raw ->
               connectBastion w pal network cfg
               = ([], Error (wrapped err "create bastion")))).
  { intros err Herr. split; [apply Herr |]. split.
    - unfold networkHost. rewrite (localhost_has_no_slash raw Hslash).
      specialize (Herr env i).
      destruct (NewSSHClient w pal raw env i cfg) as [c r].
      simpl in Herr. subst r. reflexivity.
    - intros network Hb. unfold connectBastion. rewrite Hb.
      assert (Hne : String.eqb raw "" = false).
      { destruct (String.eqb_spec raw "") as [-> | Hne];
          [discriminate | reflexivity]. }
      rewrite Hne. simpl negb. cbv iota.
      specialize (Herr "bastion" 0).
      destruct (NewSSHClient w pal raw "bastion" 0 cfg) as [c r].
      simpl in Herr. subst r. reflexivity. }
  split.
  - intros current Hcurrent err. apply Hhost. intros env' i'.
    rewrite Hnew. subst err. unfold userOr in *.
    destruct (userPart raw) as [u |].
    + destruct (String.eqb_spec u "") as [Hu | Hu].
      * rewrite (Hcurrent eq_refl). reflexivity.
      * destruct u; [congruence | reflexivity].
    + rewrite (Hcurrent eq_refl). reflexivity.
  - intros e Hnone Hfail. apply Hhost. intros env' i'.
    rewrite Hnew, Hnone, Hfail. reflexivity.
Qed.

(** [slash_in_host_refused] on the host string root@example.com/srv. *)
Lemma slash_in_host_refused_witness :
  networkHost calm ansi None "root@example.com/srv" "" 1 [] []
  = ([], [],
     Error (wrapped (ErrConnect "root" "example.com/srv"
                                "unexpected slash in the host URL")
                    "create new ssh client")).
Proof.
  refine (proj1 (proj2 (proj1 (slash_in_host_refused calm ansi None
                                 "root@example.com/srv" "" 1 [] [] _ _)
                          deploy _)));
    [reflexivity | reflexivity | discriminate].
Defined.

(** C9, as the claim has it, fails: for the host string h/x, which names no
    user, in a process whose user cannot be looked up, [NewSSHClient] fails
    with the error of the lookup, not with an [ErrConnect]. *)
Lemma slash_after_failed_lookup :
  Contains (hostPart "h/x") "/" = true /\
  lookupAlias "h/x" [] = None /\
  snd (NewSSHClient noUser ansi "h/x" "" 1 [])
  = Error (errorString "user: Current requires cgo or $USER") /\
  (forall user host reason,
     snd (NewSSHClient noUser ansi "h/x" "" 1 [])
     <> Error (ErrConnect user host reason)).
Proof. repeat split. discriminate. Qed.

(** A client fresh from [NewSSHClient] has neither connection nor session
    open, whether construction failed or not. *)
Lemma NewSSHClient_closed (w : Sys) (pal : Palette) (host env : string)
  (i : Z) (cfg : list SSHHost) :
  let c := fst (NewSSHClient w pal host env i cfg) in
  SSH.connOpened c = false /\ SSH.sessOpened c = false.
Proof.
  unfold NewSSHClient.
  destruct (lookupAlias host cfg) as [sshHost |].
  - unfold adoptAlias.
    unfold bindM, get, modify, throw, ret. simpl.
    destruct (Port sshHost >? 0); simpl;
      (destruct (negb (String.eqb (IdentityFile sshHost) "")); simpl;
       [ destruct (getPrivateKey w _) as [signer [e |]]; simpl; split;
         reflexivity
       | split; reflexivity ]).
  - pose proof (parseHost_parts w host
                  (set_env (env ++ exportSupHost host)
                     (SSH.mk None None "" host None None None false false
                             false "" (colorOf pal i) None))) as Hparts.
    unfold bindM, modify. cbn [fst snd]. rewrite Hparts. cbv zeta.
    destruct (userPart host) as [u |]; simpl;
      repeat match goal with
             | |- context [if ?b then _ else _] => destruct b; simpl
             | |- context [match user_Current w with _ => _ end] =>
                 destruct (user_Current w); simpl
             end;
      split; reflexivity.
Qed.

(** [Close] on a client that was never connected. *)
Corollary Close_never_connected (w : Sys) (pal : Palette) (host env : string)
  (i : Z) (cfg : list SSHHost) :
  let c := fst (NewSSHClient w pal host env i cfg) in
  SSHClient_Close w c
  = (c, [], Error (errorString
                     "Trying to close the already closed connection")).
Proof.
  destruct (NewSSHClient_closed w pal host env i cfg) as [Hconn Hsess].
  exact (Close_not_open w _ Hconn Hsess).
Qed.

(* ================================================================== *)
(** * The engine never builds tasks without a client *)
(* ================================================================== *)

Lemma createTasks_sound (w : Sys) (sup : Stackup) (cmd : Command)
  (clients : list Client) (env : string) (h : Heap) :
  clients <> [] ->
  soundCall (mkCreateCall cmd clients
                          (snd (createTasks w sup cmd clients env h))).
Proof.
  intros Hne. split; [exact Hne |]. split.
  - intros m. apply createTasks_no_panic. exact Hne.
  - simpl. intros ts Hts.
    apply createTasks_shape in Hts
      as (ups & scr & loc & run & -> & Hu & _ & Hs & _ & Hl & _ & Hr & _);
      [| exact Hne].
    pose proof (groups_nonempty cmd clients Hne) as Hg.
    assert (Hin : forall l, Forall (inGroups (groups cmd clients)) l ->
                            Forall (fun t => 1 <= len (Clients t)) l).
    { intros l. apply Forall_impl. intros t Ht.
      exact (proj1 (Forall_forall _ _) Hg _ Ht). }
    repeat (apply Forall_app; split); auto.
    revert Hl. apply Forall_impl. intros t [c ->]. unfold len. simpl. lia.
Qed.

Lemma runCommands_sound (w : Sys) (pal : Palette) (sup : Stackup)
  (clients : list Client) (env : string) (maxLen : Z) :
  clients <> [] ->
  forall commands h,
    Forall soundCall
      (snd (fst (runCommands w pal sup clients env maxLen commands h))).
Proof.
  intros Hne. induction commands as [| cmd rest IH]; intros h; simpl.
  - constructor.
  - pose proof (createTasks_sound w sup cmd clients env h Hne) as Hcall.
    destruct (createTasks w sup cmd clients env h) as [h1 r]. simpl in Hcall.
    destruct r as [tasks | e | m | code]; simpl;
      try (constructor; [exact Hcall | constructor]).
    destruct (doTasks w pal (prefix sup) maxLen tasks h1) as [[h2 tr] r2].
    destruct r2 as [[] | e | m | code]; simpl;
      try (constructor; [exact Hcall | constructor]).
    specialize (IH h2).
    destruct (runCommands w pal sup clients env maxLen rest h2)
      as [[[h3 tr'] calls] r']. simpl in *.
    constructor; assumption.
Qed.

(** Every goroutine of [Run] sends on one of the two channels. *)
Lemma connectHosts_all (w : Sys) (pal : Palette)
  (bastion : option SSH.SSHClient) (env : string) (cfg : list SSHHost) :
  forall hosts i h h' tr clients errs,
    connectHosts w pal bastion env cfg i hosts h = (h', tr, Ok (clients, errs)) ->
    (List.length clients + List.length errs = List.length hosts)%nat.
Proof.
  induction hosts as [| host rest IH]; intros i h h' tr clients errs H;
    simpl in H.
  - unfold ret in H. injection H as <- <- <- <-. reflexivity.
  - destruct (networkHost w pal bastion host env (i + 1) cfg h)
      as [[h1 tr1] r1].
    destruct r1 as [c | e | m | code]; try discriminate.
    + destruct (connectHosts w pal bastion env cfg (i + 1) rest h1)
        as [[h2 tr2] r2] eqn:Hrest.
      destruct r2 as [[cs es] | e | m | code]; try discriminate.
      injection H as <- <- <- <-. apply IH in Hrest. simpl. lia.
    + destruct (connectHosts w pal bastion env cfg (i + 1) rest h1)
        as [[h2 tr2] r2] eqn:Hrest.
      destruct r2 as [[cs es] | e' | m | code]; try discriminate.
      injection H as <- <- <- <-. apply IH in Hrest. simpl. lia.
Qed.

Lemma Stackup_Run_sound (w : Sys) (pal : Palette) (sup : Stackup)
  (cfg : list SSHHost) (network : Network) (envVars : EnvList)
  (commands : list Command) (h : Heap) :
  Hosts network <> [] ->
  Forall soundCall
    (snd (fst (Stackup_Run w pal sup cfg network envVars commands h))).
Proof.
  intros Hhosts. unfold Stackup_Run.
  destruct (len commands =? 0); [constructor |].
  destruct (connectBastion w pal network cfg) as [tr0 rb].
  destruct rb as [bastion | e | m | code]; try constructor.
  destruct (connectHosts w pal bastion (AsExport envVars) cfg 0
                         (Hosts network) h) as [[h1 tr1] r1] eqn:Hconn.
  destruct r1 as [[clients errs] | e | m | code]; try constructor.
  apply connectHosts_all in Hconn.
  destruct errs as [| err errs].
  - assert (Hne : clients <> []).
    { destruct clients; [| discriminate].
      destruct (Hosts network); [congruence | simpl in Hconn; lia]. }
    pose proof (runCommands_sound w pal sup clients (AsExport envVars)
                  (maxPrefixLen pal h1 clients 0) Hne commands h1) as Hrun.
    destruct (runCommands w pal sup clients (AsExport envVars)
                (maxPrefixLen pal h1 clients 0) commands h1)
      as [[[h2 tr2] calls] r].
    simpl in Hrun.
    destruct r as [[] | e | m | code]; simpl;
      try (destruct (closeAll w _ _ h2) as [[h3 tr3] res]); exact Hrun.
  - simpl. destruct (closeAll w _ _ h1) as [[h3 tr3] res]. constructor.
Qed.

Lemma parseArgs_hosts (w : Sys) (fl : Flags) (conf : Supfile)
  (tr : list event) (network : Network) (commands : list Command) :
  parseArgs w fl conf = (tr, Ok (network, commands)) ->
  Hosts network <> [].
Proof.
  unfold parseArgs. intros H.
  destruct (Args_ fl) as [| arg0 args1]; [discriminate |].
  destruct (Get (Networks conf) arg0) as [nw |]; [| discriminate].
  destruct (ParseInventory w _) as [hosts | e]; [| discriminate].
  cbn [Hosts withHosts withEnv] in H.
  destruct (Z.eqb_spec (len (Hosts nw ++ hosts)%list) 0) as [H0 | Hpos];
    [discriminate |].
  destruct (len (arg0 :: args1) <? 2); [discriminate |].
  destruct (argCommands conf args1 []) as [tr' r].
  destruct r; try discriminate.
  injection H as <- <- <-. simpl.
  intros Hnil. rewrite Hnil in Hpos. now apply Hpos.
Qed.

Lemma filterHosts_nonempty (w : Sys) (expr : string) (keep : bool)
  (msg : string) (hosts hosts' : list string) :
  hosts <> [] -> filterHosts w expr keep msg hosts = Ok hosts' ->
  hosts' <> [].
Proof.
  intros Hne. unfold filterHosts.
  destruct (negb (String.eqb expr "")); [| congruence].
  destruct (regexp_CompilePOSIX w expr) as [re | e]; [| discriminate].
  destruct (Z.eqb_spec (len (filter (fun host =>
              Bool.eqb (regexp_MatchString w re host) keep) hosts)) 0)
    as [H0 | Hpos]; [discriminate |].
  intros [= <-] Hnil. rewrite Hnil in Hpos. now apply Hpos.
Qed.

Lemma mainRun_sound (w : Sys) (pal : Palette) (fl : Flags) (conf : Supfile)
  (network : Network) (commands : list Command) (tr : list event) :
  Hosts network <> [] ->
  Forall soundCall (snd (fst (mainRun w pal fl conf network commands tr))).
Proof.
  intros Hhosts. unfold mainRun, die.
  destruct (resolvePath w _); try constructor.
  destruct (sshconfig_Parse w _) as [cfg | e]; [| constructor].
  destruct (ResolveValues w _) as [vars | e]; [| constructor].
  match goal with
  | |- context [Stackup_Run w pal ?app cfg network ?vars' commands []] =>
      pose proof (Stackup_Run_sound w pal app cfg network vars' commands []
                    Hhosts) as Hrun;
      destruct (Stackup_Run w pal app cfg network vars' commands [])
        as [[[h' tr'] calls] r]
  end.
  simpl in Hrun. destruct r; exact Hrun.
Qed.

Lemma mainConf_sound (w : Sys) (pal : Palette) (fl : Flags) (conf : Supfile) :
  Forall soundCall (snd (fst (mainConf w pal fl conf))).
Proof.
  unfold mainConf, die.
  destruct (parseArgs w fl conf) as [tr r] eqn:Hargs.
  destruct r as [[network commands] | e | m | code]; try constructor.
  apply parseArgs_hosts in Hargs.
  destruct (filterHosts w (onlyHosts fl) true _ (Hosts network))
    as [hosts | e | m | code] eqn:Honly; try constructor.
  apply (filterHosts_nonempty _ _ _ _ _ _ Hargs) in Honly.
  destruct (filterHosts w (exceptHosts fl) false _ hosts)
    as [hosts' | e | m | code] eqn:Hexcept; try constructor.
  apply (filterHosts_nonempty _ _ _ _ _ _ Honly) in Hexcept.
  apply mainRun_sound. exact Hexcept.
Qed.

(** C7.  A network that has no host once its inventory is added is
    refused by [parseArgs] with the error "No hosts defined for a given
    network": [main] prints it and exits with status 1 without building a
    task.  In every run of [main], each call of [createTasks] is given at
    least one client, so it does not panic (the first-client indexing of a
    [once] command is in range) and every task it returns is bound to at
    least one client. *)
Theorem no_task_without_client (w : Sys) (pal : Palette) (fl : Flags) :
  (forall conf arg0 args1 network hosts,
     Args_ fl = arg0 :: args1 ->
     Get (Networks conf) arg0 = Some network ->
     ParseInventory w (withEnv network (cliEnv (envVars fl) (NEnv network)))
     = Done hosts ->
     (Hosts network ++ hosts)%list = [] ->
     parseArgs w fl conf = ([usage false], Error ErrNetworkNoHosts) /\
     mainConf w pal fl conf
     = ([usage false; EvStderr "" ErrNetworkNoHosts], [], Exit 1)) /\
  Forall soundCall (snd (fst (main w pal fl))).
Proof.
  split.
  - intros conf arg0 args1 network hosts Hargs Hget Hinv Hnil.
    assert (Hparse : parseArgs w fl conf
                     = ([usage false], Error ErrNetworkNoHosts)).
    { unfold parseArgs. rewrite Hargs, Hget, Hinv.
      cbn [Hosts withHosts withEnv]. rewrite Hnil. reflexivity. }
    split; [exact Hparse |].
    unfold mainConf. rewrite Hparse. reflexivity.
  - unfold main.
    destruct (showHelp fl); [constructor |].
    destruct (showVersion fl); [constructor |].
    unfold die.
    destruct (resolvePath w _); try constructor.
    destruct (readSupfile w a); [| constructor].
    destruct (NewSupfile w s) as [conf | e]; [| constructor].
    apply mainConf_sound.
Qed.

(** [no_task_without_client] on the command line [sup prod build], for
    a network [prod] without hosts. *)
Lemma no_task_without_client_witness :
  mainConf calm ansi supProdBuild emptyProd
  = ([usage false; EvStderr "" ErrNetworkNoHosts], [], Exit 1).
Proof.
  refine (proj2 (proj1 (no_task_without_client calm ansi supProdBuild)
                   emptyProd "prod" ["build"] (mkNetwork [] "" [] "") []
                   _ _ _ _));
    reflexivity.
Defined.

(** Scenario 3 of the specification: hosts h1, h2, h3 and a [once]
    command; the one task is bound to the first client. *)
Example once_on_three_hosts :
  let network := mkNetwork [] "" ["h1"; "h2"; "h3"] "" in
  snd (fst (Stackup_Run calm ansi (mkStackup false true) [] network []
                        [build] []))
  = [mkCreateCall build three
       (Ok [mkTask "sudo docker build ." None [0%nat] true])]
  /\ snd (Stackup_Run calm ansi (mkStackup false true) [] network []
                      [build] []) = Ok tt.
Proof. split; reflexivity. Qed.

(** Without the refusal, a [once] command on no client at all would index
    an empty slice. *)
Example once_without_clients :
  snd (createTasks calm (mkStackup false true) build [] "" [])
  = Panic "index out of range [0] with length 0".
Proof. reflexivity. Qed.

(** The whole of [main] on [sup prod build], three hosts: one call of
    [createTasks] with the three clients, one task bound to the first, and
    exit status 0. *)
Example main_once_on_three_hosts :
  snd (fst (main calm ansi supProdBuild))
  = [mkCreateCall (withName build "build") three
       (Ok [mkTask "sudo docker build ." None [0%nat] true])]
  /\ snd (main calm ansi supProdBuild) = Ok tt.
Proof. split; reflexivity. Qed.

(** An ssh-config alias is adopted with its host name, user and port, and
    SUP_HOST holds the address it resolves to. *)
Example alias_adopted :
  NewSSHClient calm ansi "www" "" 1 [webAlias]
  = (parsedClient ansi 1 "admin" "10.0.0.5:2222"
       (exportSupHost "10.0.0.5:2222"), Ok tt).
Proof. reflexivity. Qed.

(* ================================================================== *)
(** * The arguments of the local [tar] *)
(* ================================================================== *)

Lemma excludeArgs_spec (TrimSpace : string -> string) (excludes : list string) :
  forall args,
    excludeArgs TrimSpace excludes args
    = (args ++ map (append "--exclude=")
                   (filter (fun t => negb (String.eqb t ""))
                           (map TrimSpace excludes)))%list.
Proof.
  induction excludes as [| exc rest IH]; intros args; simpl.
  - now rewrite app_nil_r.
  - destruct (negb (String.eqb (TrimSpace exc) "")); simpl.
    + rewrite IH, <- app_assoc. reflexivity.
    + apply IH.
Qed.

Lemma Split_nonempty (s : string) (sep : ascii) : Split s sep <> [].
Proof.
  destruct s as [| c s]; simpl; [discriminate |].
  destruct (Ascii.eqb c sep); [discriminate |].
  destruct (Split s sep); discriminate.
Qed.

Lemma Split_len (s : string) (sep : ascii) :
  len (Split s sep) = Count s sep + 1.
Proof.
  induction s as [| c s IH]; simpl; [reflexivity |].
  destruct (Ascii.eqb c sep).
  - change (len ("" :: Split s sep)) with (Z.of_nat (S (List.length (Split s sep)))).
    unfold len in IH. lia.
  - pose proof (Split_nonempty s sep) as Hne.
    destruct (Split s sep) as [| piece rest]; [congruence |].
    unfold len in *. simpl List.length in *. lia.
Qed.

Lemma Split_join (s : string) (sep : ascii) :
  String.concat (String sep "") (Split s sep) = s.
Proof.
  induction s as [| c s IH]; simpl; [reflexivity |].
  destruct (Ascii.eqb_spec c sep) as [-> | Hc].
  - pose proof (Split_nonempty s sep) as Hne.
    simpl. destruct (Split s sep) as [| piece rest]; [congruence |].
    simpl in *. now rewrite IH.
  - pose proof (Split_nonempty s sep) as Hne.
    destruct (Split s sep) as [| piece rest]; [congruence |].
    simpl in *. destruct rest; simpl in *; now rewrite <- IH.
Qed.

Lemma len_filter_le {A : Type} (f : A -> bool) (l : list A) :
  len (filter f l) <= len l.
Proof.
  unfold len. induction l as [| x l IH]; simpl; [lia |].
  destruct (f x); simpl; lia.
Qed.

(** X1.  The argument vector of the local [tar]: one [--exclude=] option
    for each comma-separated piece of [exclude] that is not blank once
    trimmed, in the order of the pieces, then [-C . -czf -] and the path
    as the last argument.  The pieces joined by commas give back [exclude],
    so there are at most one more options than commas. *)
Theorem LocalTarCmdArgs_excludes (TrimSpace : string -> string)
  (path exclude : string) :
  let patterns := filter (fun t => negb (String.eqb t ""))
                         (map TrimSpace (Split exclude ",")) in
  LocalTarCmdArgs TrimSpace path exclude
  = (map (append "--exclude=") patterns ++ ["-C"; "."; "-czf"; "-"; path])%list
  /\ String.concat "," (Split exclude ",") = exclude
  /\ len patterns <= Count exclude "," + 1.
Proof.
  cbv zeta. split; [| split].
  - unfold LocalTarCmdArgs. now rewrite excludeArgs_spec.
  - apply Split_join.
  - rewrite <- Split_len.
    etransitivity; [apply len_filter_le |].
    unfold len. rewrite length_map. lia.
Qed.

(** Empty pieces are dropped; an empty [exclude] adds no option. *)
Example LocalTarCmdArgs_empty_pieces :
  LocalTarCmdArgs (fun s => s) "./dist" "node_modules,,.git"
  = ["--exclude=node_modules"; "--exclude=.git";
     "-C"; "."; "-czf"; "-"; "./dist"]
  /\ LocalTarCmdArgs (fun s => s) "./dist" ""
     = ["-C"; "."; "-czf"; "-"; "./dist"].
Proof. split; reflexivity. Qed.

(* ================================================================== *)
(** * ssh-config aliases *)
(* ================================================================== *)

Lemma matchesAlias_In (host : string) (patterns : list string) :
  matchesAlias host patterns = true <-> In host patterns.
Proof.
  induction patterns as [| h rest IH]; simpl.
  - split; [discriminate | contradiction].
  - destruct (String.eqb_spec host h) as [-> | Hne].
    + split; auto.
    + rewrite IH. split; [auto |]. intros [H | H]; [congruence | exact H].
Qed.

(** X2.  The alias [NewSSHClient] adopts for a host string is the first
    entry of the ssh-config one of whose [Host] patterns is equal to the
    host string, byte for byte; no entry is adopted exactly when no
    pattern of any entry is equal to it. *)
Theorem lookupAlias_first (host : string) (cfg : list SSHHost) :
  match lookupAlias host cfg with
  | Some a =>
      exists pre post,
        cfg = (pre ++ a :: post)%list /\ In host (Host a) /\
        Forall (fun x => ~ In host (Host x)) pre
  | None => Forall (fun x => ~ In host (Host x)) cfg
  end.
Proof.
  induction cfg as [| x rest IH]; simpl; [constructor |].
  destruct (matchesAlias host (Host x)) eqn:Hm.
  - exists [], rest. split; [reflexivity |]. split; [| constructor].
    now apply matchesAlias_In.
  - assert (Hx : ~ In host (Host x)).
    { intros Hin. apply matchesAlias_In in Hin. congruence. }
    destruct (lookupAlias host rest) as [a |].
    + destruct IH as (pre & post & -> & Hin & Hpre).
      exists (x :: pre), post. split; [reflexivity |]. split; [exact Hin |].
      constructor; assumption.
    + constructor; assumption.
Qed.

(** The address an alias resolves to: the port is appended only when the
    entry has one. *)
Lemma adoptAlias_result (w : Sys) (env : string) (a : SSHHost)
  (c : SSH.SSHClient) :
  let hp := if Port a >? 0 then HostName a ++ ":" ++ Itoa (Port a)
            else HostName a in
  let c0 := set_user (User a) (set_host hp c) in
  adoptAlias w env a c
  = if String.eqb (IdentityFile a) "" then
      (set_env (env ++ exportSupHost hp) c0, [], Ok tt)
    else
      let file := if HasPrefix (IdentityFile a) "~"
                  then Replace1 (IdentityFile a) "~" (os_Getenv w "HOME")
                  else IdentityFile a in
      match getPrivateKey w file with
      | (signer, None) =>
          (set_env (env ++ exportSupHost hp) (set_signer signer c0), [], Ok tt)
      | (signer, Some e) =>
          (set_signer signer c0, [], Error (wrapped e "get private key"))
      end.
Proof.
  destruct c as [conn0 sess0 user host i o e0 co so ru env0 color signer0].
  unfold adoptAlias. unfold bindM, get, modify, throw, ret. simpl.
  destruct (Port a >? 0); simpl;
    (destruct (String.eqb (IdentityFile a) ""); simpl; [reflexivity |];
     destruct (getPrivateKey w _) as [signer [e |]]; reflexivity).
Qed.

(** X3.  A host string that is an alias of the ssh-config is not parsed:
    the client gets the [User] of the entry as it is (no default user, and
    [user.Current] is not consulted), the [HostName] of the entry with
    [:Port] appended only when the port is positive (no default port 22, no
    check for a slash), and SUP_HOST holds that address.  With an identity
    file, the signer it yields is kept; when it cannot be loaded,
    [NewSSHClient] fails with "get private key" and the env prelude, which
    is assigned last, stays empty. *)
Theorem alias_is_not_parsed (w : Sys) (pal : Palette) (host env : string)
  (i : Z) (cfg : list SSHHost) (a : SSHHost) :
  lookupAlias host cfg = Some a ->
  let hp := if Port a >? 0 then HostName a ++ ":" ++ Itoa (Port a)
            else HostName a in
  let file := if HasPrefix (IdentityFile a) "~"
              then Replace1 (IdentityFile a) "~" (os_Getenv w "HOME")
              else IdentityFile a in
  (IdentityFile a = "" ->
     NewSSHClient w pal host env i cfg
     = (parsedClient pal i (User a) hp (env ++ exportSupHost hp), Ok tt)) /\
  (forall signer, IdentityFile a <> "" ->
     getPrivateKey w file = (signer, None) ->
     NewSSHClient w pal host env i cfg
     = (set_signer signer
          (parsedClient pal i (User a) hp (env ++ exportSupHost hp)), Ok tt)) /\
  (forall signer e, IdentityFile a <> "" ->
     getPrivateKey w file = (signer, Some e) ->
     NewSSHClient w pal host env i cfg
     = (set_signer signer (parsedClient pal i (User a) hp ""),
        Error (wrapped e "get private key"))).
Proof.
  intros Ha hp file. unfold NewSSHClient. rewrite Ha.
  rewrite adoptAlias_result. fold hp. fold file.
  repeat split.
  - intros ->. reflexivity.
  - intros signer Hid Hkey.
    destruct (String.eqb_spec (IdentityFile a) "") as [H0 | _]; [contradiction |].
    cbv zeta. fold file. rewrite Hkey. reflexivity.
  - intros signer e Hid Hkey.
    destruct (String.eqb_spec (IdentityFile a) "") as [H0 | _]; [contradiction |].
    cbv zeta. fold file. rewrite Hkey. reflexivity.
Qed.

(** [alias_is_not_parsed] on the alias [www] of an entry without user
    and port whose host name holds a slash: the client is built, with an
    empty user and an address without port, in a process whose user cannot
    be looked up. *)
Lemma alias_is_not_parsed_witness :
  NewSSHClient noUser ansi "www" "" 1 [mkSSHHost ["www"] "10.0.0.5/x" "" 0 ""]
  = (parsedClient ansi 1 "" "10.0.0.5/x" (exportSupHost "10.0.0.5/x"), Ok tt).
Proof.
  refine (proj1 (alias_is_not_parsed noUser ansi "www" "" 1
                   [mkSSHHost ["www"] "10.0.0.5/x" "" 0 ""]
                   (mkSSHHost ["www"] "10.0.0.5/x" "" 0 "") _) _);
    reflexivity.
Defined.

(** A public key named as the identity file is not read: the client is
    built without a signer of its own, and without error. *)
Lemma getPrivateKey_pub (w : Sys) (file : string) :
  HasSuffix file ".pub" = true -> getPrivateKey w file = (None, None).
Proof. unfold getPrivateKey. now intros ->. Qed.

(* ================================================================== *)
(** * The life cycle of an SSH client *)
(* ================================================================== *)

(** Runs a method of a client on a state given by its fields, following
    every answer of the network. *)
Ltac run_method :=
  unfold bindM, get, modify, emit, throw, panic, deref, check, ret; simpl;
  repeat match goal with
         | |- context [match ?x with _ => _ end] =>
             lazymatch x with
             | context [match _ with _ => _ end] => fail
             | _ => destruct x eqn:?; simpl
             end
         end.

Ltac inv_solved :=
  unfold sshInv in *; simpl in *;
  repeat split; intros; try discriminate; try congruence; intuition congruence.

Lemma sshInv_New (w : Sys) (pal : Palette) (host env : string) (i : Z)
  (cfg : list SSHHost) :
  sshInv (fst (NewSSHClient w pal host env i cfg)).
Proof.
  destruct (NewSSHClient_closed w pal host env i cfg) as [Hc Hs].
  assert (Hr : SSH.running (fst (NewSSHClient w pal host env i cfg)) = false).
  { unfold NewSSHClient.
    destruct (lookupAlias host cfg) as [a |].
    - rewrite adoptAlias_result. cbv zeta.
      destruct (String.eqb (IdentityFile a) ""); [reflexivity |].
      destruct (getPrivateKey w _) as [signer [e |]]; reflexivity.
    - pose proof (parseHost_parts w host
                    (set_env (env ++ exportSupHost host)
                       (SSH.mk None None "" host None None None false false
                               false "" (colorOf pal i) None))) as Hparts.
      unfold bindM, modify. cbn [fst snd]. rewrite Hparts. cbv zeta.
      destruct (userPart host) as [u |]; simpl;
        repeat match goal with
               | |- context [if ?b then _ else _] => destruct b; simpl
               | |- context [match user_Current w with _ => _ end] =>
                   destruct (user_Current w); simpl
               end; reflexivity. }
  unfold sshInv. rewrite Hc, Hs, Hr. repeat split; discriminate.
Qed.

Lemma sshInv_ConnectWith (w : Sys) (d : dialer) (c : SSH.SSHClient) :
  sshInv c -> sshInv (fst (fst (SSHClient_ConnectWith w d c))).
Proof.
  destruct c as [conn0 sess0 user host i o e0 co so ru env color signer].
  intros H. unfold SSHClient_ConnectWith, dial. run_method; inv_solved.
Qed.

Lemma sshInv_Run (w : Sys) (task : Task) (c : SSH.SSHClient) :
  sshInv c -> sshInv (fst (fst (SSHClient_Run w task c))).
Proof.
  destruct c as [conn0 sess0 user host i o e0 co so ru env color signer].
  destruct task as [run input clients tty].
  intros H. unfold SSHClient_Run, openSession, assignPipe.
  run_method; inv_solved.
Qed.

Lemma sshInv_Wait (w : Sys) (c : SSH.SSHClient) :
  sshInv c -> sshInv (fst (fst (SSHClient_Wait w c))).
Proof.
  destruct c as [conn0 sess0 user host i o e0 co so ru env color signer].
  intros H. unfold SSHClient_Wait. run_method; inv_solved.
Qed.

Lemma sshInv_Close (w : Sys) (c : SSH.SSHClient) :
  sshInv c -> sshInv (fst (fst (SSHClient_Close w c))).
Proof.
  destruct c as [conn0 sess0 user host i o e0 co so ru env color signer].
  intros H. unfold SSHClient_Close. run_method; inv_solved.
Qed.

Lemma sshInv_WriteClose (w : Sys) (c : SSH.SSHClient) :
  sshInv c -> sshInv (fst (fst (SSHClient_WriteClose w c))).
Proof.
  destruct c as [conn0 sess0 user host i o e0 co so ru env color signer].
  intros H. unfold SSHClient_WriteClose. run_method; inv_solved.
Qed.

Lemma sshInv_Signal (w : Sys) (sig : Signal) (c : SSH.SSHClient) :
  sshInv c -> sshInv (fst (fst (SSHClient_Signal w sig c))).
Proof.
  destruct c as [conn0 sess0 user host i o e0 co so ru env color signer].
  intros H. unfold SSHClient_Signal. run_method; inv_solved.
Qed.

Lemma sshReach_inv (c : SSH.SSHClient) : sshReach c -> sshInv c.
Proof.
  induction 1.
  - apply sshInv_New.
  - now apply sshInv_ConnectWith.
  - now apply sshInv_Run.
  - now apply sshInv_Wait.
  - now apply sshInv_Close.
  - now apply sshInv_WriteClose.
  - now apply sshInv_Signal.
Qed.

(** X4.  On every state an SSH client can reach from [NewSSHClient]
    through its methods, whatever the network answers, [Wait] and [Close]
    follow no nil pointer: they return nil or an error, they never panic
    and never end the process. *)
Theorem Wait_Close_never_panic (c : SSH.SSHClient) :
  sshReach c ->
  forall w,
    (forall m, snd (SSHClient_Wait w c) <> Panic m) /\
    (forall m, snd (SSHClient_Close w c) <> Panic m) /\
    (forall code, snd (SSHClient_Wait w c) <> Exit code) /\
    (forall code, snd (SSHClient_Close w c) <> Exit code).
Proof.
  intros Hreach w. apply sshReach_inv in Hreach.
  destruct c as [conn0 sess0 user host i o e0 co so ru env color signer].
  unfold sshInv in Hreach. simpl in Hreach.
  destruct Hreach as (Hconn & Hsess & Hrun).
  repeat split; intros x; unfold SSHClient_Wait, SSHClient_Close;
    run_method; try discriminate;
    repeat match goal with
           | b : bool |- _ => destruct b; simpl in *; try discriminate
           end;
    repeat match goal with
           | H : ?a = ?a -> _ |- _ => specialize (H eq_refl)
           end; congruence.
Qed.

(** [Wait_Close_never_panic] on a client that was built, connected and
    started on a task. *)
Lemma Wait_Close_never_panic_witness :
  let c := fst (fst (SSHClient_Run calm body
             (fst (fst (SSHClient_ConnectWith calm sshDial
                (fst (NewSSHClient calm ansi "h1" "" 1 []))))))) in
  snd (SSHClient_Wait failed7 c) <> Panic nilDereference.
Proof.
  intros c.
  refine (proj1 (Wait_Close_never_panic c _ failed7) nilDereference).
  apply sshReach_Run. apply sshReach_ConnectWith. apply sshReach_New.
Defined.

(** A client that was never connected is not in that case for [Run]: the
    session is asked of a nil connection. *)
Example Run_before_Connect_panics :
  snd (SSHClient_Run calm body (fst (NewSSHClient calm ansi "h1" "" 1 [])))
  = Panic nilDereference.
Proof. reflexivity. Qed.

(** What [Wait] returns on a running client: the error of the command,
    joined with the error of closing the session unless that is [io.EOF]. *)
Lemma SSHClient_Wait_running (w : Sys) (c : SSH.SSHClient) (s : handle) :
  SSH.running c = true -> SSH.sess c = Some s ->
  SSHClient_Wait w c
  = (set_sessOpened false (set_running false c), [],
     match sess_Wait w s, sess_Close w s with
     | None, None => Ok tt
     | None, Some e => if isEOF e then Ok tt else Error (multiError [e])
     | Some err, None => Error err
     | Some err, Some e =>
         if isEOF e then Error err
         else Error (multierror_Append (Some err) e)
     end).
Proof.
  destruct c as [conn0 sess0 user host i o e0 co so ru env color signer].
  simpl. intros -> ->. unfold SSHClient_Wait.
  unfold bindM, get, modify, throw, deref, check, ret. simpl.
  destruct (sess_Wait w s) as [err |], (sess_Close w s) as [e |];
    try destruct (isEOF e); reflexivity.
Qed.

(** What a [Run] that returned nil has done to the client. *)
Lemma SSHClient_Run_ok (w : Sys) (task : Task) (c c1 : SSH.SSHClient)
  (tr : list event) :
  SSHClient_Run w task c = (c1, tr, Ok tt) ->
  SSH.running c1 = true /\ SSH.sessOpened c1 = true /\
  SSH.connOpened c1 = SSH.connOpened c /\
  exists conn s,
    SSH.conn c = Some conn /\ SSH.conn c1 = Some conn /\
    conn_NewSession w conn = Done s /\ SSH.sess c1 = Some s.
Proof.
  destruct c as [conn0 sess0 user host i o e0 co so ru env color signer].
  destruct task as [run input clients tty].
  unfold SSHClient_Run, openSession, assignPipe.
  run_method; intros [= <- <-]; simpl;
    repeat split; eexists; eexists; repeat split; eassumption.
Qed.

(** A [Run] on a client with no session gets as far as asking the
    connection for one, and keeps the session it is given. *)
Lemma SSHClient_Run_opens (w : Sys) (task : Task) (c : SSH.SSHClient)
  (conn s : handle) :
  SSH.running c = false -> SSH.sessOpened c = false ->
  SSH.conn c = Some conn -> conn_NewSession w conn = Done s ->
  let c1 := fst (fst (SSHClient_Run w task c)) in
  SSH.sess c1 = Some s /\ SSH.sessOpened c1 = true /\
  (SSH.running c1 = true <-> snd (SSHClient_Run w task c) = Ok tt).
Proof.
  destruct c as [conn0 sess0 user host i o e0 co so ru env color signer].
  destruct task as [run input clients tty].
  simpl. intros -> -> -> Hs.
  unfold SSHClient_Run, openSession, assignPipe.
  unfold bindM, get, modify, emit, throw, panic, deref, check, ret. simpl.
  rewrite Hs. simpl.
  run_method; repeat split; intros; try discriminate; reflexivity.
Qed.

(** X5.  [Run] and [Wait] bracket a task.  After a [Run] that returned
    nil the client is running with its session open, and a second [Run] is
    refused with "Session already running" before anything is sent.  [Wait]
    then clears [running] and [sessOpened], whatever the command and the
    closing of the session return, and leaves the connection as it is: the
    next [Run] asks the same connection for a new session. *)
Theorem Run_then_Wait (w : Sys) (task : Task) (c c1 : SSH.SSHClient)
  (tr : list event) :
  SSHClient_Run w task c = (c1, tr, Ok tt) ->
  SSH.running c1 = true /\ SSH.sessOpened c1 = true /\
  (forall w' task',
     SSHClient_Run w' task' c1
     = (c1, [], Error (errorString "Session already running"))) /\
  (forall w',
     fst (SSHClient_Wait w' c1)
     = (set_sessOpened false (set_running false c1), []) /\
     (forall m, snd (SSHClient_Wait w' c1) <> Panic m)) /\
  (forall w'' task'' conn s,
     SSH.conn c1 = Some conn -> conn_NewSession w'' conn = Done s ->
     SSH.sess (fst (fst (SSHClient_Run w'' task''
                           (set_sessOpened false (set_running false c1)))))
     = Some s).
Proof.
  intros Hrun.
  apply SSHClient_Run_ok in Hrun
    as (Hru & Hso & Hco & conn & s & _ & Hconn & _ & Hsess).
  split; [exact Hru |]. split; [exact Hso |]. split; [| split].
  - intros w' task'. unfold SSHClient_Run, bindM, get, throw.
    rewrite Hru. reflexivity.
  - intros w'. rewrite (SSHClient_Wait_running w' c1 s Hru Hsess).
    split; [reflexivity |]. intros m. cbn [snd].
    destruct (sess_Wait w' s), (sess_Close w' s) as [e' |];
      try destruct (isEOF e'); discriminate.
  - intros w'' task'' conn' s' Hc Hs.
    apply (SSHClient_Run_opens w'' task'' _ conn' s');
      destruct c1; simpl in *; congruence.
Qed.

(** [Run_then_Wait] on the connected client of host h1 and a remote
    body, the command failing with exit status 7. *)
Lemma Run_then_Wait_witness :
  let c1 := fst (fst (SSHClient_Run calm body h1)) in
  fst (SSHClient_Wait failed7 c1)
  = (set_sessOpened false (set_running false c1), []).
Proof.
  intros c1.
  refine (proj1 (proj1 (proj2 (proj2 (proj2
    (Run_then_Wait calm body h1 c1
       [EvRequestPty 2%nat "xterm" 40 80 1;
        EvStart 2%nat (SSH.env h1 ++ Run body)] _)))) failed7)).
  reflexivity.
Defined.

(** X6.  A [Run] that fails once the connection has given it a session
    (the pseudo terminal is refused, a pipe cannot be made, the command
    does not start, the input cannot be copied or closed) leaves that
    session marked open and not running.  From then on every [Run] on the
    client is refused with "Session already connected" and every [Wait]
    with "Trying to wait on stopped session", nothing being sent, until
    [Close] is called. *)
Theorem failed_Run_wedges (w : Sys) (task : Task) (c c1 : SSH.SSHClient)
  (tr : list event) (e : error) (conn s : handle) :
  SSH.running c = false -> SSH.sessOpened c = false ->
  SSH.conn c = Some conn -> conn_NewSession w conn = Done s ->
  SSHClient_Run w task c = (c1, tr, Error e) ->
  SSH.sessOpened c1 = true /\ SSH.running c1 = false /\
  SSH.sess c1 = Some s /\
  (forall w' task',
     SSHClient_Run w' task' c1
     = (c1, [], Error (errorString "Session already connected"))) /\
  (forall w',
     SSHClient_Wait w' c1
     = (c1, [], Error (errorString "Trying to wait on stopped session"))) /\
  (forall w', SSH.sessOpened (fst (fst (SSHClient_Close w' c1))) = false).
Proof.
  intros Hru Hso Hconn Hs Hrun.
  destruct (SSHClient_Run_opens w task c conn s Hru Hso Hconn Hs)
    as (Hsess & Hopen & Hrunning).
  rewrite Hrun in Hsess, Hopen, Hrunning. cbn [fst snd] in *.
  assert (Hru1 : SSH.running c1 = false).
  { destruct (SSH.running c1); [| reflexivity].
    destruct Hrunning as [H _]. specialize (H eq_refl). discriminate. }
  repeat split; try assumption.
  - intros w' task'. unfold SSHClient_Run, openSession, bindM, get, throw.
    rewrite Hru1. cbn. rewrite Hopen. reflexivity.
  - intros w'. unfold SSHClient_Wait, bindM, get, throw.
    rewrite Hru1. reflexivity.
  - intros w'.
    destruct c1 as [conn1 sess1 user host i o e0 co so ru env color signer].
    clear Hrun. simpl in *. subst. unfold SSHClient_Close.
    run_method; reflexivity.
Qed.

(** [failed_Run_wedges] on the connected client of host h1, on a host
    that refuses the pseudo terminal. *)
Lemma failed_Run_wedges_witness :
  let c1 := fst (fst (SSHClient_Run noPty body h1)) in
  SSHClient_Run calm body c1
  = (c1, [], Error (errorString "Session already connected")).
Proof.
  intros c1.
  refine (proj1 (proj2 (proj2 (proj2
    (failed_Run_wedges noPty body h1 c1
       [EvRequestPty 2%nat "xterm" 40 80 1]
       (wrapped (errorString "pty refused")
                "request for pseudo terminal failed")
       1%nat 2%nat _ _ _ _ _)))) calm body);
    reflexivity.
Defined.

(* ------------------------------------------------------------------ *)
(** ** [Wait] and the reap phase *)

(** X7.  How the reap phase ends for a running SSH client, by what the
    command and the closing of its session return.  The exit status of the
    command decides only when the session closes cleanly or with [io.EOF];
    any other closing error is joined to the error of [Wait], which is then
    no SSH exit error any more: the process ends with exit code 1, also
    when the command itself succeeded. *)
Theorem close_error_ends_with_1 (w : Sys) (pal : Palette) (onPrefix : bool)
  (len_ : Z) (c : SSH.SSHClient) (s : handle) :
  SSH.running c = true -> SSH.sess c = Some s ->
  snd (clientFinish w pal onPrefix len_ (RemoteClient c))
  = match sess_Wait w s, sess_Close w s with
    | None, None => Ok tt
    | None, Some e => if isEOF e then Ok tt else Exit 1
    | Some err, None => Exit (reapCode err)
    | Some err, Some e => if isEOF e then Exit (reapCode err) else Exit 1
    end.
Proof.
  intros Hru Hsess.
  pose proof (SSHClient_Wait_running w c s Hru Hsess) as Hw.
  assert (Hc : Client_Wait w (RemoteClient c)
               = (RemoteClient (fst (fst (SSHClient_Wait w c))),
                  snd (fst (SSHClient_Wait w c)), snd (SSHClient_Wait w c))).
  { unfold Client_Wait, dispatch.
    destruct (SSHClient_Wait w c) as [[c' tr] r]. reflexivity. }
  rewrite Hw in Hc. cbn [fst snd] in Hc.
  destruct (sess_Wait w s) as [err |], (sess_Close w s) as [e |].
  - destruct (isEOF e).
    + now rewrite (clientFinish_error w pal onPrefix len_ _ _ _ _ Hc).
    + rewrite (clientFinish_error w pal onPrefix len_ _ _ _ _ Hc).
      destruct err; reflexivity.
  - now rewrite (clientFinish_error w pal onPrefix len_ _ _ _ _ Hc).
  - destruct (isEOF e).
    + unfold clientFinish. rewrite Hc. reflexivity.
    + now rewrite (clientFinish_error w pal onPrefix len_ _ _ _ _ Hc).
  - unfold clientFinish. rewrite Hc. reflexivity.
Qed.

(** [close_error_ends_with_1] on the client of host h1 in the middle of
    a task: the command succeeds, the session does not close, the process
    ends with exit code 1. *)
Lemma close_error_ends_with_1_witness :
  snd (clientFinish brokenClose ansi true 11 h1busy) = Exit 1.
Proof.
  refine (close_error_ends_with_1 brokenClose ansi true 11
            (busy "u" "h1:22" "" (esc ++ "[32m")) 2%nat _ _);
    reflexivity.
Defined.

(* ================================================================== *)
(** * The life cycle of a localhost client *)
(* ================================================================== *)

Lemma localInv_Run (w : Sys) (task : Task) (c : Local.LocalhostClient) :
  localInv c -> localInv (fst (fst (LocalhostClient_Run w task c))).
Proof.
  destruct c as [cmd0 user i o e0 ru env]. destruct task as [run input cl tty].
  unfold localInv. intros H. unfold LocalhostClient_Run, lassignPipe.
  run_method; try (intros; discriminate); try exact H.
  intros _. split; [eexists; eexists; reflexivity | discriminate].
Qed.

Lemma localReach_inv (c : Local.LocalhostClient) : localReach c -> localInv c.
Proof.
  induction 1.
  - intros H. discriminate.
  - unfold LocalhostClient_Connect. destruct (user_Current w); exact IHlocalReach.
  - now apply localInv_Run.
  - destruct c as [cmd0 user i o e0 ru env]. unfold localInv in *.
    unfold LocalhostClient_Wait. run_method; try (intros; discriminate);
      exact IHlocalReach.
  - exact IHlocalReach.
  - destruct c as [cmd0 user i o e0 ru env]. unfold localInv in *.
    unfold LocalhostClient_WriteClose. run_method; exact IHlocalReach.
  - destruct c as [cmd0 user i o e0 ru env]. unfold localInv in *.
    unfold LocalhostClient_Signal. run_method; exact IHlocalReach.
Qed.

(** X8.  On every state a localhost client can reach through its
    methods, [Wait] never panics; and while the client is running (a [Run]
    has succeeded and [Wait] has not been called since), [Signal] follows
    no nil pointer: it sends the signal to the process [Run] started,
    returns what the process answers and leaves the client as it is, and
    [WriteClose] finds the stdin pipe. *)
Theorem running_client_can_be_signalled (c : Local.LocalhostClient) :
  localReach c ->
  (forall w m, snd (LocalhostClient_Wait w c) <> Panic m) /\
  (Local.running c = true ->
   (forall w sig, exists process,
      LocalhostClient_Signal w sig c
      = (c, [EvSignal process sig],
         match process_Signal w process sig with
         | Some e => Error e
         | None => Ok tt
         end)) /\
   (forall w m, snd (LocalhostClient_WriteClose w c) <> Panic m)).
Proof.
  intros Hreach. apply localReach_inv in Hreach. unfold localInv in Hreach.
  destruct c as [cmd0 user i o e0 ru env]. simpl in *. split.
  - intros w m. unfold LocalhostClient_Wait.
    unfold bindM, get, modify, throw, deref, check, ret, panic. simpl.
    destruct ru; simpl; [| discriminate].
    destruct (Hreach eq_refl) as ((argv & process & ->) & _). simpl.
    destruct (cmd_Wait w process); discriminate.
  - intros ->. destruct (Hreach eq_refl) as ((argv & process & ->) & Hin).
    split.
    + intros w sig. exists process. unfold LocalhostClient_Signal.
      unfold bindM, get, emit, throw, deref, check, ret. simpl.
      destruct (process_Signal w process sig); reflexivity.
    + intros w m. unfold LocalhostClient_WriteClose.
      unfold bindM, get, throw, deref, check, ret. simpl.
      destruct i as [stdin |]; [| congruence]. simpl.
      destruct (pipe_Close w stdin); discriminate.
Qed.

(** [running_client_can_be_signalled] on the client [createTasks] builds
    for a local command, connected and started on a task. *)
Lemma running_client_can_be_signalled_witness :
  let c := fst (fst (LocalhostClient_Run calm body
             (fst (LocalhostClient_Connect calm
                (Local.mk None "" None None None false ""))))) in
  exists process,
    LocalhostClient_Signal calm Interrupt c
    = (c, [EvSignal process Interrupt],
       match process_Signal calm process Interrupt with
       | Some e => Error e
       | None => Ok tt
       end).
Proof.
  intros c.
  refine (proj1 (proj2 (running_client_can_be_signalled c _) _) calm Interrupt).
  - apply localReach_Run. apply localReach_Connect. apply localReach_new.
  - reflexivity.
Defined.

(* ================================================================== *)
(** * The engine: prefix width and connections *)
(* ================================================================== *)

Lemma maxPrefixLen_ge (pal : Palette) (h : Heap) (clients : list Client) :
  forall m0, m0 <= maxPrefixLen pal h clients m0.
Proof.
  induction clients as [| c rest IH]; intros m0; simpl; [lia |].
  match goal with
  | |- _ <= maxPrefixLen pal h rest ?m => specialize (IH m)
  end.
  destruct (load h c) as [o |];
    [destruct (Z.gtb_spec (snd (Client_Prefix pal o)) m0) |
     destruct (Z.gtb_spec 0 m0)]; lia.
Qed.

Lemma maxPrefixLen_bound (pal : Palette) (h : Heap) (clients : list Client) :
  forall m0 c o,
    In c clients -> load h c = Some o ->
    snd (Client_Prefix pal o) <= maxPrefixLen pal h clients m0.
Proof.
  induction clients as [| c' rest IH]; intros m0 c o Hin Hload; simpl.
  - contradiction.
  - destruct Hin as [-> | Hin].
    + rewrite Hload.
      match goal with
      | |- _ <= maxPrefixLen pal h rest ?m =>
          pose proof (maxPrefixLen_ge pal h rest m) as Hge
      end.
      destruct (Z.gtb_spec (snd (Client_Prefix pal o)) m0); lia.
    + now apply (IH _ c o).
Qed.

Lemma maxPrefixLen_attained (pal : Palette) (h : Heap) (clients : list Client) :
  forall m0,
    0 <= m0 ->
    maxPrefixLen pal h clients m0 = m0 \/
    exists c o, In c clients /\ load h c = Some o /\
                snd (Client_Prefix pal o) = maxPrefixLen pal h clients m0.
Proof.
  induction clients as [| c rest IH]; intros m0 Hm0; simpl; [now left |].
  destruct (load h c) as [o |] eqn:Hload.
  - destruct (Z.gtb_spec (snd (Client_Prefix pal o)) m0) as [Hgt | Hle].
    + destruct (IH (snd (Client_Prefix pal o)))
        as [Heq | (c' & o' & Hin & Hload' & Hw)]; [lia | |].
      * right. exists c, o. auto.
      * right. exists c', o'. auto.
    + destruct (IH m0 Hm0) as [Heq | (c' & o' & Hin & Hload' & Hw)].
      * now left.
      * right. exists c', o'. auto.
  - destruct (Z.gtb_spec 0 m0) as [Hgt | Hle]; [lia |].
    destruct (IH m0 Hm0) as [Heq | (c' & o' & Hin & Hload' & Hw)].
    + now left.
    + right. exists c', o'. auto.
Qed.

(** X9.  The width [Run] pads the prefixes to is the largest of the
    widths the clients report: no client's width exceeds it, and when there
    is a client it is the width of one of them. *)
Theorem maxPrefixLen_is_max (pal : Palette) (h : Heap)
  (clients : list Client) :
  (forall c o, In c clients -> load h c = Some o ->
     snd (Client_Prefix pal o) <= maxPrefixLen pal h clients 0) /\
  (maxPrefixLen pal h clients 0 = 0 \/
   exists c o, In c clients /\ load h c = Some o /\
               snd (Client_Prefix pal o) = maxPrefixLen pal h clients 0).
Proof.
  split.
  - intros c o. apply maxPrefixLen_bound.
  - apply maxPrefixLen_attained. lia.
Qed.

(* ------------------------------------------------------------------ *)
(** ** Traces *)

Lemma bindM_emits {St A B : Type} (P : event -> Prop) (m : M St A)
  (k : A -> M St B) :
  emits P m -> (forall a, emits P (k a)) -> emits P (bindM m k).
Proof.
  intros Hm Hk s. unfold bindM. specialize (Hm s).
  destruct (m s) as [[s' tr] r]. destruct r as [a | e | msg | c]; simpl in *;
    try exact Hm.
  specialize (Hk a s'). destruct (k a s') as [[s'' tr'] r']. simpl in *.
  apply Forall_app. split; assumption.
Qed.

Lemma ret_emits {St A : Type} (P : event -> Prop) (a : A) :
  emits P (@ret St A a).
Proof. intros s. constructor. Qed.

Lemma get_emits {St : Type} (P : event -> Prop) : emits P (@get St).
Proof. intros s. constructor. Qed.

Lemma modify_emits {St : Type} (P : event -> Prop) (f : St -> St) :
  emits P (modify f).
Proof. intros s. constructor. Qed.

Lemma emit_emits {St : Type} (P : event -> Prop) (ev : event) :
  P ev -> emits P (@emit St ev).
Proof. intros H s. constructor; [exact H | constructor]. Qed.

Lemma throw_emits {St A : Type} (P : event -> Prop) (e : error) :
  emits P (@throw St A e).
Proof. intros s. constructor. Qed.

Lemma panic_emits {St A : Type} (P : event -> Prop) (msg : string) :
  emits P (@panic St A msg).
Proof. intros s. constructor. Qed.

Lemma deref_emits {St A : Type} (P : event -> Prop) (p : option A) :
  emits P (@deref St A p).
Proof. destruct p; [apply ret_emits | apply panic_emits]. Qed.

Lemma check_emits {St : Type} (P : event -> Prop) (err : option error) :
  emits P (@check St err).
Proof. destruct err; [apply throw_emits | apply ret_emits]. Qed.

Lemma liftR_emits {St A : Type} (P : event -> Prop) (r : result A) :
  emits P (@liftR St A r).
Proof. intros s. constructor. Qed.

Lemma onClient_emits {A : Type} (P : event -> Prop) (c : Client)
  (m : M ClientObj A) :
  emits P m -> emits P (onClient c m).
Proof.
  intros Hm h. unfold onClient. destruct (load h c) as [o |]; [| constructor].
  specialize (Hm o). destruct (m o) as [[o' tr] r]. exact Hm.
Qed.

Lemma dispatch_emits {A : Type} (P : event -> Prop)
  (local : M Local.LocalhostClient A) (remote : M SSH.SSHClient A) :
  emits P local -> emits P remote -> emits P (dispatch local remote).
Proof.
  intros Hl Hr [c | c]; unfold dispatch.
  - specialize (Hl c). destruct (local c) as [[c' tr] r]. exact Hl.
  - specialize (Hr c). destruct (remote c) as [[c' tr] r]. exact Hr.
Qed.

Create HintDb emits.
#[local] Hint Resolve ret_emits get_emits modify_emits throw_emits
  panic_emits deref_emits check_emits liftR_emits : emits.

Lemma bindM_emits_with {St A B : Type} (P : event -> Prop) (Q : A -> Prop)
  (m : M St A) (k : A -> M St B) :
  emits P m -> (forall s a, snd (m s) = Ok a -> Q a) ->
  (forall a, Q a -> emits P (k a)) -> emits P (bindM m k).
Proof.
  intros Hm HQ Hk s. unfold bindM. specialize (Hm s). specialize (HQ s).
  destruct (m s) as [[s' tr] r]. destruct r as [a | e | msg | c]; simpl in *;
    try exact Hm.
  specialize (Hk a (HQ a eq_refl) s').
  destruct (k a s') as [[s'' tr'] r']. simpl in *.
  apply Forall_app. split; assumption.
Qed.

(** The events of [networkHost] and of the loop over the hosts are calls
    of the one dialler [Run] has chosen. *)
Lemma networkHost_dials (w : Sys) (pal : Palette)
  (bastion : option SSH.SSHClient) (host env : string) (i : Z)
  (cfg : list SSHHost) :
  emits (dialsWith (dialerOf bastion))
        (networkHost w pal bastion host env i cfg).
Proof.
  intros h. unfold networkHost.
  destruct (String.eqb host "localhost").
  - destruct (LocalhostClient_Connect w _) as [local [err |]];
      [constructor |].
    destruct (alloc h (LocalClient local)). constructor.
  - destruct (NewSSHClient w pal host env i cfg) as [remote r].
    destruct r as [[] | err | m | code]; try constructor.
    assert (H : Forall (dialsWith (dialerOf bastion))
                  (snd (fst (SSHClient_ConnectWith w (dialerOf bastion)
                                                   remote)))).
    { unfold SSHClient_ConnectWith, dial.
      unfold bindM, get, emit, throw, deref, panic, ret.
      destruct (SSH.connOpened remote); simpl; [constructor |].
      assert (Hd : dialsWith (dialerOf bastion)
                     (EvDial (dialerOf bastion) (SSH.host remote)
                             (SSH.user remote) (SSH.signer remote))).
      { eexists; eexists; eexists; reflexivity. }
      destruct (dialerOf bastion) as [| b]; simpl.
      - destruct (ssh_Dial w sshDial _ _); simpl;
          (constructor; [exact Hd | constructor]).
      - destruct (SSH.conn b); simpl;
          [destruct (ssh_Dial w (DialThrough b) _ _); simpl |];
          (constructor; [exact Hd | constructor]). }
    destruct bastion as [b |]; simpl in *;
      match goal with
      | |- context [SSHClient_ConnectWith w ?d remote] =>
          destruct (SSHClient_ConnectWith w d remote) as [[remote' tr] r]
      end;
      destruct r as [[] | err | m | code]; try exact H;
      destruct (alloc h (RemoteClient remote')); exact H.
Qed.

Lemma connectHosts_dials (w : Sys) (pal : Palette)
  (bastion : option SSH.SSHClient) (env : string) (cfg : list SSHHost) :
  forall hosts i,
    emits (dialsWith (dialerOf bastion))
          (connectHosts w pal bastion env cfg i hosts).
Proof.
  induction hosts as [| host rest IH]; intros i h; simpl; [constructor |].
  pose proof (networkHost_dials w pal bastion host env (i + 1) cfg h) as H.
  destruct (networkHost w pal bastion host env (i + 1) cfg h)
    as [[h1 tr1] r1].
  specialize (IH (i + 1) h1).
  destruct (connectHosts w pal bastion env cfg (i + 1) rest h1)
    as [[h2 tr2] r2].
  simpl in *.
  destruct r1 as [c | e | m | code]; try exact H;
    destruct r2 as [[cs es] | e' | m | code];
    apply Forall_app; split; assumption.
Qed.

(** What [Run] does about the bastion: nothing without one; with one, a
    single call of [ssh.Dial], and the bastion it goes on with is the
    client that call connected. *)
Lemma connectBastion_trace (w : Sys) (pal : Palette) (network : Network)
  (cfg : list SSHHost) :
  let b0 := fst (NewSSHClient w pal (Bastion network) "bastion" 0 cfg) in
  let b := fst (fst (SSHClient_Connect w b0)) in
  let tr0 := fst (connectBastion w pal network cfg) in
  let r := snd (connectBastion w pal network cfg) in
  if String.eqb (Bastion network) "" then tr0 = [] /\ r = Ok None
  else
    (tr0 = [] /\ forall bo, r <> Ok bo) \/
    (tr0 = [EvDial sshDial (SSH.host b0) (SSH.user b0) (SSH.signer b0)] /\
     forall bo, r = Ok bo -> bo = Some b).
Proof.
  cbv zeta. unfold connectBastion.
  destruct (String.eqb (Bastion network) ""); simpl; [split; reflexivity |].
  pose proof (NewSSHClient_closed w pal (Bastion network) "bastion" 0 cfg)
    as [Hclosed _].
  destruct (NewSSHClient w pal (Bastion network) "bastion" 0 cfg)
    as [b0 r0].
  cbn [fst] in *.
  destruct r0 as [[] | err | m | code];
    try (left; split; [reflexivity | intros bo; discriminate]).
  right.
  assert (Htr : snd (fst (SSHClient_Connect w b0))
                = [EvDial sshDial (SSH.host b0) (SSH.user b0) (SSH.signer b0)]).
  { unfold SSHClient_Connect, SSHClient_ConnectWith, dial.
    unfold bindM, get, emit, throw, ret. rewrite Hclosed. simpl.
    destruct (ssh_Dial w sshDial _ _); reflexivity. }
  destruct (SSHClient_Connect w b0) as [[b tr] r]. cbn [fst snd] in *.
  subst tr.
  destruct r as [[] | err | m | code];
    (split; [reflexivity |]); intros bo; try discriminate.
  now intros [= <-].
Qed.

Section Traces.

(** A property of events that holds of what the methods of the clients
    do, and of the lines written by a task as long as they carry no prefix
    when prefixes are off. *)
Variable P : event -> Prop.
Variable onPrefix : bool.

Hypothesis P_method : forall ev, methodEvent ev -> P ev.
Hypothesis P_pump : forall stderr c prefix,
  (onPrefix = false -> prefix = "") -> P (EvPump stderr c prefix).
Hypothesis P_stderr : forall prefix e,
  (onPrefix = false -> prefix = "") -> P (EvStderr prefix e).

(** Walks through a method of a client. *)
Ltac method_emits :=
  repeat first
    [ apply bindM_emits; [| intros ?]
    | solve [auto with emits]
    | apply emit_emits; apply P_method; exact I
    | match goal with
      | |- emits _ (if ?b then _ else _) => destruct b
      | |- emits _ (match ?x with _ => _ end) => destruct x
      end ].

Lemma SSHClient_Run_emits (w : Sys) (task : Task) :
  emits P (SSHClient_Run w task).
Proof. unfold SSHClient_Run, openSession, assignPipe. method_emits. Qed.

Lemma SSHClient_Wait_emits (w : Sys) : emits P (SSHClient_Wait w).
Proof. unfold SSHClient_Wait. method_emits. Qed.

Lemma SSHClient_Close_emits (w : Sys) : emits P (SSHClient_Close w).
Proof. unfold SSHClient_Close. method_emits. Qed.

Lemma LocalhostClient_Run_emits (w : Sys) (task : Task) :
  emits P (LocalhostClient_Run w task).
Proof. unfold LocalhostClient_Run, lassignPipe. method_emits. Qed.

Lemma LocalhostClient_Wait_emits (w : Sys) :
  emits P (LocalhostClient_Wait w).
Proof. unfold LocalhostClient_Wait. method_emits. Qed.

Lemma Client_Run_emits (w : Sys) (task : Task) :
  emits P (Client_Run w task).
Proof.
  apply dispatch_emits;
    [apply LocalhostClient_Run_emits | apply SSHClient_Run_emits].
Qed.

Lemma Client_Wait_emits (w : Sys) : emits P (Client_Wait w).
Proof.
  apply dispatch_emits;
    [apply LocalhostClient_Wait_emits | apply SSHClient_Wait_emits].
Qed.

Lemma Client_Close_emits (w : Sys) : emits P (Client_Close w).
Proof.
  apply dispatch_emits; [apply ret_emits | apply SSHClient_Close_emits].
Qed.

Lemma launch_emits (w : Sys) (pal : Palette) (t : Task) (maxLen : Z)
  (clients : list Client) :
  emits P (launch w pal t onPrefix maxLen clients).
Proof.
  induction clients as [| c rest IH]; simpl; [apply ret_emits |].
  apply (bindM_emits_with P (fun prefix => onPrefix = false -> prefix = "")).
  - apply onClient_emits. method_emits.
  - intros h prefix. unfold onClient, bindM, get, liftR.
    destruct (load h c) as [o |]; [| discriminate]. simpl.
    unfold doPrefix. destruct onPrefix; [intros _ H; discriminate |].
    now intros [= <-].
  - intros prefix Hprefix.
    apply bindM_emits.
    + intros h.
      pose proof (onClient_emits P c _ (Client_Run_emits w t) h) as H.
      destruct (onClient c (Client_Run w t) h) as [[h' tr] r].
      destruct r; exact H.
    + intros _. apply bindM_emits; [| intros _].
      { apply emit_emits. now apply P_pump. }
      apply bindM_emits; [| intros _; exact IH].
      apply emit_emits. now apply P_pump.
Qed.

Lemma clientFinish_emits (w : Sys) (pal : Palette) (len_ : Z) :
  emits P (clientFinish w pal onPrefix len_).
Proof.
  intros o. unfold clientFinish.
  pose proof (Client_Wait_emits w o) as H.
  destruct (Client_Wait w o) as [[o' tr] r].
  destruct r as [a | err | m | code]; try exact H.
  simpl in H.
  assert (Hlog : Forall P
            (tr ++ [EvStderr (if onPrefix
                              then formatClientPrefix pal o' len_ else "")
                             err])%list).
  { apply Forall_app. split; [exact H |].
    constructor; [| constructor]. apply P_stderr. now intros ->. }
  destruct err; try apply Hlog.
  destruct (negb (status =? 15)); apply Hlog.
Qed.

Lemma clientsFinish_emits (w : Sys) (pal : Palette) (len_ : Z)
  (clients : list Client) :
  emits P (clientsFinish w pal onPrefix len_ clients).
Proof.
  induction clients as [| c rest IH]; simpl; [apply ret_emits |].
  apply bindM_emits; [| intros _; exact IH].
  apply onClient_emits, clientFinish_emits.
Qed.

Lemma doTasks_emits (w : Sys) (pal : Palette) (maxLen : Z)
  (tasks : list Task) :
  emits P (doTasks w pal onPrefix maxLen tasks).
Proof.
  induction tasks as [| t rest IH]; simpl; [apply ret_emits |].
  apply bindM_emits; [| intros _; exact IH].
  unfold Task_do. apply bindM_emits;
    [apply launch_emits | intros _; apply clientsFinish_emits].
Qed.

Lemma closeAll_emits (w : Sys) (clients : list Client) :
  forall err, emits P (closeAll w clients err).
Proof.
  induction clients as [| c rest IH]; intros err; simpl; [apply ret_emits |].
  intros h.
  pose proof (onClient_emits P c _ (Client_Close_emits w) h) as H.
  destruct (onClient c (Client_Close w) h) as [[h' tr] r].
  destruct r as [a | derr | m | code]; try exact H.
  - specialize (IH err h').
    destruct (closeAll w rest err h') as [[h'' tr'] res].
    apply Forall_app. split; assumption.
  - specialize (IH (Some (multierror_Append err derr)) h').
    destruct (closeAll w rest _ h') as [[h'' tr'] res].
    apply Forall_app. split; assumption.
Qed.

Lemma runCommands_emits (w : Sys) (pal : Palette) (sup : Stackup)
  (clients : list Client) (env : string) (maxLen : Z) :
  prefix sup = onPrefix ->
  forall commands h,
    Forall P
      (snd (fst (fst (runCommands w pal sup clients env maxLen commands h)))).
Proof.
  intros Hsup.
  induction commands as [| cmd rest IH]; intros h; simpl; [constructor |].
  destruct (createTasks w sup cmd clients env h) as [h1 r].
  destruct r as [tasks | e | m | code]; try constructor.
  rewrite Hsup.
  pose proof (doTasks_emits w pal maxLen tasks h1) as H.
  destruct (doTasks w pal onPrefix maxLen tasks h1) as [[h2 tr] r2].
  destruct r2 as [[] | e | m | code]; try exact H.
  specialize (IH h2).
  destruct (runCommands w pal sup clients env maxLen rest h2)
    as [[[h3 tr'] calls] r'].
  apply Forall_app. split; assumption.
Qed.

(** The events of [Run] after those of the bastion. *)
Lemma Stackup_Run_rest (w : Sys) (pal : Palette) (sup : Stackup)
  (cfg : list SSHHost) (network : Network) (envVars : EnvList)
  (commands : list Command) (h : Heap) :
  prefix sup = onPrefix ->
  (len commands =? 0) = false ->
  exists rest,
    snd (fst (fst (Stackup_Run w pal sup cfg network envVars commands h)))
    = (fst (connectBastion w pal network cfg) ++ rest)%list /\
    ((forall bo, snd (connectBastion w pal network cfg) <> Ok bo) ->
     rest = []) /\
    (forall bo, snd (connectBastion w pal network cfg) = Ok bo ->
       (forall addr user auth, P (EvDial (dialerOf bo) addr user auth)) ->
       Forall P rest).
Proof.
  intros Hsup Hcmds. unfold Stackup_Run. rewrite Hcmds.
  destruct (connectBastion w pal network cfg) as [tr0 rb]. cbn [fst snd].
  destruct rb as [bastion | e | m | code];
    try (exists []; rewrite app_nil_r; split; [reflexivity |];
         split; [reflexivity | intros bo; discriminate]).
  pose proof (connectHosts_dials w pal bastion (AsExport envVars) cfg
                (Hosts network) 0 h) as Hd.
  destruct (connectHosts w pal bastion (AsExport envVars) cfg 0
                         (Hosts network) h) as [[h1 tr1] r1].
  cbn [fst snd] in Hd.
  assert (Hd' : (forall addr user auth,
                   P (EvDial (dialerOf bastion) addr user auth)) ->
                Forall P tr1).
  { intros Hdial. revert Hd. apply Forall_impl.
    intros ev (addr & user & auth & ->). apply Hdial. }
  assert (Hgoal : forall rest,
            ((forall addr user auth,
                P (EvDial (dialerOf bastion) addr user auth)) ->
             Forall P rest) ->
            ((forall bo : option SSH.SSHClient,
                @Ok (option SSH.SSHClient) bastion <> Ok bo) -> rest = []) /\
            (forall bo, @Ok (option SSH.SSHClient) bastion = Ok bo ->
               (forall addr user auth,
                  P (EvDial (dialerOf bo) addr user auth)) ->
               Forall P rest)).
  { intros rest Hall. split.
    - intros Hno. now contradiction (Hno bastion).
    - intros bo [= <-]. exact Hall. }
  destruct r1 as [[clients errs] | e | m | code];
    try (exists tr1; split; [reflexivity | now apply Hgoal]).
  cbv zeta.
  destruct errs as [| err errs].
  - pose proof (runCommands_emits w pal sup clients (AsExport envVars)
                  (maxPrefixLen pal h1 clients 0) Hsup commands h1) as Hr.
    destruct (runCommands w pal sup clients (AsExport envVars)
                (maxPrefixLen pal h1 clients 0) commands h1)
      as [[[h2 tr2] calls] r].
    cbn [fst snd] in Hr.
    destruct r as [[] | e | m | code].
    + pose proof (closeAll_emits w (filter (isRemote h1) clients)
                    None h2) as Hc.
      destruct (closeAll w (filter (isRemote h1) clients) None h2)
        as [[h3 tr3] res]. cbn [fst snd] in Hc.
      exists (tr1 ++ tr2 ++ tr3)%list. split; [reflexivity |].
      apply Hgoal. intros Hdial. repeat (apply Forall_app; split); auto.
    + pose proof (closeAll_emits w (filter (isRemote h1) clients)
                    (Some e) h2) as Hc.
      destruct (closeAll w (filter (isRemote h1) clients) (Some e) h2)
        as [[h3 tr3] res]. cbn [fst snd] in Hc.
      exists (tr1 ++ tr2 ++ tr3)%list. split; [reflexivity |].
      apply Hgoal. intros Hdial. repeat (apply Forall_app; split); auto.
    + pose proof (closeAll_emits w (filter (isRemote h1) clients)
                    None h2) as Hc.
      destruct (closeAll w (filter (isRemote h1) clients) None h2)
        as [[h3 tr3] res]. cbn [fst snd] in Hc.
      exists (tr1 ++ tr2 ++ tr3)%list. split; [reflexivity |].
      apply Hgoal. intros Hdial. repeat (apply Forall_app; split); auto.
    + exists (tr1 ++ tr2)%list. split; [reflexivity |].
      apply Hgoal. intros Hdial. apply Forall_app. split; auto.
  - pose proof (closeAll_emits w (filter (isRemote h1) clients)
                  (Some (wrapped err "connecting to clients failed")) h1)
      as Hc.
    destruct (closeAll w (filter (isRemote h1) clients) _ h1)
      as [[h3 tr3] res]. cbn [fst snd] in Hc.
    exists (tr1 ++ [] ++ tr3)%list. split; [reflexivity |].
    apply Hgoal. intros Hdial. repeat (apply Forall_app; split); auto.
Qed.

End Traces.

Lemma notDial_method (ev : event) : methodEvent ev -> notDial ev.
Proof. destruct ev; simpl; trivial. Qed.

(** X10.  With a bastion, the only connection [Run] dials directly is the
    one to the bastion, and it is the first thing [Run] does: every host of
    the network is dialled through the connection of the bastion.  Without
    a bastion every connection is dialled directly. *)
Theorem hosts_dialled_through_bastion (w : Sys) (pal : Palette)
  (sup : Stackup) (cfg : list SSHHost) (network : Network)
  (envVars : EnvList) (commands : list Command) (h : Heap) :
  let tr := snd (fst (fst (Stackup_Run w pal sup cfg network envVars
                                       commands h))) in
  let b0 := fst (NewSSHClient w pal (Bastion network) "bastion" 0 cfg) in
  let b := fst (fst (SSHClient_Connect w b0)) in
  if String.eqb (Bastion network) "" then
    Forall (fun ev => notDial ev \/ dialsWith sshDial ev) tr
  else
    tr = [] \/
    exists rest,
      tr = EvDial sshDial (SSH.host b0) (SSH.user b0) (SSH.signer b0) :: rest
      /\ Forall (fun ev => notDial ev \/ dialsWith (DialThrough b) ev) rest.
Proof.
  cbv zeta.
  pose proof (connectBastion_trace w pal network cfg) as Hb. cbv zeta in Hb.
  destruct (len commands =? 0) eqn:Hcmds.
  { unfold Stackup_Run. rewrite Hcmds.
    destruct (String.eqb (Bastion network) ""); [constructor | now left]. }
  assert (Hrest : forall d,
    exists rest,
      snd (fst (fst (Stackup_Run w pal sup cfg network envVars commands h)))
      = (fst (connectBastion w pal network cfg) ++ rest)%list /\
      ((forall bo, snd (connectBastion w pal network cfg) <> Ok bo) ->
       rest = []) /\
      (forall bo, snd (connectBastion w pal network cfg) = Ok bo ->
         dialerOf bo = d ->
         Forall (fun ev => notDial ev \/ dialsWith d ev) rest)).
  { intros d.
    destruct (Stackup_Run_rest (fun ev => notDial ev \/ dialsWith d ev)
                (prefix sup)
                (fun ev Hev => or_introl (notDial_method ev Hev))
                (fun _ _ _ _ => or_introl I) (fun _ _ _ => or_introl I)
                w pal sup cfg network envVars commands h eq_refl Hcmds)
      as (rest & Htr & Hnone & Hsome).
    exists rest. split; [exact Htr |]. split; [exact Hnone |].
    intros bo Hbo Hd. apply (Hsome bo Hbo). rewrite Hd.
    intros addr user auth. right. eexists; eexists; eexists; reflexivity. }
  destruct (String.eqb (Bastion network) "").
  - destruct Hb as [Htr0 Hr].
    destruct (Hrest sshDial) as (rest & -> & _ & Hsome).
    rewrite Htr0. exact (Hsome None Hr eq_refl).
  - set (b := fst (fst (SSHClient_Connect w
                 (fst (NewSSHClient w pal (Bastion network) "bastion" 0
                                    cfg))))) in *.
    destruct (Hrest (DialThrough b)) as (rest & -> & Hnone & Hsome).
    destruct Hb as [[-> Hno] | [-> Hok]].
    + left. now rewrite (Hnone Hno).
    + right. exists rest. split; [reflexivity |].
      destruct (snd (connectBastion w pal network cfg))
        as [bo | e | m | code] eqn:Hr.
      * apply (Hsome bo eq_refl). now rewrite (Hok bo eq_refl).
      * rewrite Hnone; [constructor | intros bo; discriminate].
      * rewrite Hnone; [constructor | intros bo; discriminate].
      * rewrite Hnone; [constructor | intros bo; discriminate].
Qed.

(** A network of two hosts behind a bastion: three connections are
    dialled, the first one directly. *)
Example two_hosts_behind_a_bastion :
  let network := mkNetwork [] "" ["h1"; "h2"] "jump" in
  let jump := fst (fst (SSHClient_Connect calm
                (fst (NewSSHClient calm ansi "jump" "bastion" 0 [])))) in
  filter (fun ev => match ev with EvDial _ _ _ _ => true | _ => false end)
    (snd (fst (fst (Stackup_Run calm ansi (mkStackup false true) [] network
                                []  [build] []))))
  = [EvDial sshDial "jump:22" "deploy" None;
     EvDial (DialThrough jump) "h1:22" "deploy" None;
     EvDial (DialThrough jump) "h2:22" "deploy" None].
Proof. reflexivity. Qed.

(* ------------------------------------------------------------------ *)
(** ** All hosts or none *)

Lemma runCommands_clients (w : Sys) (pal : Palette) (sup : Stackup)
  (clients : list Client) (env : string) (maxLen : Z) :
  forall commands h,
    Forall (fun call => call_clients call = clients)
      (snd (fst (runCommands w pal sup clients env maxLen commands h))).
Proof.
  induction commands as [| cmd rest IH]; intros h; simpl; [constructor |].
  destruct (createTasks w sup cmd clients env h) as [h1 r].
  destruct r as [tasks | e | m | code];
    try (constructor; [reflexivity | constructor]).
  destruct (doTasks w pal (prefix sup) maxLen tasks h1) as [[h2 tr] r2].
  destruct r2 as [[] | e | m | code];
    try (constructor; [reflexivity | constructor]).
  specialize (IH h2).
  destruct (runCommands w pal sup clients env maxLen rest h2)
    as [[[h3 tr'] calls] r'].
  constructor; [reflexivity | exact IH].
Qed.

(** X11.  [Run] builds tasks only once every host of the network has
    connected: a call of [createTasks] is made only when the loop over the
    hosts has collected no error, and every command is then given one and
    the same list of clients, the one the loop has collected, which has
    exactly one client per host of the network. *)
Theorem commands_run_on_all_hosts (w : Sys) (pal : Palette) (sup : Stackup)
  (cfg : list SSHHost) (network : Network) (envVars : EnvList)
  (commands : list Command) (h : Heap) (call : CreateCall) :
  In call (snd (fst (Stackup_Run w pal sup cfg network envVars commands h))) ->
  exists bastion h1 tr1 clients,
    snd (connectBastion w pal network cfg) = Ok bastion /\
    connectHosts w pal bastion (AsExport envVars) cfg 0 (Hosts network) h
    = (h1, tr1, Ok (clients, [])) /\
    call_clients call = clients /\
    len clients = len (Hosts network).
Proof.
  unfold Stackup_Run.
  destruct (len commands =? 0); [contradiction |].
  destruct (connectBastion w pal network cfg) as [tr0 rb].
  destruct rb as [bastion | e | m | code]; try contradiction.
  destruct (connectHosts w pal bastion (AsExport envVars) cfg 0
                         (Hosts network) h) as [[h1 tr1] r1] eqn:Hconn.
  destruct r1 as [[clients errs] | e | m | code]; try contradiction.
  pose proof (connectHosts_all _ _ _ _ _ _ _ _ _ _ _ _ Hconn) as Hall.
  destruct errs as [| err errs].
  - pose proof (runCommands_clients w pal sup clients (AsExport envVars)
                  (maxPrefixLen pal h1 clients 0) commands h1) as Hrun.
    destruct (runCommands w pal sup clients (AsExport envVars)
                (maxPrefixLen pal h1 clients 0) commands h1)
      as [[[h2 tr2] calls] r].
    simpl in Hrun. intros Hin.
    assert (Hin' : In call calls).
    { revert Hin. destruct r as [[] | e | m | code]; simpl;
        try (destruct (closeAll w _ _ h2) as [[h3 tr3] res]); trivial. }
    exists bastion, h1, tr1, clients.
    split; [reflexivity |]. split; [exact Hconn |]. split.
    + exact (proj1 (Forall_forall _ _) Hrun call Hin').
    + unfold len. simpl in Hall. lia.
  - simpl. destruct (closeAll w _ _ h1) as [[h3 tr3] res]. contradiction.
Qed.

(** [commands_run_on_all_hosts] on the three hosts of [prod] and the
    command [build]. *)
Lemma commands_run_on_all_hosts_witness :
  let network := mkNetwork [] "" ["h1"; "h2"; "h3"] "" in
  exists bastion h1 tr1 clients,
    snd (connectBastion calm ansi network []) = Ok bastion /\
    connectHosts calm ansi bastion (AsExport []) [] 0 (Hosts network) []
    = (h1, tr1, Ok (clients, [])) /\
    call_clients (mkCreateCall build three
                    (Ok [mkTask "sudo docker build ." None [0%nat] true]))
    = clients /\
    len clients = len (Hosts network).
Proof.
  intros network.
  refine (commands_run_on_all_hosts calm ansi (mkStackup false true) []
            network [] [build] [] _ _).
  left. reflexivity.
Defined.

(* ================================================================== *)
(** * The command line *)
(* ================================================================== *)

Lemma targetCommands_spec (conf : Supfile) (target : list string) :
  forall commands,
    match targetCommands conf target commands with
    | (tr, Ok cs) =>
        tr = [] /\
        exists new, cs = (commands ++ new)%list /\ map Name new = target /\
                    Forall (fromSupfile conf) new
    | (tr, Error e) =>
        tr = [usage true] /\
        exists name, In name target /\ e = errCmd name /\
                     Get (Commands conf) name = None
    | (_, _) => False
    end.
Proof.
  induction target as [| name rest IH]; intros commands; simpl.
  - split; [reflexivity |]. exists []. rewrite app_nil_r.
    repeat split. constructor.
  - destruct (Get (Commands conf) name) as [c |] eqn:Hget.
    + specialize (IH (commands ++ [withName c name])%list).
      destruct (targetCommands conf rest _) as [tr r].
      destruct r as [cs | e | m | code]; try contradiction.
      * destruct IH as (-> & new & -> & Hnames & Hall).
        split; [reflexivity |]. exists (withName c name :: new).
        rewrite <- app_assoc. repeat split.
        -- simpl. now rewrite Hnames.
        -- constructor; [| exact Hall]. exists c. simpl. auto.
      * destruct IH as (-> & name' & Hin & -> & Hnone).
        split; [reflexivity |]. exists name'. auto.
    + split; [reflexivity |]. exists name. auto.
Qed.

Lemma argCommands_spec (conf : Supfile) (args : list string) :
  forall commands,
    match argCommands conf args commands with
    | (tr, Ok cs) =>
        tr = [] /\
        exists new, cs = (commands ++ new)%list /\
                    map Name new = flat_map (expand conf) args /\
                    Forall (fromSupfile conf) new
    | (tr, Error e) =>
        tr = [usage true] /\
        exists name, e = errCmd name /\ Get (Commands conf) name = None
    | (_, _) => False
    end.
Proof.
  induction args as [| cmd rest IH]; intros commands; simpl.
  - split; [reflexivity |]. exists []. rewrite app_nil_r.
    repeat split. constructor.
  - unfold expand at 1.
    destruct (Get (Targets conf) cmd) as [target |] eqn:Htarget.
    + pose proof (targetCommands_spec conf target commands) as Ht.
      destruct (targetCommands conf target commands) as [tr r].
      destruct r as [cs | e | m | code]; try contradiction.
      * destruct Ht as (-> & new & -> & Hnames & Hall).
        destruct (Get (Commands conf) cmd) as [c |] eqn:Hget.
        -- specialize (IH ((commands ++ new) ++ [withName c cmd])%list).
           destruct (argCommands conf rest _) as [tr' r'].
           destruct r' as [cs' | e | m | code]; try contradiction.
           ++ destruct IH as (-> & new' & -> & Hnames' & Hall').
              split; [reflexivity |].
              exists (new ++ withName c cmd :: new')%list.
              split; [now rewrite <- !app_assoc |]. split.
              ** rewrite map_app. simpl. rewrite Hnames, Hnames'.
                 now rewrite <- app_assoc.
              ** apply Forall_app. split; [exact Hall |].
                 constructor; [| exact Hall']. exists c. simpl. auto.
           ++ destruct IH as (-> & name & -> & Hnone).
              split; [reflexivity |]. exists name. auto.
        -- specialize (IH (commands ++ new)%list).
           destruct (argCommands conf rest _) as [tr' r'].
           destruct r' as [cs' | e | m | code]; try contradiction.
           ++ destruct IH as (-> & new' & -> & Hnames' & Hall').
              split; [reflexivity |]. exists (new ++ new')%list.
              split; [now rewrite <- !app_assoc |]. split.
              ** rewrite map_app, Hnames, Hnames', app_nil_r. reflexivity.
              ** apply Forall_app. split; assumption.
           ++ destruct IH as (-> & name & -> & Hnone).
              split; [reflexivity |]. exists name. auto.
      * destruct Ht as (-> & name & _ & -> & Hnone).
        split; [reflexivity |]. exists name. auto.
    + destruct (Get (Commands conf) cmd) as [c |] eqn:Hget.
      * specialize (IH (commands ++ [withName c cmd])%list).
        destruct (argCommands conf rest _) as [tr' r'].
        destruct r' as [cs' | e | m | code]; try contradiction.
        -- destruct IH as (-> & new' & -> & Hnames' & Hall').
           split; [reflexivity |]. exists (withName c cmd :: new').
           split; [now rewrite <- !app_assoc |]. split.
           ++ simpl. now rewrite Hnames'.
           ++ constructor; [| exact Hall']. exists c. simpl. auto.
        -- destruct IH as (-> & name & -> & Hnone).
           split; [reflexivity |]. exists name. auto.
      * split; [reflexivity |]. exists cmd. auto.
Qed.



(** A name that is both a target and a command: the commands of the
    target come first, then the command. *)
Example target_and_command :
  let conf := mkSupfile [("prod", mkNetwork [] "" ["h1"] "")]
                [("build", build); ("restart", restart)]
                [("build", ["restart"])] [] "0.5" in
  argCommands conf ["build"] []
  = ([], Ok [withName restart "restart"; withName build "build"]).
Proof. reflexivity. Qed.

(* ------------------------------------------------------------------ *)
(** ** Paths given on the command line *)

(** X13.  [resolvePath] slices the first two bytes of every path that is
    not empty: on a path of one byte it panics, and so does [main] when
    such a path is given for the Supfile, before anything is read, and when
    it is given for the ssh-config.  A longer path that does not start with
    [~/] is returned as it is, and so is one that does when the current
    user cannot be looked up. *)
Theorem resolvePath_one_byte (w : Sys) (path : string) :
  (slen path = 1 ->
   resolvePath w path = Panic "slice bounds out of range" /\
   (forall pal fl, showHelp fl = false -> showVersion fl = false ->
      supfile fl = path ->
      main w pal fl = ([], [], Panic "slice bounds out of range")) /\
   (forall pal fl conf network commands tr, sshConfig fl = path ->
      mainRun w pal fl conf network commands tr
      = (tr, [], Panic "slice bounds out of range"))) /\
  (2 <= slen path -> sslice path 0 2 <> "~/" -> resolvePath w path = Ok path) /\
  (forall e, user_Current w = Fail e -> slen path <> 1 ->
     resolvePath w path = Ok path).
Proof.
  assert (Hne : forall p, slen p <> 0 -> String.eqb p "" = false).
  { intros p. destruct p; [intros H; now contradiction H | reflexivity]. }
  split; [| split].
  - intros Hlen.
    assert (Hp : resolvePath w path = Panic "slice bounds out of range").
    { unfold resolvePath. rewrite Hne by lia.
      destruct (Z.ltb_spec (slen path) 2); [reflexivity | lia]. }
    split; [exact Hp |]. split.
    + intros pal fl Hh Hv Hf. unfold main. rewrite Hh, Hv, Hf.
      rewrite Hne by lia. now rewrite Hp.
    + intros pal fl conf network commands tr Hf. unfold mainRun.
      rewrite Hf. rewrite Hne by lia. now rewrite Hp.
  - intros Hlen Hnot. unfold resolvePath. rewrite Hne by lia.
    destruct (Z.ltb_spec (slen path) 2); [lia |].
    destruct (String.eqb_spec (sslice path 0 2) "~/"); [contradiction |].
    reflexivity.
  - intros e Hu Hlen. unfold resolvePath.
    destruct (String.eqb_spec path "") as [-> | Hp]; [reflexivity |].
    assert (H0 : slen path <> 0).
    { destruct path; [congruence | unfold slen; simpl; lia]. }
    pose proof (slen_nonneg path).
    destruct (Z.ltb_spec (slen path) 2); [lia |].
    rewrite Hu. destruct (String.eqb (sslice path 0 2) "~/"); reflexivity.
Qed.

(** [resolvePath_one_byte] on [sup -f x prod build]. *)
Lemma resolvePath_one_byte_witness :
  main calm ansi
       (mkFlags "x" [] "" "" "" false false false false ["prod"; "build"])
  = ([], [], Panic "slice bounds out of range").
Proof.
  refine (proj1 (proj2 (proj1 (resolvePath_one_byte calm "x") _))
            ansi _ _ _ _);
    reflexivity.
Defined.

(* ------------------------------------------------------------------ *)
(** ** The [-e] flags *)

Lemma indexFrom_first (k v : string) :
  Contains k "=" = false ->
  forall pos, indexFrom "=" (k ++ "=" ++ v) pos = pos + slen k.
Proof.
  induction k as [| c k IH]; intros H pos.
  - change ("" ++ "=" ++ v) with (String "=" v). cbn [indexFrom].
    replace (String.prefix "=" (String "=" v)) with true
      by (simpl; now rewrite prefix_empty).
    unfold slen. simpl. lia.
  - apply Contains_false_cons in H as [Hp Hk].
    change (String c k ++ "=" ++ v) with (String c (k ++ "=" ++ v)).
    cbn [indexFrom].
    assert (Hp' : String.prefix "=" (String c (k ++ "=" ++ v)) = false).
    { cbn [String.prefix] in *. destruct (ascii_dec "=" c); [| reflexivity].
      now rewrite prefix_empty in Hp. }
    rewrite Hp', (IH Hk). unfold slen. simpl String.length. lia.
Qed.

Lemma cliEnv_app (a b : list string) :
  forall e, cliEnv (a ++ b) e = cliEnv b (cliEnv a e).
Proof.
  induction a as [| env a IH]; intros e; simpl; [reflexivity |].
  destruct (slen env =? 0); [apply IH |].
  destruct (Index env "=" <? 0); apply IH.
Qed.

(** X14.  An [-e] flag is split at its first [=]: [KEY=VALUE] sets KEY to
    VALUE, which may itself hold [=] signs, in the env list and in the list
    SUP_ENV is made of.  A flag without [=] sets the key to the empty
    string in the env list and is left out of SUP_ENV; an empty flag does
    nothing.  The flags are applied from left to right. *)
Theorem env_flag_splits_at_first_equals (k v : string) (e cv : EnvList) :
  Contains k "=" = false ->
  cliEnv [k ++ "=" ++ v] e = EnvList_Set e k v /\
  cliVarsOf [k ++ "=" ++ v] cv = EnvList_Set cv k v /\
  (k <> "" -> cliEnv [k] e = EnvList_Set e k "" /\ cliVarsOf [k] cv = cv) /\
  cliEnv [""] e = e /\
  (forall a b, cliEnv (a ++ b) e = cliEnv b (cliEnv a e)).
Proof.
  intros Hk.
  assert (Hidx : Index (k ++ "=" ++ v) "=" = slen k).
  { unfold Index. rewrite (indexFrom_first k v Hk). lia. }
  assert (Hlen : (slen (k ++ "=" ++ v) =? 0) = false).
  { apply Z.eqb_neq. rewrite !slen_app. pose proof (slen_nonneg k).
    pose proof (slen_nonneg v). change (slen "=") with 1. lia. }
  assert (Hkey : sslice (k ++ "=" ++ v) 0 (slen k) = k).
  { apply sslice_app_l. }
  assert (Hval : sslice (k ++ "=" ++ v) (slen k + 1) (slen (k ++ "=" ++ v))
                 = v).
  { rewrite <- (append_assoc k "=" v).
    replace (slen k + 1) with (slen (k ++ "=")).
    - apply sslice_app_r.
    - rewrite slen_app. reflexivity. }
  assert (Hpos : (slen k <? 0) = false).
  { apply Z.ltb_ge. apply slen_nonneg. }
  repeat split.
  - cbn [cliEnv]. rewrite Hlen, Hidx, Hpos, Hkey, Hval. reflexivity.
  - cbn [cliVarsOf]. rewrite Hlen, Hidx, Hpos, Hkey, Hval. reflexivity.
  - cbn [cliEnv].
    assert (H0 : (slen k =? 0) = false).
    { apply Z.eqb_neq. destruct k; [congruence | unfold slen; simpl; lia]. }
    rewrite H0. unfold Contains in Hk. apply Z.leb_gt in Hk.
    destruct (Z.ltb_spec (Index k "=") 0); [reflexivity | lia].
  - cbn [cliVarsOf].
    assert (H0 : (slen k =? 0) = false).
    { apply Z.eqb_neq. destruct k; [congruence | unfold slen; simpl; lia]. }
    rewrite H0. unfold Contains in Hk. apply Z.leb_gt in Hk.
    destruct (Z.ltb_spec (Index k "=") 0); [reflexivity | lia].
  - intros a b. apply cliEnv_app.
Qed.

(** [env_flag_splits_at_first_equals] on [-e OPTS=--level=3]. *)
Lemma env_flag_splits_at_first_equals_witness :
  cliEnv ["OPTS=--level=3"] [] = [mkEnvVar "OPTS" "--level=3"].
Proof.
  exact (proj1 (env_flag_splits_at_first_equals "OPTS" "--level=3" [] []
                  eq_refl)).
Defined.

(* ================================================================== *)
(** * The tasks of a command, body by body *)
(* ================================================================== *)

Lemma uploadTasks_bodies (w : Sys) (cmd : Command) (clients : list Client)
  (env cwd : string) :
  clients <> [] ->
  forall (uploads : list Upload) (tasks ts : list Task),
    uploadTasks w cmd clients env cwd uploads tasks = Ok ts ->
    exists files,
      Forall2 (fun u file =>
                 exec_Output w cwd ["bash"; "-c"; env ++ "echo -n " ++ Src u]
                 = Done file) uploads files /\
      ts = (tasks ++
            flat_map (fun uf => map (withClients
                                       (uploadBody cwd (fst uf) (snd uf)))
                                    (groups cmd clients))
                     (combine uploads files))%list.
Proof.
  intros Hne. induction uploads as [| u rest IH]; intros tasks ts H; simpl in H.
  - injection H as <-. exists []. split; [constructor |].
    simpl. now rewrite app_nil_r.
  - apply bind_Ok in H as (uploadFile & Hfile & H).
    apply bind_Ok in H as (reader & Hreader & H).
    rewrite fanOut_groups in H by assumption. simpl in H.
    apply IH in H as (files & Hfiles & ->).
    unfold ResolveLocalPath in Hfile.
    destruct (exec_Output w cwd _) as [file |] eqn:Hout; [| discriminate].
    injection Hfile as <-.
    unfold NewTarStreamReader in Hreader.
    destruct (tar_StdoutPipe w cwd file (Exc u)); [| discriminate].
    destruct (tar_Start w cwd file (Exc u)); [| discriminate].
    injection Hreader as <-.
    exists (file :: files). split; [constructor; assumption |].
    simpl. now rewrite <- app_assoc.
Qed.

(** X15.  The tasks [createTasks] returns for a command, given at least
    one client: first the uploads, in the order of the command, then the
    script, then the local command, then the remote command, each but the
    local one bound to every client group of the fan-out in turn.  An
    upload task runs the remote [tar] on the archive of the resolved
    source, without TTY, and is touched neither by the debug flag nor by
    the [stdin] attribute; the three other bodies request a TTY, get
    [set -x;] in front under debug and the controller's stdin under
    [stdin].  The local task is bound to a localhost client allocated for
    it; this is all [createTasks] changes in the heap of clients. *)
Theorem createTasks_bodies (w : Sys) (sup : Stackup) (cmd : Command)
  (clients : list Client) (env : string) (h : Heap) (ts : list Task) :
  clients <> [] ->
  snd (createTasks w sup cmd clients env h) = Ok ts ->
  let gs := groups cmd clients in
  let fan := fun task => map (withClients task) gs in
  exists cwd files scr,
    os_Getwd w = Done cwd /\
    Forall2 (fun u file =>
               exec_Output w cwd ["bash"; "-c"; env ++ "echo -n " ++ Src u]
               = Done file) (CUpload cmd) files /\
    (if String.eqb (Script cmd) "" then scr = []
     else exists f data,
            os_Open w (Script cmd) = Done f /\
            ioutil_ReadAll w f = Done data /\
            scr = fan (debugStdin sup cmd (mkTask data None [] true))) /\
    ts = (flat_map (fun uf => fan (uploadBody cwd (fst uf) (snd uf)))
                   (combine (CUpload cmd) files)
          ++ scr
          ++ (if String.eqb (CLocal cmd) "" then []
              else [debugStdin sup cmd
                      (mkTask (CLocal cmd) None [List.length h] true)])
          ++ (if String.eqb (CRun cmd) "" then []
              else fan (debugStdin sup cmd
                          (mkTask (CRun cmd) None [] true))))%list /\
    fst (createTasks w sup cmd clients env h)
    = (if String.eqb (CLocal cmd) "" then h
       else h ++ [localClient w env])%list.
Proof.
  intros Hne H gs fan. unfold createTasks in *.
  destruct (bind _ _) as [t2 | e | m | code] eqn:Hpre; try discriminate.
  apply bind_Ok in Hpre as (cwd & Hcwd & Hpre).
  apply bind_Ok in Hpre as (t1 & H1 & H2).
  apply uploadTasks_bodies in H1 as (files & Hfiles & ->); [| assumption].
  destruct (os_Getwd w) as [cwd' |] eqn:Hwd; [| discriminate].
  injection Hcwd as ->.
  cbn [app] in *.
  assert (Hscr : exists scr,
    (if String.eqb (Script cmd) "" then scr = []
     else exists f data,
            os_Open w (Script cmd) = Done f /\
            ioutil_ReadAll w f = Done data /\
            scr = fan (debugStdin sup cmd (mkTask data None [] true))) /\
    t2 = (flat_map (fun uf => fan (uploadBody cwd (fst uf) (snd uf)))
                   (combine (CUpload cmd) files) ++ scr)%list).
  { unfold scriptTasks in H2. destruct (String.eqb (Script cmd) "").
    - injection H2 as <-. exists []. now rewrite app_nil_r.
    - destruct (os_Open w (Script cmd)) as [f |] eqn:Hopen; [| discriminate].
      simpl in H2.
      destruct (ioutil_ReadAll w f) as [data |] eqn:Hread; [| discriminate].
      simpl in H2. rewrite fanOut_groups in H2 by assumption.
      injection H2 as <-. eexists. split; [| reflexivity].
      exists f, data. auto. }
  destruct Hscr as (scr & Hscr & ->).
  exists cwd, files, scr. split; [reflexivity |]. split; [exact Hfiles |].
  split; [exact Hscr |]. clear Hscr.
  unfold localTasks in *.
  destruct (String.eqb (CLocal cmd) "").
  - cbn [fst snd] in *. split; [| reflexivity].
    unfold runTasks in H. destruct (String.eqb (CRun cmd) "").
    + injection H as <-. now rewrite !app_nil_r.
    + rewrite fanOut_groups in H by assumption. injection H as <-.
      now rewrite <- !app_assoc.
  - unfold localClient.
    destruct (LocalhostClient_Connect w _) as [obj err].
    cbn [fst snd alloc] in *. split; [| reflexivity].
    unfold runTasks in H. destruct (String.eqb (CRun cmd) "").
    + injection H as <-. now rewrite <- !app_assoc.
    + rewrite fanOut_groups in H by assumption. injection H as <-.
      now rewrite <- !app_assoc.
Qed.

(** [createTasks_bodies] on a command with the four kinds of body, three
    clients and the debug flag: four tasks, the upload first and untouched;
    the heap of clients has grown by the localhost client. *)
Lemma createTasks_bodies_witness :
  fst (createTasks calm (mkStackup true true) release three "" [])
  = [localClient calm ""].
Proof.
  destruct (createTasks_bodies calm (mkStackup true true) release three ""
              []
              [mkTask (RemoteTarCommand "/srv/app")
                      (Some (TarStdout "/work" "./dist" ".git")) three false;
               mkTask "set -x;uptime" (Some OsStdin) three true;
               mkTask "set -x;make dist" (Some OsStdin) [0%nat] true;
               mkTask "set -x;./restart.sh" (Some OsStdin) three true]
              ltac:(discriminate) eq_refl)
    as (cwd & files & scr & _ & _ & _ & _ & Hheap).
  exact Hheap.
Defined.

(* ================================================================== *)
(** * Running without prefixes *)
(* ================================================================== *)

Lemma unprefixed_method (ev : event) : methodEvent ev -> unprefixed ev.
Proof. destruct ev; simpl; trivial; contradiction. Qed.

Lemma Stackup_Run_unprefixed (w : Sys) (pal : Palette) (sup : Stackup)
  (cfg : list SSHHost) (network : Network) (envVars : EnvList)
  (commands : list Command) (h : Heap) :
  prefix sup = false ->
  Forall unprefixed
    (snd (fst (fst (Stackup_Run w pal sup cfg network envVars commands h)))).
Proof.
  intros Hsup.
  destruct (len commands =? 0) eqn:Hcmds.
  { unfold Stackup_Run. rewrite Hcmds. constructor. }
  destruct (Stackup_Run_rest unprefixed false unprefixed_method
              (fun _ _ _ H => H eq_refl) (fun _ _ H => H eq_refl)
              w pal sup cfg network envVars commands h Hsup Hcmds)
    as (rest & -> & Hnone & Hsome).
  apply Forall_app. split.
  - pose proof (connectBastion_trace w pal network cfg) as Hb. cbv zeta in Hb.
    destruct (String.eqb (Bastion network) "").
    + destruct Hb as [-> _]. constructor.
    + destruct Hb as [[-> _] | [-> _]]; [constructor |].
      constructor; [exact I | constructor].
  - destruct (snd (connectBastion w pal network cfg))
      as [bo | e | m | code] eqn:Hr.
    + apply (Hsome bo eq_refl). intros addr user auth. exact I.
    + rewrite Hnone; [constructor | intros bo; discriminate].
    + rewrite Hnone; [constructor | intros bo; discriminate].
    + rewrite Hnone; [constructor | intros bo; discriminate].
Qed.

Lemma parseArgs_unprefixed (w : Sys) (fl : Flags) (conf : Supfile) :
  Forall unprefixed (fst (parseArgs w fl conf)).
Proof.
  assert (Hu : forall b, Forall unprefixed [usage b]).
  { intros b. constructor; [exact I | constructor]. }
  unfold parseArgs.
  destruct (Args_ fl) as [| arg0 args1]; [apply Hu |].
  destruct (Get (Networks conf) arg0) as [nw |]; [| apply Hu].
  destruct (ParseInventory w _) as [hosts | e]; [| constructor].
  destruct (len _ =? 0); [apply Hu |].
  destruct (len (arg0 :: args1) <? 2); [apply Hu |].
  pose proof (argCommands_spec conf args1 []) as Hspec.
  destruct (argCommands conf args1 []) as [tr r].
  destruct r as [cs | e | m | code]; try contradiction.
  - destruct Hspec as (-> & _). constructor.
  - destruct Hspec as (-> & _). apply Hu.
Qed.

Lemma die_unprefixed {A : Type} (tr : list event) (err : error) :
  Forall unprefixed tr ->
  Forall unprefixed (fst (fst (@die A tr err))).
Proof.
  intros H. unfold die. cbn [fst]. apply Forall_app. split; [exact H |].
  constructor; [reflexivity | constructor].
Qed.

Lemma mainRun_unprefixed (w : Sys) (pal : Palette) (fl : Flags)
  (conf : Supfile) (network : Network) (commands : list Command)
  (tr : list event) :
  disablePrefix fl = true -> Forall unprefixed tr ->
  Forall unprefixed (fst (fst (mainRun w pal fl conf network commands tr))).
Proof.
  intros Hflag Htr. unfold mainRun.
  destruct (resolvePath w _); try exact Htr;
    try (apply die_unprefixed; exact Htr).
  destruct (sshconfig_Parse w _) as [cfg | e];
    [| apply die_unprefixed; exact Htr].
  destruct (ResolveValues w _) as [vars | e];
    [| apply die_unprefixed; exact Htr].
  match goal with
  | |- context [Stackup_Run w pal ?app cfg network ?vars' commands []] =>
      pose proof (Stackup_Run_unprefixed w pal app cfg network vars'
                    commands []) as Hrun;
      destruct (Stackup_Run w pal app cfg network vars' commands [])
        as [[[h' tr'] calls] r]
  end.
  cbn [fst snd prefix] in Hrun. rewrite Hflag in Hrun.
  specialize (Hrun eq_refl).
  destruct r; cbn [fst];
    repeat (apply Forall_app; split); auto.
  constructor; [reflexivity | constructor].
Qed.

(** X16.  Under [--disable-prefix] nothing [main] writes carries a host
    prefix: every pump of a client's stdout or stderr is started with the
    empty prefix, and every error line, those of the reap phase included,
    is printed without one. *)
Theorem no_prefix_when_disabled (w : Sys) (pal : Palette) (fl : Flags) :
  disablePrefix fl = true ->
  Forall unprefixed (fst (fst (main w pal fl))).
Proof.
  intros Hflag. unfold main.
  destruct (showHelp fl).
  { constructor; [reflexivity |]. constructor; [exact I | constructor]. }
  destruct (showVersion fl).
  { constructor; [exact I | constructor]. }
  destruct (resolvePath w _) as [path | e | m | code];
    [| apply (@die_unprefixed unit); constructor | constructor | constructor].
  destruct (readSupfile w path) as [data | errs].
  - destruct (NewSupfile w data) as [conf | e];
      [| apply (@die_unprefixed unit); constructor].
    unfold mainConf.
    pose proof (parseArgs_unprefixed w fl conf) as Hp.
    destruct (parseArgs w fl conf) as [tr r]. cbn [fst] in Hp.
    destruct r as [[network commands] | e | m | code]; try exact Hp;
      try (apply die_unprefixed; exact Hp).
    destruct (filterHosts w (onlyHosts fl) true _ (Hosts network))
      as [hosts | e | m | code];
      try exact Hp; try (apply die_unprefixed; exact Hp).
    destruct (filterHosts w (exceptHosts fl) false _ hosts);
      try exact Hp; try (apply die_unprefixed; exact Hp).
    apply mainRun_unprefixed; assumption.
  - cbn [fst]. induction errs; simpl; constructor; [reflexivity | assumption].
Qed.

(** [no_prefix_when_disabled] on [sup --disable-prefix prod build]. *)
Lemma no_prefix_when_disabled_witness :
  Forall unprefixed
    (fst (fst (main calm ansi
                 (mkFlags "" [] "" "" "" false true false false
                          ["prod"; "build"])))).
Proof.
  apply no_prefix_when_disabled. reflexivity.
Defined.

(** With prefixes on, the same run labels the pumps with the host. *)
Example prefix_when_enabled :
  In (EvPump false 0%nat (esc ++ "[33m" ++ "deploy@h1:22 | " ++ esc ++ "[0m"))
     (fst (fst (main calm ansi supProdBuild))).
Proof. vm_compute. auto 10. Qed.

(* ================================================================== *)
(** * A task from start to finish *)
(* ================================================================== *)

Lemma load_store_same (h : Heap) (c : Client) (o o' : ClientObj) :
  load h c = Some o -> load (store h c o') c = Some o'.
Proof.
  unfold load. revert c. induction h as [| x h IH]; intros [| c]; simpl;
    try discriminate; auto.
Qed.

Lemma load_store_other (h : Heap) (c c' : Client) (o' : ClientObj) :
  c <> c' -> load (store h c o') c' = load h c'.
Proof.
  unfold load. revert c c'.
  induction h as [| x h IH]; intros [| c] [| c'] Hne; simpl;
    try reflexivity; try congruence.
  apply IH. congruence.
Qed.

(** A method that sets the flag of the client it returns on keeps or
    sets the flags of the heap. *)
Lemma runningIs_store (b : bool) (h : Heap) (c c' : Client)
  (o o' : ClientObj) :
  load h c = Some o -> isRunning o' = b ->
  (c' = c \/ runningIs b h c') -> runningIs b (store h c o') c'.
Proof.
  intros Hload Hb [-> | (o1 & Hl1 & Hr1)].
  - exists o'. split; [now apply (load_store_same h c o) | exact Hb].
  - destruct (Nat.eq_dec c c') as [<- | Hne].
    + exists o'. split; [now apply (load_store_same h c o) | exact Hb].
    + exists o1. split; [now rewrite load_store_other | exact Hr1].
Qed.

Lemma Client_Run_Ok (w : Sys) (t : Task) (o o' : ClientObj)
  (tr : list event) :
  Client_Run w t o = (o', tr, Ok tt) -> isRunning o' = true.
Proof.
  destruct o as [c | c]; unfold Client_Run, dispatch.
  - destruct (LocalhostClient_Run w t c) as [[c' tr'] r] eqn:Hrun.
    intros [= <- <- ->].
    destruct c as [cmd0 user i o e0 ru env]. destruct t as [run input cl tty].
    revert Hrun. unfold LocalhostClient_Run, lassignPipe.
    run_method; intros [= <-]; reflexivity.
  - destruct (SSHClient_Run w t c) as [[c' tr'] r] eqn:Hrun.
    intros [= <- <- ->].
    now apply SSHClient_Run_ok in Hrun as (Hru & _).
Qed.

Lemma Client_Wait_Ok (w : Sys) (o o' : ClientObj) (tr : list event) :
  Client_Wait w o = (o', tr, Ok tt) -> isRunning o' = false.
Proof.
  destruct o as [c | c]; unfold Client_Wait, dispatch.
  - destruct (LocalhostClient_Wait w c) as [[c' tr'] r] eqn:Hwait.
    intros [= <- <- ->].
    destruct c as [cmd0 user i o e0 ru env].
    revert Hwait. unfold LocalhostClient_Wait.
    run_method; intros [= <-]; reflexivity.
  - destruct (SSHClient_Wait w c) as [[c' tr'] r] eqn:Hwait.
    intros [= <- <- ->].
    destruct c as [conn0 sess0 user host i o e0 co so ru env color signer].
    revert Hwait. unfold SSHClient_Wait.
    run_method; intros [= <-]; reflexivity.
Qed.

Lemma launch_Ok (w : Sys) (pal : Palette) (t : Task) (onPrefix : bool)
  (maxLen : Z) (clients : list Client) :
  forall h h' tr,
    launch w pal t onPrefix maxLen clients h = (h', tr, Ok tt) ->
    forall c, In c clients \/ runningIs true h c -> runningIs true h' c.
Proof.
  induction clients as [| c0 rest IH]; intros h h' tr H c Hc.
  - simpl in H. unfold ret in H. injection H as <- _.
    destruct Hc as [[] | Hc]. exact Hc.
  - simpl in H. unfold bindM, onClient, get, liftR, emit in H.
    destruct (load h c0) as [o |] eqn:Hload; [| discriminate].
    simpl in H.
    destruct (doPrefix pal onPrefix maxLen o) as [p | e | m | code];
      try discriminate.
    assert (Hsame : store h c0 o = h).
    { clear -Hload. unfold load in Hload. revert c0 Hload.
      induction h as [| x h IH]; intros [| c0] Hl; simpl in *;
        try discriminate; [congruence |].
      f_equal. now apply IH. }
    rewrite Hsame, Hload in H.
    destruct (Client_Run w t o) as [[o' tr1] r1] eqn:Hrun.
    destruct r1 as [[] | e | m | code]; try discriminate.
    simpl in H.
    destruct (launch w pal t onPrefix maxLen rest (store h c0 o'))
      as [[h2 tr2] r2] eqn:Hrest.
    destruct r2 as [[] | e | m | code]; try discriminate.
    injection H as <- _.
    apply (IH _ _ _ Hrest).
    apply Client_Run_Ok in Hrun.
    destruct Hc as [[<- | Hin] | Hc].
    + right. apply (runningIs_store true h c0 c0 o o'); auto.
    + now left.
    + right. apply (runningIs_store true h c0 c o o'); auto.
Qed.

Lemma clientsFinish_Ok (w : Sys) (pal : Palette) (onPrefix : bool)
  (len_ : Z) (clients : list Client) :
  forall h h' tr,
    clientsFinish w pal onPrefix len_ clients h = (h', tr, Ok tt) ->
    forall c, In c clients \/ runningIs false h c -> runningIs false h' c.
Proof.
  induction clients as [| c0 rest IH]; intros h h' tr H c Hc.
  - simpl in H. unfold ret in H. injection H as <- _.
    destruct Hc as [[] | Hc]. exact Hc.
  - simpl in H. unfold bindM, onClient in H.
    destruct (load h c0) as [o |] eqn:Hload; [| discriminate].
    unfold clientFinish in H.
    destruct (Client_Wait w o) as [[o' tr1] r1] eqn:Hwait.
    destruct r1 as [[] | e | m | code]; try discriminate.
    + destruct (clientsFinish w pal onPrefix len_ rest (store h c0 o'))
        as [[h2 tr2] r2] eqn:Hrest.
      destruct r2 as [[] | e | m | code]; try discriminate.
      injection H as <- _.
      apply (IH _ _ _ Hrest).
      apply Client_Wait_Ok in Hwait.
      destruct Hc as [[<- | Hin] | Hc].
      * right. apply (runningIs_store false h c0 c0 o o'); auto.
      * now left.
      * right. apply (runningIs_store false h c0 c o o'); auto.
    + destruct e; try discriminate.
      destruct (negb (status =? 15)); discriminate.
Qed.

(** X17.  [Task.do] brackets a task on its clients.  When it returns nil,
    the launch loop has started every client of the task (each was running
    when the loop ended) and the reap phase has waited for every one of
    them: no client of the task is left running, so each can take the next
    task.  When it returns an error, the error is that of a [Run], wrapped
    as [<prefix>task failed]: the reap phase has not been entered, and no
    client has been waited for. *)
Theorem do_starts_and_reaps (w : Sys) (pal : Palette) (t : Task)
  (onPrefix : bool) (maxLen : Z) (h h' : Heap) (tr : list event)
  (r : result unit) :
  Task_do w pal t onPrefix maxLen h = (h', tr, r) ->
  (r = Ok tt ->
     (exists h1 tr1,
        launch w pal t onPrefix maxLen (Clients t) h = (h1, tr1, Ok tt) /\
        forall c, In c (Clients t) -> runningIs true h1 c) /\
     forall c, In c (Clients t) -> runningIs false h' c) /\
  (forall e, r = Error e ->
     launch w pal t onPrefix maxLen (Clients t) h = (h', tr, Error e) /\
     exists err prefix, e = wrapped err (prefix ++ "task failed")).
Proof.
  unfold Task_do, bindM. intros H.
  destruct (launch w pal t onPrefix maxLen (Clients t) h)
    as [[h1 tr1] r1] eqn:Hlaunch.
  destruct r1 as [[] | e1 | m | code].
  - destruct (clientsFinish w pal onPrefix maxLen (Clients t) h1)
      as [[h2 tr2] r2] eqn:Hreap.
    injection H as <- <- <-. split.
    + intros ->. split.
      * exists h1, tr1. split; [reflexivity |].
        intros c Hin. apply (launch_Ok _ _ _ _ _ _ _ _ _ Hlaunch). now left.
      * intros c Hin. apply (clientsFinish_Ok _ _ _ _ _ _ _ _ Hreap).
        now left.
    + intros e ->. exfalso.
      clear -Hreap. revert h1 h2 tr2 Hreap.
      induction (Clients t) as [| c0 rest IH]; intros h1 h2 tr2 H;
        simpl in H; [discriminate |].
      unfold bindM, onClient in H.
      destruct (load h1 c0) as [o |]; [| discriminate].
      unfold clientFinish in H.
      destruct (Client_Wait w o) as [[o' tr1] r1].
      destruct r1 as [[] | e1 | m | code]; try discriminate.
      * destruct (clientsFinish w pal onPrefix maxLen rest (store h1 c0 o'))
          as [[h3 tr3] r3] eqn:Hrest.
        destruct r3; try discriminate. injection H as _ _ ->.
        exact (IH _ _ _ Hrest).
      * destruct e1; try discriminate.
        destruct (negb (status =? 15)); discriminate.
  - injection H as <- <- <-. split; [discriminate |].
    intros e [= <-]. split; [reflexivity |].
    clear -Hlaunch. revert h h1 tr1 Hlaunch.
    induction (Clients t) as [| c0 rest IH]; intros h h1 tr1 H;
      simpl in H; [discriminate |].
    unfold bindM, onClient, get, liftR, emit in H.
    destruct (load h c0) as [o |]; [| discriminate].
    simpl in H.
    destruct (doPrefix pal onPrefix maxLen o) as [p | e | m | code] eqn:Hp.
    + destruct (load (store h c0 o) c0) as [o1 |]; [| discriminate].
      destruct (Client_Run w t o1) as [[o' tr2] r2].
      destruct r2 as [[] | e | m | code]; try discriminate.
      * simpl in H.
        destruct (launch w pal t onPrefix maxLen rest _)
          as [[h3 tr3] r3] eqn:Hrest.
        destruct r3; try discriminate. injection H as _ _ ->.
        exact (IH _ _ _ Hrest).
      * injection H as _ _ <-. eauto.
    + exfalso. unfold doPrefix in Hp. destruct onPrefix; [| discriminate].
      destruct (Client_Prefix pal o) as [p n].
      destruct (slen p <? maxLen); [| discriminate].
      unfold Repeat in Hp. destruct (maxLen - n <? 0); discriminate.
    + discriminate.
    + discriminate.
  - injection H as <- <- <-. split; discriminate.
  - injection H as <- <- <-. split; discriminate.
Qed.

(** [do_starts_and_reaps] on a remote body run on two connected hosts:
    the second host is not running when the task is done. *)
Lemma do_starts_and_reaps_witness :
  let t := withClients body [0%nat; 1%nat] in
  runningIs false (fst (fst (Task_do calm ansi t true 11 twoHosts))) 1%nat.
Proof.
  intros t.
  refine (proj2 (proj1
    (do_starts_and_reaps calm ansi t true 11 twoHosts
       (fst (fst (Task_do calm ansi t true 11 twoHosts)))
       (snd (fst (Task_do calm ansi t true 11 twoHosts)))
       (snd (Task_do calm ansi t true 11 twoHosts)) _) _) 1%nat _).
  - reflexivity.
  - reflexivity.
  - right. left. reflexivity.
Defined.

(* ================================================================== *)
(** * The commands of a run *)
(* ================================================================== *)

Lemma runCommands_calls (w : Sys) (pal : Palette) (sup : Stackup)
  (clients : list Client) (env : string) (maxLen : Z) :
  forall commands h,
    let calls := snd (fst (runCommands w pal sup clients env maxLen
                                       commands h)) in
    let r := snd (runCommands w pal sup clients env maxLen commands h) in
    exists rest,
      commands = (map call_cmd calls ++ rest)%list /\
      (r = Ok tt -> rest = [] /\ Forall builtTasks calls) /\
      (forall pre last, calls = (pre ++ [last])%list ->
         Forall builtTasks pre).
Proof.
  induction commands as [| cmd rest IH]; intros h; simpl.
  - exists []. split; [reflexivity |]. split.
    + intros _. split; [reflexivity | constructor].
    + intros [| x pre] last H; discriminate.
  - destruct (createTasks w sup cmd clients env h) as [h1 r].
    assert (Hlast : forall (c : CreateCall) pre last,
              [c] = (pre ++ [last])%list -> Forall builtTasks pre).
    { intros c [| x [| y pre]] last H; try discriminate. constructor. }
    destruct r as [tasks | e | m | code];
      try (exists rest; split; [reflexivity |];
           split; [discriminate | apply Hlast]).
    destruct (doTasks w pal (prefix sup) maxLen tasks h1) as [[h2 tr] r2].
    destruct r2 as [[] | e | m | code];
      try (exists rest; split; [reflexivity |];
           split; [discriminate | apply Hlast]).
    specialize (IH h2). cbv zeta in IH.
    destruct (runCommands w pal sup clients env maxLen rest h2)
      as [[[h3 tr'] calls] r'].
    cbn [fst snd] in *.
    destruct IH as (rest' & -> & Hok & Hpre).
    assert (Hthis : builtTasks (mkCreateCall cmd clients (Ok tasks))).
    { exists tasks. reflexivity. }
    exists rest'. split; [reflexivity |]. split.
    + intros Hr. destruct (Hok Hr) as [-> Hall].
      split; [reflexivity | constructor; assumption].
    + intros [| x pre] last H.
      * constructor.
      * injection H as <- H. constructor; [exact Hthis |].
        exact (Hpre _ _ H).
Qed.

Lemma closeAll_keeps_error (w : Sys) (clients : list Client) :
  forall e h, snd (closeAll w clients (Some e) h) <> Ok None.
Proof.
  induction clients as [| c rest IH]; intros e h; simpl; [discriminate |].
  destruct (onClient c (Client_Close w) h) as [[h' tr] r].
  destruct r as [[] | derr | m | code]; try discriminate.
  - specialize (IH e h').
    destruct (closeAll w rest (Some e) h') as [[h'' tr'] res]. exact IH.
  - specialize (IH (multierror_Append (Some e) derr) h').
    destruct (closeAll w rest _ h') as [[h'' tr'] res]. exact IH.
Qed.

(** X18.  [Run] takes the commands in order and stops at the first one
    that fails: the calls of [createTasks] it makes are for a leading part
    of the commands, in order, and every call but the last has returned
    tasks.  When [Run] returns nil, every command has had its tasks
    built, and there was at least one command. *)
Theorem Run_takes_commands_in_order (w : Sys) (pal : Palette) (sup : Stackup)
  (cfg : list SSHHost) (network : Network) (envVars : EnvList)
  (commands : list Command) (h : Heap) :
  let calls := snd (fst (Stackup_Run w pal sup cfg network envVars
                                     commands h)) in
  let r := snd (Stackup_Run w pal sup cfg network envVars commands h) in
  (exists rest, commands = (map call_cmd calls ++ rest)%list) /\
  (forall pre last, calls = (pre ++ [last])%list -> Forall builtTasks pre) /\
  (r = Ok tt ->
     map call_cmd calls = commands /\ Forall builtTasks calls /\
     commands <> []).
Proof.
  cbv zeta. unfold Stackup_Run.
  assert (Hnone : (exists rest : list Command,
                     commands = (map call_cmd [] ++ rest)%list) /\
                  (forall pre last, @nil CreateCall = (pre ++ [last])%list ->
                     Forall builtTasks pre)).
  { split; [exists commands; reflexivity |].
    intros [| x pre] last H; discriminate. }
  destruct Hnone as [Hn1 Hn2].
  destruct (Z.eqb_spec (len commands) 0) as [H0 | Hpos].
  { split; [exact Hn1 |]. split; [exact Hn2 | discriminate]. }
  assert (Hne : commands <> []).
  { intros ->. now apply Hpos. }
  destruct (connectBastion w pal network cfg) as [tr0 rb].
  destruct rb as [bastion | e | m | code];
    try (split; [exact Hn1 |]; split; [exact Hn2 | discriminate]).
  destruct (connectHosts w pal bastion (AsExport envVars) cfg 0
                         (Hosts network) h) as [[h1 tr1] r1].
  destruct r1 as [[clients errs] | e | m | code];
    try (split; [exact Hn1 |]; split; [exact Hn2 | discriminate]).
  destruct errs as [| err errs].
  - pose proof (runCommands_calls w pal sup clients (AsExport envVars)
                  (maxPrefixLen pal h1 clients 0) commands h1) as Hrun.
    cbv zeta in Hrun.
    destruct (runCommands w pal sup clients (AsExport envVars)
                (maxPrefixLen pal h1 clients 0) commands h1)
      as [[[h2 tr2] calls] r].
    cbn [fst snd] in Hrun. destruct Hrun as (rest & Hcmds & Hok & Hpre).
    destruct r as [[] | e | m | code].
    + destruct (closeAll w _ None h2) as [[h3 tr3] res].
      cbn [fst snd]. split; [eauto |]. split; [exact Hpre |].
      intros _. destruct (Hok eq_refl) as [-> Hall].
      rewrite app_nil_r in Hcmds. auto.
    + pose proof (closeAll_keeps_error w (filter (isRemote h1) clients)
                    e h2) as Hkeep.
      destruct (closeAll w _ (Some e) h2) as [[h3 tr3] res].
      cbn [fst snd] in *. split; [eauto |]. split; [exact Hpre |].
      intros Hr. exfalso.
      destruct res as [[e' |] | e' | m | code]; try discriminate.
      now apply Hkeep.
    + destruct (closeAll w _ None h2) as [[h3 tr3] res].
      cbn [fst snd]. split; [eauto |]. split; [exact Hpre |]. discriminate.
    + cbn [fst snd]. split; [eauto |]. split; [exact Hpre |]. discriminate.
  - pose proof (closeAll_keeps_error w (filter (isRemote h1) clients)
                  (wrapped err "connecting to clients failed") h1) as Hkeep.
    cbn zeta beta iota.
    destruct (closeAll w _ _ h1) as [[h3 tr3] res].
    cbn [fst snd] in *. split; [exact Hn1 |]. split; [exact Hn2 |].
    intros Hr. exfalso.
    destruct res as [[e' |] | e' | m | code]; try discriminate.
    now apply Hkeep.
Qed.

(* ================================================================== *)
(** * Forwarding signals *)
(* ================================================================== *)

Lemma store_load (h : Heap) (c : Client) (o : ClientObj) :
  load h c = Some o -> store h c o = h.
Proof.
  unfold load. revert c. induction h as [| x h IH]; intros [| c] Hl;
    simpl in *; try discriminate; [congruence |].
  f_equal. now apply IH.
Qed.

Lemma Client_Signal_state (w : Sys) (sig : Signal) (o : ClientObj) :
  fst (fst (Client_Signal w sig o)) = o /\
  (forall code, snd (Client_Signal w sig o) <> Exit code) /\
  (signalable o -> forall m, snd (Client_Signal w sig o) <> Panic m).
Proof.
  destruct o as [c | c]; unfold Client_Signal, dispatch, signalable.
  - destruct c as [cmd0 user i o e0 ru env].
    unfold LocalhostClient_Signal. simpl.
    unfold bindM, get, emit, deref, check, ret, panic, throw. simpl.
    destruct cmd0 as [[argv [process |]] |]; simpl;
      try (repeat split; try discriminate;
           intros (argv' & process' & H); discriminate).
    destruct (process_Signal w process sig); repeat split; discriminate.
  - destruct c as [conn0 sess0 user host i o e0 co so ru env color signer].
    unfold SSHClient_Signal. simpl.
    unfold bindM, get, emit, deref, check, ret, panic, throw. simpl.
    destruct so; simpl; [| repeat split; discriminate].
    destruct sig as [| name]; simpl; [| repeat split; discriminate].
    destruct i as [stdin |]; simpl.
    + destruct sess0 as [sess |]; simpl.
      * destruct (sess_Signal w sess); repeat split; discriminate.
      * repeat split; try discriminate. intros H. destruct (H eq_refl).
        congruence.
    + repeat split; try discriminate. intros H. destruct (H eq_refl).
      congruence.
Qed.

Lemma signalClients_heap (w : Sys) (sig : Signal) (clients : list Client)
  (h : Heap) :
  fst (fst (signalClients w sig clients h)) = h /\
  (forall e, snd (signalClients w sig clients h) <> Error e) /\
  (forall code, snd (signalClients w sig clients h) <> Exit code) /\
  (Forall (fun c => exists o, load h c = Some o /\ signalable o) clients ->
   snd (signalClients w sig clients h) = Ok tt).
Proof.
  induction clients as [| c rest IH]; simpl.
  - repeat split; discriminate.
  - unfold bindM, onClient.
    destruct (load h c) as [o |] eqn:Hload.
    + destruct (Client_Signal_state w sig o) as (Hst & Hexit & Hpanic).
      destruct (Client_Signal w sig o) as [[o' tr] r]. cbn [fst snd] in *.
      subst o'. rewrite (store_load h c o Hload).
      destruct IH as (Hh & Herr & Hex & Hok).
      destruct r as [[] | e | m | code]; cbn [fst snd].
      * destruct (signalClients w sig rest h) as [[h' tr'] r'].
        cbn [fst snd] in *.
        split; [exact Hh |]. split; [exact Herr |]. split; [exact Hex |].
        intros Hall. apply Hok. now inversion Hall.
      * destruct (signalClients w sig rest h) as [[h' tr'] r'].
        cbn [fst snd] in *.
        split; [exact Hh |]. split; [exact Herr |]. split; [exact Hex |].
        intros Hall. apply Hok. now inversion Hall.
      * split; [reflexivity |]. split; [discriminate |].
        split; [discriminate |].
        intros Hall. exfalso. inversion Hall as [| c0 l (o1 & Hl & Hs) _].
        subst. assert (o1 = o) by congruence. subst o1.
        now apply (Hpanic Hs m).
      * now contradiction (Hexit code).
    + split; [reflexivity |]. split; [discriminate |].
      split; [discriminate |].
      intros Hall. inversion Hall as [| c0 l (o1 & Hl & Hs) _]. congruence.
Qed.

(** X19.  Forwarding signals changes no client and never fails: for
    every sequence of signals, [catchSignals] leaves the heap of clients as
    it is, returns no error and never ends the process; a client whose
    [Signal] returns an error gets a line on stderr and the loop goes on to
    the next client.  When every client of the task can be signalled (a
    localhost client with a started process, an SSH client whose open
    session has its stdin pipe), it does not panic either. *)
Theorem catchSignals_spares_clients (w : Sys) (trap : list Signal)
  (clients : list Client) (h : Heap) :
  fst (fst (catchSignals w trap clients h)) = h /\
  (forall e, snd (catchSignals w trap clients h) <> Error e) /\
  (forall code, snd (catchSignals w trap clients h) <> Exit code) /\
  (Forall (fun c => exists o, load h c = Some o /\ signalable o) clients ->
   snd (catchSignals w trap clients h) = Ok tt).
Proof.
  induction trap as [| sig rest IH]; simpl.
  - repeat split; discriminate.
  - unfold bindM.
    destruct (signalClients_heap w sig clients h) as (Hh & Herr & Hex & Hok).
    destruct (signalClients w sig clients h) as [[h1 tr1] r1].
    cbn [fst snd] in *. subst h1.
    destruct IH as (Hh' & Herr' & Hex' & Hok').
    destruct (catchSignals w rest clients h) as [[h2 tr2] r2].
    cbn [fst snd] in *.
    destruct r1 as [[] | e | m | code]; cbn [fst snd].
    + split; [exact Hh' |]. split; [exact Herr' |]. split; [exact Hex' |].
      exact Hok'.
    + now contradiction (Herr e).
    + split; [reflexivity |]. split; [discriminate |].
      split; [discriminate |]. intros Hall.
      specialize (Hok Hall). discriminate.
    + now contradiction (Hex code).
Qed.

(** Two interrupts forwarded to the client of host h1 in the middle of a
    task: each is written as the byte 3 on its stdin. *)
Example two_interrupts :
  catchSignals calm [Interrupt; Interrupt] [0%nat] [h1busy]
  = ([h1busy],
     [EvWrite 10%nat (String (ascii_of_nat 3) EmptyString);
      EvWrite 10%nat (String (ascii_of_nat 3) EmptyString)], Ok tt).
Proof. reflexivity. Qed.

(* ================================================================== *)
(** * The host filters *)
(* ================================================================== *)

Lemma filter_filter {A : Type} (f g : A -> bool) (l : list A) :
  filter f (filter g l) = filter (fun x => g x && f x) l.
Proof.
  induction l as [| x l IH]; simpl; [reflexivity |].
  destruct (g x); simpl; [destruct (f x) |]; now rewrite IH.
Qed.

Lemma filter_all {A : Type} (l : list A) : filter (fun _ => true) l = l.
Proof. induction l as [| x l IH]; simpl; [reflexivity | now rewrite IH]. Qed.

Lemma eqb_true_r (b : bool) : Bool.eqb b true = b.
Proof. now destruct b. Qed.

Lemma eqb_false_r (b : bool) : Bool.eqb b false = negb b.
Proof. now destruct b. Qed.

(** X20.  The hosts [main] runs the commands on are the hosts of the
    network that match the [--only] expression and do not match the
    [--except] expression, in the order of the network.  When [--only]
    leaves no host, [main] prints "no hosts match --only" with the
    expression and exits with status 1; when [--except] leaves none, it
    prints "no hosts left after --except" and exits with status 1, and the
    expression quoted in that message is the one of [--only]. *)
Theorem hosts_filtered_in_order (w : Sys) (pal : Palette) (fl : Flags)
  (conf : Supfile) (tr : list event) (network : Network)
  (commands : list Command) :
  parseArgs w fl conf = (tr, Ok (network, commands)) ->
  (onlyHosts fl = "" \/
   exists re, regexp_CompilePOSIX w (onlyHosts fl) = Done re) ->
  (exceptHosts fl = "" \/
   exists re, regexp_CompilePOSIX w (exceptHosts fl) = Done re) ->
  let only := filter (passesOnly w fl) (Hosts network) in
  let kept := filter (fun host => passesOnly w fl host
                                  && passesExcept w fl host)
                     (Hosts network) in
  mainConf w pal fl conf
  = if len only =? 0 then
      die tr (errorString ("no hosts match --only '" ++ onlyHosts fl
                           ++ "' regexp"))
    else if len kept =? 0 then
      die tr (errorString ("no hosts left after --except '" ++ onlyHosts fl
                           ++ "' regexp"))
    else mainRun w pal fl conf (withHosts network kept) commands tr.
Proof.
  intros Hargs Honly Hexcept only kept. unfold mainConf. rewrite Hargs.
  pose proof (parseArgs_hosts _ _ _ _ _ _ Hargs) as Hne.
  assert (Hlen : forall l : list string, l <> [] -> (len l =? 0) = false).
  { intros [| x l] H; [congruence | reflexivity]. }
  assert (H1 : filterHosts w (onlyHosts fl) true
                 ("no hosts match --only '" ++ onlyHosts fl ++ "' regexp")
                 (Hosts network)
               = if len only =? 0
                 then Error (errorString ("no hosts match --only '"
                                          ++ onlyHosts fl ++ "' regexp"))
                 else Ok only).
  { unfold filterHosts, only, passesOnly.
    destruct Honly as [-> | (re & Hre)].
    - simpl. rewrite filter_all. now rewrite (Hlen _ Hne).
    - destruct (String.eqb (onlyHosts fl) ""); simpl.
      + rewrite filter_all. now rewrite (Hlen _ Hne).
      + rewrite Hre.
        rewrite (filter_ext _ (regexp_MatchString w re))
          by (intros a; apply eqb_true_r).
        reflexivity. }
  rewrite H1. destruct (Z.eqb_spec (len only) 0) as [H0 | Hpos];
    [reflexivity |].
  assert (Honly_ne : only <> []).
  { intros Hnil. rewrite Hnil in Hpos. now apply Hpos. }
  assert (H2 : filterHosts w (exceptHosts fl) false
                 ("no hosts left after --except '" ++ onlyHosts fl
                  ++ "' regexp") only
               = if len kept =? 0
                 then Error (errorString ("no hosts left after --except '"
                                          ++ onlyHosts fl ++ "' regexp"))
                 else Ok kept).
  { assert (Hkept : kept = filter (passesExcept w fl) only).
    { unfold kept, only. now rewrite filter_filter. }
    rewrite Hkept. unfold filterHosts, passesExcept.
    destruct Hexcept as [-> | (re & Hre)].
    - simpl. rewrite filter_all. now rewrite (Hlen _ Honly_ne).
    - destruct (String.eqb (exceptHosts fl) ""); simpl.
      + rewrite filter_all. now rewrite (Hlen _ Honly_ne).
      + rewrite Hre.
        rewrite (filter_ext _ (fun host => negb (regexp_MatchString w re host)))
          by (intros a; apply eqb_false_r).
        reflexivity. }
  rewrite H2. destruct (len kept =? 0); reflexivity.
Qed.

(** [hosts_filtered_in_order] on [sup --only web --except db prod build]
    where every host matches both expressions: the message names the
    expression of [--only]. *)
Lemma hosts_filtered_in_order_witness :
  mainConf calm ansi
    (mkFlags "" [] "" "web" "db" false false false false ["prod"; "build"])
    prod
  = die [] (errorString "no hosts left after --except 'web' regexp").
Proof.
  refine (hosts_filtered_in_order calm ansi
            (mkFlags "" [] "" "web" "db" false false false false
                     ["prod"; "build"])
            prod []
            (mkNetwork [mkEnvVar "SUP_NETWORK" "prod";
                        mkEnvVar "SUP_TIME" "2020-01-01T00:00:00Z";
                        mkEnvVar "SUP_USER" ""] "" ["h1"; "h2"; "h3"] "")
            [withName build "build"] _ _ _).
  - reflexivity.
  - right. exists 0%nat. reflexivity.
  - right. exists 0%nat. reflexivity.
Defined.

(* ================================================================== *)
(** * The connections of a run *)
(* ================================================================== *)

Lemma Client_Close_Ok (w : Sys) (o o' : ClientObj) (tr : list event) :
  Client_Close w o = (o', tr, Ok tt) -> closedObj o'.
Proof.
  destruct o as [c | c]; unfold Client_Close, dispatch.
  - unfold LocalhostClient_Close, ret. intros [= <- _]. exact I.
  - destruct (SSHClient_Close w c) as [[c' tr'] r] eqn:Hclose.
    intros [= <- <- ->].
    destruct c as [conn0 sess0 user host i o e0 co so ru env color signer].
    revert Hclose. unfold SSHClient_Close.
    run_method; intros [= <-]; repeat split.
Qed.

Lemma closedAt_store (h : Heap) (c c' : Client) (o o' : ClientObj) :
  load h c = Some o -> closedObj o' ->
  (c' = c \/ closedAt h c') -> closedAt (store h c o') c'.
Proof.
  intros Hload Hb [-> | (o1 & Hl1 & Hr1)].
  - exists o'. split; [now apply (load_store_same h c o) | exact Hb].
  - destruct (Nat.eq_dec c c') as [<- | Hne].
    + exists o'. split; [now apply (load_store_same h c o) | exact Hb].
    + exists o1. split; [now rewrite load_store_other | exact Hr1].
Qed.

Lemma closeAll_Ok (w : Sys) (clients : list Client) :
  forall h h' tr,
    closeAll w clients None h = (h', tr, Ok None) ->
    forall c, In c clients \/ closedAt h c -> closedAt h' c.
Proof.
  induction clients as [| c0 rest IH]; intros h h' tr H c Hc.
  - simpl in H. unfold ret in H. injection H as <- _.
    destruct Hc as [[] | Hc]. exact Hc.
  - simpl in H. unfold onClient in H.
    destruct (load h c0) as [o |] eqn:Hload; [| discriminate].
    destruct (Client_Close w o) as [[o' tr1] r1] eqn:Hclose.
    destruct r1 as [[] | derr | m | code]; try discriminate.
    + destruct (closeAll w rest None (store h c0 o')) as [[h2 tr2] r2]
        eqn:Hrest.
      injection H as <- _ ->.
      apply (IH _ _ _ Hrest).
      apply Client_Close_Ok in Hclose.
      destruct Hc as [[<- | Hin] | Hc].
      * right. apply (closedAt_store h c0 c0 o o'); auto.
      * now left.
      * right. apply (closedAt_store h c0 c o o'); auto.
    + exfalso.
      pose proof (closeAll_keeps_error w rest
                    (multierror_Append None derr) (store h c0 o')) as Hkeep.
      destruct (closeAll w rest _ (store h c0 o')) as [[h2 tr2] r2].
      injection H as _ _ ->. now apply Hkeep.
Qed.

(** X21.  When [Run] returns nil, every SSH client it has connected to a
    host of the network has been closed: none of them has its connection or
    a session open, and none is running. *)
Theorem Run_closes_its_connections (w : Sys) (pal : Palette) (sup : Stackup)
  (cfg : list SSHHost) (network : Network) (envVars : EnvList)
  (commands : list Command) (h h' : Heap) (tr : list event)
  (calls : list CreateCall) :
  Stackup_Run w pal sup cfg network envVars commands h
  = (h', tr, calls, Ok tt) ->
  exists bastion h1 tr1 clients,
    snd (connectBastion w pal network cfg) = Ok bastion /\
    connectHosts w pal bastion (AsExport envVars) cfg 0 (Hosts network) h
    = (h1, tr1, Ok (clients, [])) /\
    forall c, In c clients -> isRemote h1 c = true -> closedAt h' c.
Proof.
  unfold Stackup_Run.
  destruct (len commands =? 0); [discriminate |].
  destruct (connectBastion w pal network cfg) as [tr0 rb].
  destruct rb as [bastion | e | m | code]; try discriminate.
  destruct (connectHosts w pal bastion (AsExport envVars) cfg 0
                         (Hosts network) h) as [[h1 tr1] r1] eqn:Hconn.
  destruct r1 as [[clients errs] | e | m | code]; try discriminate.
  cbv zeta. destruct errs as [| err errs].
  - destruct (runCommands w pal sup clients (AsExport envVars)
                (maxPrefixLen pal h1 clients 0) commands h1)
      as [[[h2 tr2] calls2] r].
    destruct r as [[] | e | m | code]; try discriminate.
    + destruct (closeAll w (filter (isRemote h1) clients) None h2)
        as [[h3 tr3] res] eqn:Hclose.
      intros H.
      assert (res = Ok None /\ h3 = h') as [-> ->].
      { destruct res as [[e |] | e | m | code]; try discriminate.
        injection H as -> _ _. auto. }
      exists bastion, h1, tr1, clients.
      split; [reflexivity |]. split; [exact Hconn |].
      intros c Hin Hremote.
      apply (closeAll_Ok _ _ _ _ _ Hclose). left.
      apply filter_In. auto.
    + pose proof (closeAll_keeps_error w (filter (isRemote h1) clients)
                    e h2) as Hkeep.
      destruct (closeAll w (filter (isRemote h1) clients) (Some e) h2)
        as [[h3 tr3] res].
      cbn [snd] in Hkeep.
      destruct res as [[e' |] | e' | m | code]; try discriminate.
      now contradiction Hkeep.
    + destruct (closeAll w (filter (isRemote h1) clients) None h2)
        as [[h3 tr3] res]. discriminate.
  - pose proof (closeAll_keeps_error w (filter (isRemote h1) clients)
                  (wrapped err "connecting to clients failed") h1) as Hkeep.
    destruct (closeAll w (filter (isRemote h1) clients) _ h1)
      as [[h3 tr3] res].
    cbn [snd] in Hkeep.
    destruct res as [[e' |] | e' | m | code]; try discriminate.
    now contradiction Hkeep.
Qed.

(** [Run_closes_its_connections] on the three hosts of [prod] and the
    command [restart]. *)
Lemma Run_closes_its_connections_witness :
  let network := mkNetwork [] "" ["h1"; "h2"; "h3"] "" in
  let run := Stackup_Run calm ansi (mkStackup false true) [] network []
                         [restart] [] in
  exists bastion h1 tr1 clients,
    snd (connectBastion calm ansi network []) = Ok bastion /\
    connectHosts calm ansi bastion (AsExport []) [] 0 (Hosts network) []
    = (h1, tr1, Ok (clients, [])) /\
    forall c, In c clients -> isRemote h1 c = true ->
              closedAt (fst (fst (fst run))) c.
Proof.
  intros network run.
  refine (Run_closes_its_connections calm ansi (mkStackup false true) []
            network [] [restart] []
            (fst (fst (fst run))) (snd (fst (fst run))) (snd (fst run)) _).
  vm_compute. reflexivity.
Defined.
